(** * Smart Traffic Management System: a shallow embedding

    The Python sources under [Seattle_ai_hackathon_project] are embedded
    module by module:

    - [core/comms.py]            -> [Module Comms]
    - [core/grid.py]             -> [Module GridM]
    - [agents/traffic_light.py]  -> [Module TrafficLight]
    - [agents/vehicle.py]        -> [Module Vehicle]
    - [agents/drone.py]          -> [Module Drone]
    - [core/controller.py]       -> [Module Controller]

    Python [int]s are [Z]; tuples [(x, y)] are pairs of [Z]; [dict]s used as
    maps are [gmap]s, [dict]s used as records are records; lists are lists.
    Exceptions are an explicit outcome; the global [random] module is an
    explicit generator state threaded through every function that draws.

    The embedding comes first, then the vocabulary in which the properties
    are stated, then the properties with their proofs. *)

From Stdlib Require Import ZArith QArith Lia.
From stdpp Require Import base option list gmap strings fin_maps pretty.

Open Scope Z_scope.

(** ** Python outcomes *)

(** The exceptions the modelled code can raise. *)
Inductive exn : Set :=
  | IndexError
  | ValueError
  | ZeroDivisionError.

(** Result of running a piece of Python: a value, a raised exception, or
    [OutOfFuel] when a fuel-bounded model of a [while] loop ran out of fuel
    (an artefact of the model, never a behaviour of the program). *)
Inductive outcome (A : Type) : Type :=
  | Ok (a : A)
  | Raise (e : exn)
  | OutOfFuel.
Arguments Ok {A} a.
Arguments Raise {A} e.
Arguments OutOfFuel {A}.

Global Instance outcome_ret : MRet outcome := fun _ a => Ok a.
Global Instance outcome_bind : MBind outcome := fun _ _ k m =>
  match m with
  | Ok a => k a
  | Raise e => Raise e
  | OutOfFuel => OutOfFuel
  end.

(** A cell position, the tuple [(x, y)]. *)
Definition Pos : Type := Z * Z.

Definition pos_eqb (p q : Pos) : bool :=
  (p.1 =? q.1) && (p.2 =? q.2).

(** [abs(a - c) + abs(b - d)] *)
Definition manhattan (p q : Pos) : Z :=
  Z.abs (p.1 - q.1) + Z.abs (p.2 - q.2).

(** ** Python list primitives *)

(** [l.pop(i)]: a negative index counts from the end; an index outside
    [-len, len) raises IndexError.  Returns the shortened list. *)
Definition list_pop {A} (l : list A) (i : Z) : outcome (list A) :=
  let n := Z.of_nat (length l) in
  let j := if i <? 0 then i + n else i in
  if (j <? 0) || (n <=? j) then Raise IndexError
  else Ok (delete (Z.to_nat j) l).

(** [l[-count:]] for an integer [count]. *)
Definition slice_last {A} (l : list A) (count : Z) : list A :=
  let n := Z.of_nat (length l) in
  let start := if 0 <? count then Z.max 0 (n - count)   (* -count < 0 *)
               else Z.min n (- count) in                (* -count >= 0 *)
  drop (Z.to_nat start) l.

(** [range(start, stop, step)] for a positive [step]. *)
Definition py_range (start stop step : Z) : list Z :=
  let n := if start <? stop then (stop - start + step - 1) / step else 0 in
  map (fun i => start + Z.of_nat i * step) (seq 0 (Z.to_nat n)).

(** ** core/comms.py *)

Module Comms.
Section MessageBus.
(** Messages are arbitrary payloads; callbacks are opaque callables.
    Invoking a callback is an effect outside the bus, so [publish]
    returns the calls it makes, in order. *)
Context {Msg Callback : Type}.

Record MessageBus : Type := mkBus {
  max_history : nat;
  subscribers : gmap string (list Callback);  (* defaultdict(list) *)
  messages : gmap string (list Msg);          (* defaultdict(deque(maxlen)) *)
}.

(** [MessageBus(max_history)] *)
Definition init (max_history : nat) : MessageBus :=
  mkBus max_history ∅ ∅.

(** [deque.append] on a deque with [maxlen]: the oldest entries are
    dropped so that at most [maxlen] remain. *)
Definition deque_append (maxlen : nat) (q : list Msg) (m : Msg) : list Msg :=
  let q' := q ++ [m] in
  drop (length q' - maxlen) q'.

(** [d[topic]] on a defaultdict whose factory yields the empty list. *)
Definition dd_get {V} (d : gmap string (list V)) (topic : string) : list V :=
  default [] (d !! topic).

Definition publish (b : MessageBus) (topic : string) (message : Msg)
  : MessageBus * list (Callback * Msg) :=
  let msgs := <[topic := deque_append (max_history b) (dd_get (messages b) topic) message]>
                (messages b) in
  let subs := dd_get (subscribers b) topic in
  (mkBus (max_history b) (<[topic := subs]> (subscribers b)) msgs,
   map (fun callback => (callback, message)) subs).

Definition subscribe (b : MessageBus) (topic : string) (callback : Callback)
  : MessageBus * Z :=
  let subs := dd_get (subscribers b) topic ++ [callback] in
  (mkBus (max_history b) (<[topic := subs]> (subscribers b)) (messages b),
   Z.of_nat (length subs) - 1).

Definition unsubscribe (b : MessageBus) (topic : string) (subscription_id : Z)
  : outcome MessageBus :=
  match subscribers b !! topic with
  | Some subs =>
      if subscription_id <? Z.of_nat (length subs) then
        subs' ← list_pop subs subscription_id;
        Ok (mkBus (max_history b) (<[topic := subs']> (subscribers b)) (messages b))
      else Ok b
  | None => Ok b
  end.

Definition get_messages (b : MessageBus) (topic : string) (count : option Z)
  : list Msg :=
  match messages b !! topic with
  | None => []
  | Some q =>
      match count with
      | None => q
      | Some c => slice_last q c
      end
  end.

Definition clear (b : MessageBus) : MessageBus :=
  mkBus (max_history b) (subscribers b) ((fun _ => []) <$> messages b).

(** [list(self.messages.keys())], as the set of topics it holds: the
    map does not record the order in which the dict received its keys, so
    the list comes in the map's key order and only its members are
    meaningful. *)
Definition get_topic_list (b : MessageBus) : list string :=
  (map_to_list (messages b)).*1.

(** The callbacks currently registered for [topic]. *)
Definition subscribers_of (b : MessageBus) (topic : string) : list Callback :=
  dd_get (subscribers b) topic.
End MessageBus.
Arguments MessageBus : clear implicits.
End Comms.

(** ** core/grid.py *)

Module GridM.
(** The per-cell entry [{'id': ..., 'type': ..., 'state': ...}]. *)
Record AgentInfo : Type := mkInfo {
  info_id : string;
  info_type : string;
  info_state : string;
}.

(** [self.grid] is a [size x size] numpy array of Python lists, indexed
    [grid[y, x]]: a list of rows, each a list of cells.  [self.agents]
    maps an agent id to [(position, agent_type, state)]. *)
Record Grid : Type := mkGrid {
  size : Z;
  grid : list (list (list AgentInfo));
  agents : gmap string (Pos * string * string);
}.

(** [np.zeros((size, size), dtype=object)] with every cell set to [[]];
    numpy rejects a negative dimension. *)
Definition empty_cells (size : Z) : list (list (list AgentInfo)) :=
  replicate (Z.to_nat size) (replicate (Z.to_nat size) []).

Definition init (size : Z) : outcome Grid :=
  if size <? 0 then Raise ValueError
  else Ok (mkGrid size (empty_cells size) ∅).

Definition in_bounds (g : Grid) (position : Pos) : bool :=
  (0 <=? position.1) && (position.1 <? size g) &&
  (0 <=? position.2) && (position.2 <? size g).

Definition add_agent (g : Grid) (agent_id : string) (position : Pos)
    (agent_type state : string) : Grid :=
  let '(x, y) := position in
  if in_bounds g position then
    let agent_info := mkInfo agent_id agent_type state in
    mkGrid (size g)
           (alter (alter (fun cell => cell ++ [agent_info]) (Z.to_nat x))
                  (Z.to_nat y) (grid g))
           (<[agent_id := (position, agent_type, state)]> (agents g))
  else g.

Definition get_agents_at (g : Grid) (position : Pos) : list AgentInfo :=
  let '(x, y) := position in
  if in_bounds g position then
    default [] (row ← grid g !! Z.to_nat y; row !! Z.to_nat x)
  else [].

Definition clear (g : Grid) : Grid :=
  mkGrid (size g) (empty_cells (size g)) ∅.

(** numpy index normalisation along an axis of length [n]: a negative
    index counts from the end, anything outside [-n, n) is an IndexError. *)
Definition axis_index (n : nat) (i : Z) : outcome nat :=
  let j := if i <? 0 then i + Z.of_nat n else i in
  if (j <? 0) || (Z.of_nat n <=? j) then Raise IndexError
  else Ok (Z.to_nat j).

(** The loop of [remove_agent] over the cell's list: pop the first entry
    whose ['id'] is [agent_id], then [break]. *)
Fixpoint pop_first (agent_id : string) (cell : list AgentInfo) : list AgentInfo :=
  match cell with
  | [] => []
  | agent :: rest =>
      if bool_decide (info_id agent = agent_id) then rest
      else agent :: pop_first agent_id rest
  end.

Definition remove_agent (g : Grid) (agent_id : string) : outcome Grid :=
  match agents g !! agent_id with
  | Some (position, _, _) =>
      let '(x, y) := position in
      r ← axis_index (length (grid g)) y;
      match grid g !! r with
      | Some row =>
          c ← axis_index (length row) x;
          Ok (mkGrid (size g)
                     (<[r := alter (pop_first agent_id) c row]> (grid g))
                     (delete agent_id (agents g)))
      | None => Raise IndexError
      end
  | None => Ok g
  end.
End GridM.

(** ** The [random] module

    The generator state is a tape of raw draws; every primitive consumes
    one raw draw per call to the underlying generator and maps it into its
    range, so each outcome the Python primitive can produce is produced by
    some tape.  An exhausted tape keeps yielding 0. *)

Module Random.
Definition Rng : Type := list N.

Definition draw (r : Rng) : N * Rng :=
  match r with
  | [] => (0%N, [])
  | k :: r' => (k, r')
  end.

(** [_randbelow(n)] for [n > 0]: an integer in [[0, n)]. *)
Definition randbelow (n : Z) (r : Rng) : Z * Rng :=
  let '(k, r') := draw r in (Z.of_N k mod n, r').

(** [random.random()]: a 53-bit integer divided by [2^53]. *)
Definition random (r : Rng) : Q * Rng :=
  let '(k, r') := draw r in
  (Qmake (Z.of_N k mod 2 ^ 53) (2 ^ 53)%positive, r').

(** [random.randint(a, b)]: ValueError on an empty range. *)
Definition randint (a b : Z) (r : Rng) : outcome (Z * Rng) :=
  if b <? a then Raise ValueError
  else let '(k, r') := randbelow (b - a + 1) r in Ok (a + k, r').

(** [random.choice(seq)] on the non-empty sequence [x :: l]:
    [seq[randbelow(len(seq))]]. *)
Definition choice_ne {A} (x : A) (l : list A) (r : Rng) : A * Rng :=
  let '(k, r') := randbelow (Z.of_nat (length (x :: l))) r in
  (default x ((x :: l) !! Z.to_nat k), r').

(** [random.choice(seq)]: IndexError on an empty sequence. *)
Definition choice {A} (l : list A) (r : Rng) : outcome (A * Rng) :=
  match l with
  | [] => Raise IndexError
  | x :: l' => Ok (choice_ne x l' r)
  end.

Definition swap {A} (i j : nat) (l : list A) : list A :=
  match l !! i, l !! j with
  | Some a, Some b => <[i := b]> (<[j := a]> l)
  | _, _ => l
  end.

(** [random.shuffle(x)]:
    [for i in reversed(range(1, len(x))): j = randbelow(i + 1); swap]. *)
Definition shuffle {A} (l : list A) (r : Rng) : list A * Rng :=
  fold_left
    (fun '(x, r) i =>
       let '(j, r') := randbelow (Z.of_nat i + 1) r in
       (swap i (Z.to_nat j) x, r'))
    (rev (seq 1 (length l - 1)))
    (l, r).

(** [x < y] on the rationals, as a boolean. *)
Definition Qltb (x y : Q) : bool := negb (Qle_bool y x).
End Random.

(** ** agents/traffic_light.py *)

Module TrafficLight.
Inductive TrafficLightState : Set := RED | YELLOW | GREEN.

Global Instance TrafficLightState_eq_dec : EqDecision TrafficLightState.
Proof. solve_decision. Defined.

(** [TrafficLightState.value] *)
Definition value (s : TrafficLightState) : string :=
  match s with
  | RED => "RED"
  | YELLOW => "YELLOW"
  | GREEN => "GREEN"
  end.

Record TrafficLightAgent : Type := mkLight {
  agent_id : string;
  position : Pos;
  state : TrafficLightState;
  timer : Z;
  red_duration : Z;
  yellow_duration : Z;
  green_duration : Z;
  vehicles_passed : Z;
  congestion_level : Z;
  direction : Z;   (* 0: North-South open, 1: East-West open *)
}.

Definition with_timer (t : Z) (l : TrafficLightAgent) : TrafficLightAgent :=
  mkLight (agent_id l) (position l) (state l) t (red_duration l)
          (yellow_duration l) (green_duration l) (vehicles_passed l)
          (congestion_level l) (direction l).

Definition with_green_duration (g : Z) (l : TrafficLightAgent) : TrafficLightAgent :=
  mkLight (agent_id l) (position l) (state l) (timer l) (red_duration l)
          (yellow_duration l) g (vehicles_passed l)
          (congestion_level l) (direction l).

(** [self.state = s; self.timer = 0] *)
Definition switch_to (s : TrafficLightState) (l : TrafficLightAgent) : TrafficLightAgent :=
  mkLight (agent_id l) (position l) s 0 (red_duration l)
          (yellow_duration l) (green_duration l) (vehicles_passed l)
          (congestion_level l) (direction l).

Definition with_direction (d : Z) (l : TrafficLightAgent) : TrafficLightAgent :=
  mkLight (agent_id l) (position l) (state l) (timer l) (red_duration l)
          (yellow_duration l) (green_duration l) (vehicles_passed l)
          (congestion_level l) d.

(** [TrafficLightAgent(agent_id, position, initial_state)]; a missing
    [initial_state] is drawn with [random.choice(list(TrafficLightState))]. *)
Definition init (agent_id : string) (position : Pos)
    (initial_state : option TrafficLightState) (rng : Random.Rng)
  : TrafficLightAgent * Random.Rng :=
  let '(s, rng') := match initial_state with
                    | Some s => (s, rng)
                    | None => Random.choice_ne RED [YELLOW; GREEN] rng
                    end in
  (mkLight agent_id position s 0 30 5 30 0 0 0, rng').

(** The [environment_data] dict of a traffic light; absent keys read as
    0 through [dict.get(key, 0)]. *)
Definition Env : Type := gmap string Z.

(** [_analyze_traffic].  The counts are integers, so the Python test
    [a > b * 1.5] is [2 * a > 3 * b]. *)
Definition _analyze_traffic (l : TrafficLightAgent) (environment_data : Env)
  : TrafficLightAgent :=
  let vehicles_ns := default 0 (environment_data !! "vehicles_ns") in
  let vehicles_ew := default 0 (environment_data !! "vehicles_ew") in
  if (3 * vehicles_ew <? 2 * vehicles_ns) && (direction l =? 1) then
    with_green_duration (Z.max 15 (green_duration l - 5)) l
  else if (3 * vehicles_ns <? 2 * vehicles_ew) && (direction l =? 0) then
    with_green_duration (Z.max 15 (green_duration l - 5)) l
  else
    with_green_duration (Z.min 45 (green_duration l + 1)) l.

(** Truthiness of [environment_data]: neither [None] nor an empty dict. *)
Definition truthy (environment_data : option Env) : option Env :=
  match environment_data with
  | Some e => if decide (e = ∅) then None else Some e
  | None => None
  end.

Definition step (l : TrafficLightAgent) (environment_data : option Env)
  : TrafficLightAgent :=
  let l := with_timer (timer l + 1) l in
  let l := match truthy environment_data with
           | Some e => _analyze_traffic l e
           | None => l
           end in
  match state l with
  | RED =>
      if red_duration l <=? timer l then
        with_direction (1 - direction l) (switch_to GREEN l)
      else l
  | YELLOW =>
      if yellow_duration l <=? timer l then switch_to RED l else l
  | GREEN =>
      if green_duration l <=? timer l then switch_to YELLOW l else l
  end.

(** The open axis reported by [get_state]. *)
Inductive Axis : Set := North_South | East_West.

Global Instance Axis_eq_dec : EqDecision Axis.
Proof. solve_decision. Defined.

Definition open_axis (l : TrafficLightAgent) : Axis :=
  if direction l =? 1 then East_West else North_South.

(** The dict returned by [get_state]: ['state'] is one of the three
    enum values and ['direction'] one of the two axis names, kept here
    as the enumerations they range over. *)
Record View : Type := mkView {
  view_id : string;
  view_position : Pos;
  view_state : TrafficLightState;
  view_direction : Axis;
  view_timer : Z;
  view_congestion_level : Z;
}.

Definition get_state (l : TrafficLightAgent) : View :=
  mkView (agent_id l) (position l) (state l) (open_axis l) (timer l)
         (congestion_level l).
End TrafficLight.

(** ** agents/vehicle.py *)

Module Vehicle.
Inductive VehicleState : Set := MOVING | WAITING | REROUTING | ARRIVED.

Global Instance VehicleState_eq_dec : EqDecision VehicleState.
Proof. solve_decision. Defined.

(** The state constants are the strings of the same name. *)
Definition state_name (s : VehicleState) : string :=
  match s with
  | MOVING => "MOVING"
  | WAITING => "WAITING"
  | REROUTING => "REROUTING"
  | ARRIVED => "ARRIVED"
  end.

Record VehicleAgent : Type := mkVehicle {
  agent_id : string;
  position : Pos;
  destination : Pos;
  grid_size : Z;
  state : VehicleState;
  path : list Pos;
  path_index : nat;
  waiting_time : Z;
  total_travel_time : Z;
  stops : Z;
  speed : Z;
}.

Definition with_position (p : Pos) (v : VehicleAgent) : VehicleAgent :=
  mkVehicle (agent_id v) p (destination v) (grid_size v) (state v) (path v)
            (path_index v) (waiting_time v) (total_travel_time v) (stops v) (speed v).

Definition with_state (s : VehicleState) (v : VehicleAgent) : VehicleAgent :=
  mkVehicle (agent_id v) (position v) (destination v) (grid_size v) s (path v)
            (path_index v) (waiting_time v) (total_travel_time v) (stops v) (speed v).

Definition with_path (p : list Pos) (v : VehicleAgent) : VehicleAgent :=
  mkVehicle (agent_id v) (position v) (destination v) (grid_size v) (state v) p
            (path_index v) (waiting_time v) (total_travel_time v) (stops v) (speed v).

Definition with_path_index (i : nat) (v : VehicleAgent) : VehicleAgent :=
  mkVehicle (agent_id v) (position v) (destination v) (grid_size v) (state v) (path v)
            i (waiting_time v) (total_travel_time v) (stops v) (speed v).

Definition with_waiting_time (w : Z) (v : VehicleAgent) : VehicleAgent :=
  mkVehicle (agent_id v) (position v) (destination v) (grid_size v) (state v) (path v)
            (path_index v) w (total_travel_time v) (stops v) (speed v).

Definition with_total_travel_time (t : Z) (v : VehicleAgent) : VehicleAgent :=
  mkVehicle (agent_id v) (position v) (destination v) (grid_size v) (state v) (path v)
            (path_index v) (waiting_time v) t (stops v) (speed v).

Definition with_stops (n : Z) (v : VehicleAgent) : VehicleAgent :=
  mkVehicle (agent_id v) (position v) (destination v) (grid_size v) (state v) (path v)
            (path_index v) (waiting_time v) (total_travel_time v) n (speed v).

(** The first [while] loop of [_calculate_simple_path]:
    [while current[0] != destination[0]: current = (current[0] + x_direction, current[1]); path.append(current)]. *)
Fixpoint walk_x (fuel : nat) (x_direction : Z) (destination current : Pos)
    (path : list Pos) : outcome (Pos * list Pos) :=
  if current.1 =? destination.1 then Ok (current, path)
  else match fuel with
       | O => OutOfFuel
       | S fuel' =>
           let current' := (current.1 + x_direction, current.2) in
           walk_x fuel' x_direction destination current' (path ++ [current'])
       end.

(** The second loop, along the y-axis. *)
Fixpoint walk_y (fuel : nat) (y_direction : Z) (destination current : Pos)
    (path : list Pos) : outcome (Pos * list Pos) :=
  if current.2 =? destination.2 then Ok (current, path)
  else match fuel with
       | O => OutOfFuel
       | S fuel' =>
           let current' := (current.1, current.2 + y_direction) in
           walk_y fuel' y_direction destination current' (path ++ [current'])
       end.

(** [_calculate_simple_path], each loop running on [fuel]. *)
Definition _calculate_simple_path (fuel : nat) (position destination : Pos)
  : outcome (list Pos) :=
  let path := [] in
  let current := position in
  let x_direction := if current.1 <? destination.1 then 1 else -1 in
  '(current, path) ← walk_x fuel x_direction destination current path;
  let y_direction := if current.2 <? destination.2 then 1 else -1 in
  '(current, path) ← walk_y fuel y_direction destination current path;
  Ok path.

(** [VehicleAgent(agent_id, start_position, destination, grid_size)] *)
Definition init (fuel : nat) (agent_id : string) (start_position destination : Pos)
    (grid_size : Z) : outcome VehicleAgent :=
  path ← _calculate_simple_path fuel start_position destination;
  Ok (mkVehicle agent_id start_position destination grid_size MOVING path 0 0 0 0 1).

(** An entry of [environment_data['congestion']]. *)
Record CongestionArea : Type := mkArea {
  area_position : Pos;
  area_level : Z;
}.

(** The [environment_data] dict of a vehicle; a key may be absent. *)
Record Env : Type := mkEnv {
  traffic_lights : option (list TrafficLight.View);
  congestion : option (list CongestionArea);
}.

Definition is_moving_north_south (v : VehicleAgent) : bool :=
  if (path_index v + 1 <? length (path v))%nat then
    match path v !! path_index v with
    | Some next_pos => next_pos.1 =? (position v).1
    | None => false
    end
  else false.

Definition is_red_for_us (v : VehicleAgent) (light : TrafficLight.View) : bool :=
  bool_decide (TrafficLight.view_state light = TrafficLight.RED)
  || bool_decide (TrafficLight.view_state light = TrafficLight.YELLOW)
  || (bool_decide (TrafficLight.view_direction light = TrafficLight.East_West)
      && is_moving_north_south v)
  || (bool_decide (TrafficLight.view_direction light = TrafficLight.North_South)
      && negb (is_moving_north_south v)).

(** The loop over [environment_data['traffic_lights']]; [Some v'] when
    the loop body executed [return]. *)
Fixpoint lights_loop (v : VehicleAgent) (lights : list TrafficLight.View)
  : option VehicleAgent :=
  match lights with
  | [] => None
  | light :: rest =>
      if pos_eqb (TrafficLight.view_position light) (position v)
         && is_red_for_us v light
      then Some (with_waiting_time (waiting_time v + 1) (with_state WAITING v))
      else lights_loop v rest
  end.

Definition cell_in_grid (grid_size : Z) (p : Pos) : bool :=
  (0 <=? p.1) && (p.1 <? grid_size) && (0 <=? p.2) && (p.2 <? grid_size).

(** [for _ in range(3)]: draw a neighbour, keep the first one in bounds. *)
Fixpoint try_detour (attempts : nat) (grid_size : Z) (current : Pos)
    (rng : Random.Rng) : option Pos * Random.Rng :=
  match attempts with
  | O => (None, rng)
  | S n =>
      let '((dx, dy), rng) :=
        Random.choice_ne (0, 1) [(1, 0); (0, -1); (-1, 0)] rng in
      let detour := (current.1 + dx, current.2 + dy) in
      if cell_in_grid grid_size detour then (Some detour, rng)
      else try_detour n grid_size current rng
  end.

(** The loop of [_recalculate_path] over [remaining_path]. *)
Fixpoint detour_loop (grid_size : Z) (remaining_path : list Pos)
    (current : Pos) (new_path : list Pos) (rng : Random.Rng)
  : list Pos * Random.Rng :=
  match remaining_path with
  | [] => (new_path, rng)
  | next_pos :: rest =>
      let '(u, rng) := Random.random rng in
      let '(new_path, rng) :=
        if Random.Qltb u (2 # 10) then
          match try_detour 3 grid_size current rng with
          | (Some detour, rng) => (new_path ++ [detour], rng)
          | (None, rng) => (new_path, rng)
          end
        else (new_path, rng) in
      detour_loop grid_size rest next_pos (new_path ++ [next_pos]) rng
  end.

Definition _recalculate_path (v : VehicleAgent) (rng : Random.Rng)
  : VehicleAgent * Random.Rng :=
  let remaining_path := drop (path_index v) (path v) in
  let '(new_path, rng) :=
    detour_loop (grid_size v) remaining_path (position v) [] rng in
  (with_path (take (path_index v) (path v) ++ new_path) v, rng).

(** The loop over [environment_data['congestion']]; the boolean tells
    whether the loop body executed [return]. *)
Fixpoint congestion_loop (v : VehicleAgent) (areas : list CongestionArea)
    (rng : Random.Rng) : bool * VehicleAgent * Random.Rng :=
  match areas with
  | [] => (false, v, rng)
  | area :: rest =>
      if pos_eqb (area_position area) (position v) && (7 <? area_level area) then
        let '(u, rng) := Random.random rng in
        if Random.Qltb u (3 # 10) then
          let '(v, rng) := _recalculate_path (with_state REROUTING v) rng in
          congestion_loop (with_state MOVING v) rest rng
        else (true, with_waiting_time (waiting_time v + 1) v, rng)
      else congestion_loop v rest rng
  end.

(** The tail of [step]: count a stop, then consume the next path cell. *)
Definition advance (v : VehicleAgent) : VehicleAgent :=
  let v := if decide (state v = WAITING) then with_stops (stops v + 1) v else v in
  let v := with_state MOVING v in
  match path v !! path_index v with
  | Some next =>
      let v := with_path_index (path_index v + 1) (with_position next v) in
      if pos_eqb (position v) (destination v) then with_state ARRIVED v else v
  | None => with_state ARRIVED v
  end.

Definition step (v : VehicleAgent) (environment_data : option Env)
    (rng : Random.Rng) : VehicleAgent * Random.Rng :=
  let v := with_total_travel_time (total_travel_time v + 1) v in
  if decide (state v = ARRIVED) then (v, rng)
  else
    match lights_loop v (default [] (environment_data ≫= traffic_lights)) with
    | Some v' => (v', rng)
    | None =>
        let '(returned, v, rng) :=
          congestion_loop v (default [] (environment_data ≫= congestion)) rng in
        if returned then (v, rng) else (advance v, rng)
    end.

(** The dict returned by [get_state].  The ['progress'] entry, a display
    string computed in floating point that no agent reads, is left out. *)
Record View : Type := mkView {
  view_id : string;
  view_position : Pos;
  view_destination : Pos;
  view_state : VehicleState;
  view_waiting_time : Z;
  view_total_travel_time : Z;
  view_stops : Z;
}.

Definition get_state (v : VehicleAgent) : View :=
  mkView (agent_id v) (position v) (destination v) (state v)
         (waiting_time v) (total_travel_time v) (stops v).
End Vehicle.

(** ** agents/drone.py *)

Module Drone.
Inductive DroneState : Set := PATROLLING | MONITORING | REPORTING | RETURNING.

Global Instance DroneState_eq_dec : EqDecision DroneState.
Proof. solve_decision. Defined.

Definition state_name (s : DroneState) : string :=
  match s with
  | PATROLLING => "PATROLLING"
  | MONITORING => "MONITORING"
  | REPORTING => "REPORTING"
  | RETURNING => "RETURNING"
  end.

(** The two dicts appended to [detected_anomalies], told apart by their
    ['type'] entry:
    [{'type': 'congestion', 'position', 'vehicles', 'severity'}] and
    [{'type': 'incident', 'position', 'vehicle_id', 'waiting_time'}]. *)
Inductive Anomaly : Type :=
  | Congestion (position : Pos) (vehicles : Z) (severity : Z)
  | Incident (position : Pos) (vehicle_id : string) (waiting_time : Z).

(** [battery] is a Python float that only ever holds [100 - k * 0.5]:
    dyadic values that floating point represents exactly, kept here as
    rationals in lowest terms. *)
Record DroneAgent : Type := mkDrone {
  agent_id : string;
  position : Pos;
  grid_size : Z;
  state : DroneState;
  patrol_area : Pos * Pos;
  speed : Z;
  battery : Q;
  battery_drain_rate : Q;
  waypoints : list Pos;
  current_waypoint_index : nat;
  detected_anomalies : list Anomaly;
  traffic_density_map : list (list Z);   (* numpy array, indexed [y, x] *)
}.

Definition with_position (p : Pos) (d : DroneAgent) : DroneAgent :=
  mkDrone (agent_id d) p (grid_size d) (state d) (patrol_area d) (speed d)
          (battery d) (battery_drain_rate d) (waypoints d)
          (current_waypoint_index d) (detected_anomalies d) (traffic_density_map d).

Definition with_state (s : DroneState) (d : DroneAgent) : DroneAgent :=
  mkDrone (agent_id d) (position d) (grid_size d) s (patrol_area d) (speed d)
          (battery d) (battery_drain_rate d) (waypoints d)
          (current_waypoint_index d) (detected_anomalies d) (traffic_density_map d).

Definition with_battery (b : Q) (d : DroneAgent) : DroneAgent :=
  mkDrone (agent_id d) (position d) (grid_size d) (state d) (patrol_area d) (speed d)
          b (battery_drain_rate d) (waypoints d)
          (current_waypoint_index d) (detected_anomalies d) (traffic_density_map d).

(** [self.waypoints = w; self.current_waypoint_index = i] *)
Definition with_route (w : list Pos) (i : nat) (d : DroneAgent) : DroneAgent :=
  mkDrone (agent_id d) (position d) (grid_size d) (state d) (patrol_area d) (speed d)
          (battery d) (battery_drain_rate d) w i
          (detected_anomalies d) (traffic_density_map d).

Definition with_detected_anomalies (a : list Anomaly) (d : DroneAgent) : DroneAgent :=
  mkDrone (agent_id d) (position d) (grid_size d) (state d) (patrol_area d) (speed d)
          (battery d) (battery_drain_rate d) (waypoints d)
          (current_waypoint_index d) a (traffic_density_map d).

Definition with_traffic_density_map (m : list (list Z)) (d : DroneAgent) : DroneAgent :=
  mkDrone (agent_id d) (position d) (grid_size d) (state d) (patrol_area d) (speed d)
          (battery d) (battery_drain_rate d) (waypoints d)
          (current_waypoint_index d) (detected_anomalies d) m.

(** numpy index normalisation along an axis of length [n]: a negative
    index counts from the end, anything outside [-n, n) is an IndexError. *)
Definition np_index (n : nat) (i : Z) : outcome nat :=
  let j := if i <? 0 then i + Z.of_nat n else i in
  if (j <? 0) || (Z.of_nat n <=? j) then Raise IndexError
  else Ok (Z.to_nat j).

(** [m[y, x] = f(m[y, x])] *)
Definition np_update (m : list (list Z)) (y x : Z) (f : Z -> Z)
  : outcome (list (list Z)) :=
  r ← np_index (length m) y;
  match m !! r with
  | Some row =>
      c ← np_index (length row) x;
      Ok (<[r := alter f c row]> m)
  | None => Raise IndexError
  end.

(** [for _ in range(n): x = randint(x_min, x_max); y = randint(y_min, y_max); waypoints.append((x, y))] *)
Fixpoint random_points (n : nat) (x_min y_min x_max y_max : Z)
    (waypoints : list Pos) (rng : Random.Rng)
  : outcome (list Pos * Random.Rng) :=
  match n with
  | O => Ok (waypoints, rng)
  | S n' =>
      '(x, rng) ← Random.randint x_min x_max rng;
      '(y, rng) ← Random.randint y_min y_max rng;
      random_points n' x_min y_min x_max y_max (waypoints ++ [(x, y)]) rng
  end.

(** [_generate_patrol_waypoints], for a drone at [position]. *)
Definition _generate_patrol_waypoints (patrol_area : Pos * Pos) (position : Pos)
    (rng : Random.Rng) : outcome (list Pos * Random.Rng) :=
  let '((x_min, y_min), (x_max, y_max)) := patrol_area in
  let corners := [(x_min, y_min); (x_max, y_min); (x_max, y_max); (x_min, y_max)] in
  let waypoints := corners in
  '(num_random_points, rng) ← Random.randint 3 6 rng;
  '(waypoints, rng) ← random_points (Z.to_nat num_random_points)
                         x_min y_min x_max y_max waypoints rng;
  let '(waypoints, rng) := Random.shuffle waypoints rng in
  Ok (waypoints ++ [position], rng).

(** [DroneAgent(agent_id, start_position, grid_size, patrol_area)];
    [np.zeros] rejects a negative dimension. *)
Definition init (agent_id : string) (start_position : Pos) (grid_size : Z)
    (patrol_area : option (Pos * Pos)) (rng : Random.Rng)
  : outcome (DroneAgent * Random.Rng) :=
  let patrol_area :=
    default ((0, 0), (grid_size - 1, grid_size - 1)) patrol_area in
  '(waypoints, rng) ← _generate_patrol_waypoints patrol_area start_position rng;
  if grid_size <? 0 then Raise ValueError
  else
    Ok (mkDrone agent_id start_position grid_size PATROLLING patrol_area 1
                100 (1 # 2) waypoints 0 []
                (replicate (Z.to_nat grid_size) (replicate (Z.to_nat grid_size) 0)),
        rng).

(** The first loop of [_monitor_traffic]: collect the vehicles within
    Manhattan distance 2 and count each one into the density cell. *)
Fixpoint nearby_loop (x y : Z) (vehicles nearby_vehicles : list Vehicle.View)
    (m : list (list Z)) : outcome (list Vehicle.View * list (list Z)) :=
  match vehicles with
  | [] => Ok (nearby_vehicles, m)
  | vehicle :: rest =>
      let '(v_x, v_y) := Vehicle.view_position vehicle in
      let manhattan_dist := Z.abs (x - v_x) + Z.abs (y - v_y) in
      if manhattan_dist <=? 2 then
        m ← np_update m y x (fun c => c + 1);
        nearby_loop x y rest (nearby_vehicles ++ [vehicle]) m
      else nearby_loop x y rest nearby_vehicles m
  end.

Definition report (a : Anomaly) (d : DroneAgent) : DroneAgent :=
  let d := with_state REPORTING d in
  let d := with_detected_anomalies (detected_anomalies d ++ [a]) d in
  with_state PATROLLING d.

(** The second loop of [_monitor_traffic], over [nearby_vehicles]. *)
Fixpoint incident_loop (nearby_vehicles : list Vehicle.View) (d : DroneAgent)
  : DroneAgent :=
  match nearby_vehicles with
  | [] => d
  | vehicle :: rest =>
      if bool_decide (Vehicle.view_state vehicle = Vehicle.WAITING)
         && (10 <? Vehicle.view_waiting_time vehicle)
      then
        incident_loop rest
          (report (Incident (Vehicle.view_position vehicle)
                            (Vehicle.view_id vehicle)
                            (Vehicle.view_waiting_time vehicle)) d)
      else incident_loop rest d
  end.

Definition _monitor_traffic (d : DroneAgent) (vehicles : list Vehicle.View)
  : outcome DroneAgent :=
  let '(x, y) := position d in
  m ← np_update (traffic_density_map d) y x (fun _ => 0);
  '(nearby_vehicles, m) ← nearby_loop x y vehicles [] m;
  let d := with_traffic_density_map m d in
  let count := Z.of_nat (length nearby_vehicles) in
  let d := if 3 <? count
           then report (Congestion (position d) count (Z.min 10 count)) d
           else d in
  Ok (incident_loop nearby_vehicles d).

(** [int(round(d / distance * speed))] for [speed = 1] and
    [distance = max(1, sqrt(d^2 + o^2))], where [o] is the offset on the
    other axis.  The quotient lies in [[-1, 1]] and rounds away from 0
    exactly when its magnitude exceeds 1/2, that is when
    [4 * d^2 > d^2 + o^2]; magnitude 1/2 would need [3 * d^2 = o^2], which
    no non-zero integers satisfy, and for coordinates below [2^20] the
    floating-point quotient stays on the same side of 1/2 as the exact
    one. *)
Definition unit_move (d o : Z) : Z :=
  if o * o <? 3 * d * d then Z.sgn d else 0.

Definition clamp (grid_size c : Z) : Z :=
  Z.max 0 (Z.min (grid_size - 1) c).

(** The last block of [step]: move towards the current waypoint. *)
Definition move (d : DroneAgent) (rng : Random.Rng)
  : outcome (DroneAgent * Random.Rng) :=
  match waypoints d !! current_waypoint_index d with
  | Some target =>
      let dx := target.1 - (position d).1 in
      let dy := target.2 - (position d).2 in
      let move_x := unit_move dx dy in
      let move_y := unit_move dy dx in
      let new_x := clamp (grid_size d) ((position d).1 + move_x) in
      let new_y := clamp (grid_size d) ((position d).2 + move_y) in
      let d := with_position (new_x, new_y) d in
      if (Z.abs ((position d).1 - target.1) <=? 1)
         && (Z.abs ((position d).2 - target.2) <=? 1) then
        let i := S (current_waypoint_index d) in
        if (length (waypoints d) <=? i)%nat then
          '(w, rng) ← _generate_patrol_waypoints (patrol_area d) (position d) rng;
          Ok (with_route w 0 d, rng)
        else Ok (with_route (waypoints d) i d, rng)
      else Ok (d, rng)
  | None => Ok (d, rng)
  end.

(** The [environment_data] dict of a drone; the key may be absent. *)
Record Env : Type := mkEnv {
  vehicles : option (list Vehicle.View);
}.

(** The battery bookkeeping at the head of [step]. *)
Definition drain (d : DroneAgent) : DroneAgent :=
  with_battery (Qred (battery d - battery_drain_rate d)) d.

Definition low_battery (d : DroneAgent) : DroneAgent :=
  if Random.Qltb (battery d) 20 && negb (bool_decide (state d = RETURNING)) then
    with_route [position d; (0, 0)] 0 (with_state RETURNING d)
  else d.

Definition recharge (d : DroneAgent) (rng : Random.Rng)
  : outcome (DroneAgent * Random.Rng) :=
  if bool_decide (state d = RETURNING) && pos_eqb (position d) (0, 0) then
    let d := with_state PATROLLING (with_battery 100 d) in
    '(w, rng) ← _generate_patrol_waypoints (patrol_area d) (position d) rng;
    Ok (with_route w 0 d, rng)
  else Ok (d, rng).

Definition step (d : DroneAgent) (environment_data : option Env)
    (rng : Random.Rng) : outcome (DroneAgent * Random.Rng) :=
  let d := drain d in
  let d := low_battery d in
  '(d, rng) ← recharge d rng;
  d ← match environment_data ≫= vehicles with
      | Some vs => _monitor_traffic d vs
      | None => Ok d
      end;
  move d rng.

(** The dict returned by [get_state]; the battery is kept as the number
    that the ['battery'] entry formats. *)
Record View : Type := mkView {
  view_id : string;
  view_position : Pos;
  view_state : DroneState;
  view_battery : Q;
  view_anomalies_detected : Z;
  view_current_waypoint : option Pos;
}.

Definition get_state (d : DroneAgent) : View :=
  mkView (agent_id d) (position d) (state d) (battery d)
         (Z.of_nat (length (detected_anomalies d)))
         (waypoints d !! current_waypoint_index d).
End Drone.

(** ** core/controller.py *)

Module Controller.
(** The payloads the controller publishes: the three
    [{"id": ..., "state": agent.get_state()}] updates, and the anomaly
    dicts drained from the drones. *)
Inductive Msg : Type :=
  | LightUpdate (id : string) (state : TrafficLight.View)
  | VehicleUpdate (id : string) (state : Vehicle.View)
  | DroneUpdate (id : string) (state : Drone.View)
  | AnomalyMsg (a : Drone.Anomaly).

(** [self.stats] *)
Record Stats : Type := mkStats {
  vehicles_arrived : Z;
  total_waiting_time : Z;
  total_travel_time : Z;
  anomalies_detected : Z;
  congestion_events : Z;
}.

Section Controller.
(** Subscriber callbacks belong to outside observers; the controller
    registers none and the calls a [publish] makes do not touch its
    state. *)
Context {Callback : Type}.

Record SimulationController : Type := mkController {
  grid : GridM.Grid;
  message_bus : Comms.MessageBus Msg Callback;
  verbose : bool;
  current_step : Z;
  traffic_lights : list TrafficLight.TrafficLightAgent;
  vehicles : list Vehicle.VehicleAgent;
  drones : list Drone.DroneAgent;
  stats : Stats;
}.

Definition Bus : Type := Comms.MessageBus Msg Callback.

(** [message_bus.publish(topic, message)], keeping the bus only. *)
Definition publish (b : Bus) (topic : string) (message : Msg) : Bus :=
  (Comms.publish b topic message).1.

(** *** Construction *)

(** The inner loop of [_create_traffic_lights]. *)
Definition create_lights_column (x : Z) (ys : list Z)
    (acc : list TrafficLight.TrafficLightAgent * Random.Rng)
  : list TrafficLight.TrafficLightAgent * Random.Rng :=
  fold_left
    (fun '(traffic_lights, rng) y =>
       let '(traffic_light, rng) :=
         TrafficLight.init
           ("TL-" +:+ pretty (Z.of_nat (length traffic_lights) + 1))
           (x, y) None rng in
       (traffic_lights ++ [traffic_light], rng))
    ys acc.

Definition _create_traffic_lights (grid_size : Z) (rng : Random.Rng)
  : list TrafficLight.TrafficLightAgent * Random.Rng :=
  let interval := Z.max 1 (grid_size / 3) in
  fold_left
    (fun acc x => create_lights_column x (py_range interval grid_size interval) acc)
    (py_range interval grid_size interval)
    ([], rng).

(** [while destination == start: destination = (randint(...), randint(...))] *)
Fixpoint pick_destination (fuel : nat) (grid_size : Z) (start destination : Pos)
    (rng : Random.Rng) : outcome (Pos * Random.Rng) :=
  if pos_eqb destination start then
    match fuel with
    | O => OutOfFuel
    | S fuel' =>
        '(x, rng) ← Random.randint 0 (grid_size - 1) rng;
        '(y, rng) ← Random.randint 0 (grid_size - 1) rng;
        pick_destination fuel' grid_size start (x, y) rng
    end
  else Ok (destination, rng).

(** The body of the loop of [_create_vehicles], for index [i]. *)
Definition create_vehicle (fuel : nat) (grid_size : Z) (i : Z) (rng : Random.Rng)
  : outcome (Vehicle.VehicleAgent * Random.Rng) :=
  '(sx, rng) ← Random.randint 0 (grid_size - 1) rng;
  '(sy, rng) ← Random.randint 0 (grid_size - 1) rng;
  let start := (sx, sy) in
  '(destination, rng) ← pick_destination fuel grid_size start start rng;
  vehicle ← Vehicle.init fuel ("V-" +:+ pretty (i + 1)) start destination grid_size;
  Ok (vehicle, rng).

(** [for i in ...: acc.append(body(i))], with exceptions and the
    generator threaded through. *)
Fixpoint create_loop {A} (body : Z -> Random.Rng -> outcome (A * Random.Rng))
    (indices : list Z) (acc : list A) (rng : Random.Rng)
  : outcome (list A * Random.Rng) :=
  match indices with
  | [] => Ok (acc, rng)
  | i :: rest =>
      '(a, rng) ← body i rng;
      create_loop body rest (acc ++ [a]) rng
  end.

Definition _create_vehicles (fuel : nat) (num_vehicles grid_size : Z)
    (rng : Random.Rng) : outcome (list Vehicle.VehicleAgent * Random.Rng) :=
  create_loop (create_vehicle fuel grid_size) (py_range 0 num_vehicles 1) [] rng.

(** The body of the loop of [_create_drones], for index [i]. *)
Definition create_drone (grid_size : Z) (i : Z) (rng : Random.Rng)
  : outcome (Drone.DroneAgent * Random.Rng) :=
  '(sx, rng) ← Random.randint 0 (grid_size - 1) rng;
  '(sy, rng) ← Random.randint 0 (grid_size - 1) rng;
  let start := (sx, sy) in
  let quadrant := i mod 4 in
  let left := (quadrant =? 0) || (quadrant =? 2) in
  let top := (quadrant =? 0) || (quadrant =? 1) in
  let x_min := if left then 0 else grid_size / 2 in
  let y_min := if top then 0 else grid_size / 2 in
  let x_max := if left then grid_size / 2 - 1 else grid_size - 1 in
  let y_max := if top then grid_size / 2 - 1 else grid_size - 1 in
  let patrol_area := ((x_min, y_min), (x_max, y_max)) in
  Drone.init ("D-" +:+ pretty (i + 1)) start grid_size (Some patrol_area) rng.

Definition _create_drones (num_drones grid_size : Z) (rng : Random.Rng)
  : outcome (list Drone.DroneAgent * Random.Rng) :=
  create_loop (create_drone grid_size) (py_range 0 num_drones 1) [] rng.

(** [SimulationController(grid_size, num_vehicles, num_drones, verbose)] *)
Definition init (fuel : nat) (grid_size num_vehicles num_drones : Z)
    (verbose : bool) (rng : Random.Rng)
  : outcome (SimulationController * Random.Rng) :=
  grid ← GridM.init grid_size;
  let message_bus := Comms.init 100 in
  let '(traffic_lights, rng) := _create_traffic_lights grid_size rng in
  '(vehicles, rng) ← _create_vehicles fuel num_vehicles grid_size rng;
  '(drones, rng) ← _create_drones num_drones grid_size rng;
  Ok (mkController grid message_bus verbose 0 traffic_lights vehicles drones
                   (mkStats 0 0 0 0 0),
      rng).

(** *** One tick *)

Definition with_bus (b : Bus) (c : SimulationController) : SimulationController :=
  mkController (grid c) b (verbose c) (current_step c) (traffic_lights c)
               (vehicles c) (drones c) (stats c).

Definition with_stats (s : Stats) (c : SimulationController) : SimulationController :=
  mkController (grid c) (message_bus c) (verbose c) (current_step c)
               (traffic_lights c) (vehicles c) (drones c) s.

Definition _get_environment_data_for_light (vehicles : list Vehicle.VehicleAgent)
    (light : TrafficLight.TrafficLightAgent) : TrafficLight.Env :=
  let '(x, y) := TrafficLight.position light in
  let '(vehicles_ns, vehicles_ew) :=
    fold_left
      (fun '(vehicles_ns, vehicles_ew) vehicle =>
         let '(v_x, v_y) := Vehicle.position vehicle in
         let manhattan_dist := Z.abs (x - v_x) + Z.abs (y - v_y) in
         if manhattan_dist <=? 2 then
           if Vehicle.is_moving_north_south vehicle
           then (vehicles_ns + 1, vehicles_ew)
           else (vehicles_ns, vehicles_ew + 1)
         else (vehicles_ns, vehicles_ew))
      vehicles (0, 0) in
  <["vehicles_ns" := vehicles_ns]> (<["vehicles_ew" := vehicles_ew]> ∅).

(** The loop of [_update_traffic_lights]. *)
Fixpoint lights_loop (vehicles : list Vehicle.VehicleAgent)
    (todo done : list TrafficLight.TrafficLightAgent) (bus : Bus)
  : list TrafficLight.TrafficLightAgent * Bus :=
  match todo with
  | [] => (done, bus)
  | light :: rest =>
      let environment_data := _get_environment_data_for_light vehicles light in
      let light := TrafficLight.step light (Some environment_data) in
      let bus := publish bus "traffic_light_update"
                   (LightUpdate (TrafficLight.agent_id light)
                                (TrafficLight.get_state light)) in
      lights_loop vehicles rest (done ++ [light]) bus
  end.

Definition _update_traffic_lights (c : SimulationController) : SimulationController :=
  let '(lights, bus) :=
    lights_loop (vehicles c) (traffic_lights c) [] (message_bus c) in
  mkController (grid c) bus (verbose c) (current_step c) lights
               (vehicles c) (drones c) (stats c).

(** ['type'] and the entries the vehicle view copies from an anomaly
    message: [{'position': msg.get('position'), 'level': msg.get('severity', 0)}]
    for the messages whose type is ['congestion']. *)
Definition congestion_area (msg : Msg) : option Vehicle.CongestionArea :=
  match msg with
  | AnomalyMsg (Drone.Congestion position _ severity) =>
      Some (Vehicle.mkArea position severity)
  | _ => None
  end.

Definition _get_environment_data_for_vehicle
    (traffic_lights : list TrafficLight.TrafficLightAgent) (bus : Bus)
    (vehicle : Vehicle.VehicleAgent) : Vehicle.Env :=
  let nearby_lights :=
    omap (fun light =>
            if manhattan (TrafficLight.position light) (Vehicle.position vehicle) <=? 1
            then Some (TrafficLight.get_state light) else None)
         traffic_lights in
  let messages := Comms.get_messages bus "anomaly_detected" None in
  let congestion_areas := omap congestion_area messages in
  Vehicle.mkEnv (Some nearby_lights) (Some congestion_areas).

(** The loop of [_update_vehicles].  Besides the updated roster, bus and
    generator it returns [calls]: for every [vehicle.step(environment_data)]
    it makes, in order, the vehicle's id and the environment handed over. *)
Fixpoint vehicles_loop (traffic_lights : list TrafficLight.TrafficLightAgent)
    (todo done : list Vehicle.VehicleAgent) (bus : Bus) (rng : Random.Rng)
    (calls : list (string * Vehicle.Env))
  : list Vehicle.VehicleAgent * Bus * Random.Rng * list (string * Vehicle.Env) :=
  match todo with
  | [] => (done, bus, rng, calls)
  | vehicle :: rest =>
      if decide (Vehicle.state vehicle = Vehicle.ARRIVED) then
        vehicles_loop traffic_lights rest (done ++ [vehicle]) bus rng calls
      else
        let environment_data :=
          _get_environment_data_for_vehicle traffic_lights bus vehicle in
        let calls := calls ++ [(Vehicle.agent_id vehicle, environment_data)] in
        let '(vehicle, rng) := Vehicle.step vehicle (Some environment_data) rng in
        let bus := publish bus "vehicle_update"
                     (VehicleUpdate (Vehicle.agent_id vehicle)
                                    (Vehicle.get_state vehicle)) in
        vehicles_loop traffic_lights rest (done ++ [vehicle]) bus rng calls
  end.

Definition _update_vehicles (c : SimulationController) (rng : Random.Rng)
  : SimulationController * Random.Rng * list (string * Vehicle.Env) :=
  let '(vehicles, bus, rng, calls) :=
    vehicles_loop (traffic_lights c) (vehicles c) [] (message_bus c) rng [] in
  (mkController (grid c) bus (verbose c) (current_step c) (traffic_lights c)
                vehicles (drones c) (stats c),
   rng, calls).

Definition _get_environment_data_for_drone (vehicles : list Vehicle.VehicleAgent)
  : Drone.Env :=
  Drone.mkEnv
    (Some (omap (fun vehicle =>
                   if decide (Vehicle.state vehicle = Vehicle.ARRIVED) then None
                   else Some (Vehicle.get_state vehicle))
                vehicles)).

(** The loop of [_update_drones]. *)
Fixpoint drones_loop (vehicles : list Vehicle.VehicleAgent)
    (todo done : list Drone.DroneAgent) (bus : Bus) (rng : Random.Rng)
  : outcome (list Drone.DroneAgent * Bus * Random.Rng) :=
  match todo with
  | [] => Ok (done, bus, rng)
  | drone :: rest =>
      let environment_data := _get_environment_data_for_drone vehicles in
      '(drone, rng) ← Drone.step drone (Some environment_data) rng;
      let bus := fold_left
                   (fun bus anomaly => publish bus "anomaly_detected" (AnomalyMsg anomaly))
                   (Drone.detected_anomalies drone) bus in
      let drone := Drone.with_detected_anomalies [] drone in
      let bus := publish bus "drone_update"
                   (DroneUpdate (Drone.agent_id drone) (Drone.get_state drone)) in
      drones_loop vehicles rest (done ++ [drone]) bus rng
  end.

Definition _update_drones (c : SimulationController) (rng : Random.Rng)
  : outcome (SimulationController * Random.Rng) :=
  '(drones, bus, rng) ← drones_loop (vehicles c) (drones c) [] (message_bus c) rng;
  Ok (mkController (grid c) bus (verbose c) (current_step c) (traffic_lights c)
                   (vehicles c) drones (stats c),
      rng).

Definition count_anomaly (s : Stats) (msg : Msg) : Stats :=
  match msg with
  | AnomalyMsg (Drone.Congestion _ _ _) =>
      mkStats (vehicles_arrived s) (total_waiting_time s) (total_travel_time s)
              (anomalies_detected s) (congestion_events s + 1)
  | AnomalyMsg (Drone.Incident _ _ _) =>
      mkStats (vehicles_arrived s) (total_waiting_time s) (total_travel_time s)
              (anomalies_detected s + 1) (congestion_events s)
  | _ => s
  end.

(** [_process_communications]; also returns the anomaly messages it read. *)
Definition _process_communications (c : SimulationController)
  : SimulationController * list Msg :=
  let anomaly_messages :=
    Comms.get_messages (message_bus c) "anomaly_detected" None in
  let s := fold_left count_anomaly anomaly_messages (stats c) in
  (with_bus (Comms.clear (message_bus c)) (with_stats s c), anomaly_messages).

Definition _update_grid (c : SimulationController) : SimulationController :=
  let g := GridM.clear (grid c) in
  let g := fold_left
             (fun g light =>
                GridM.add_agent g (TrafficLight.agent_id light)
                  (TrafficLight.position light) "traffic_light"
                  (TrafficLight.value (TrafficLight.state light)))
             (traffic_lights c) g in
  let g := fold_left
             (fun g vehicle =>
                if decide (Vehicle.state vehicle = Vehicle.ARRIVED) then g
                else GridM.add_agent g (Vehicle.agent_id vehicle)
                       (Vehicle.position vehicle) "vehicle"
                       (Vehicle.state_name (Vehicle.state vehicle)))
             (vehicles c) g in
  let g := fold_left
             (fun g drone =>
                GridM.add_agent g (Drone.agent_id drone) (Drone.position drone)
                  "drone" (Drone.state_name (Drone.state drone)))
             (drones c) g in
  mkController g (message_bus c) (verbose c) (current_step c) (traffic_lights c)
               (vehicles c) (drones c) (stats c).

Definition _update_statistics (c : SimulationController) : SimulationController :=
  let '(arrived_count, waiting_time, travel_time) :=
    fold_left
      (fun '(arrived_count, waiting_time, travel_time) vehicle =>
         (if decide (Vehicle.state vehicle = Vehicle.ARRIVED)
          then arrived_count + 1 else arrived_count,
          waiting_time + Vehicle.waiting_time vehicle,
          travel_time + Vehicle.total_travel_time vehicle))
      (vehicles c) (0, 0, 0) in
  with_stats (mkStats arrived_count waiting_time travel_time
                      (anomalies_detected (stats c)) (congestion_events (stats c)))
             c.

(** What one tick exposes besides the new state: the environments handed
    to the vehicles and the anomaly messages drained from the bus. *)
Record Trace : Type := mkTrace {
  vehicle_calls : list (string * Vehicle.Env);
  drained : list Msg;
}.

(** [step], with its trace.  The final [grid.visualize()] only prints. *)
Definition step_traced (c : SimulationController) (rng : Random.Rng)
  : outcome (SimulationController * Random.Rng * Trace) :=
  let c := mkController (grid c) (message_bus c) (verbose c) (current_step c + 1)
                        (traffic_lights c) (vehicles c) (drones c) (stats c) in
  let c := _update_traffic_lights c in
  let '(c, rng, calls) := _update_vehicles c rng in
  '(c, rng) ← _update_drones c rng;
  let '(c, anomaly_messages) := _process_communications c in
  let c := _update_grid c in
  let c := _update_statistics c in
  Ok (c, rng, mkTrace calls anomaly_messages).

Definition step (c : SimulationController) (rng : Random.Rng)
  : outcome (SimulationController * Random.Rng) :=
  '(c, rng, _) ← step_traced c rng;
  Ok (c, rng).

(** [a / b] on Python ints: true division, ZeroDivisionError on [b = 0]. *)
Definition true_div (a b : Z) : outcome Q :=
  if b =? 0 then Raise ZeroDivisionError
  else Ok (Qred (inject_Z a / inject_Z b)).

(** The figures [print_stats] prints, before formatting. *)
Record Report : Type := mkReport {
  steps_completed : Z;
  arrived : Z;
  roster : Z;
  arrived_percent : Q;
  averages : option (Q * Q);   (* waiting, travel; printed only for a non-empty roster *)
  total_congestion_events : Z;
  total_anomalies : Z;
}.

Definition print_stats (c : SimulationController) : outcome Report :=
  let n := Z.of_nat (length (vehicles c)) in
  ratio ← true_div (vehicles_arrived (stats c)) n;
  averages ← (if 0 <? n then
                w ← true_div (total_waiting_time (stats c)) n;
                t ← true_div (total_travel_time (stats c)) n;
                Ok (Some (w, t))
              else Ok None);
  Ok (mkReport (current_step c) (vehicles_arrived (stats c)) n
               (Qred (ratio * 100)) averages
               (congestion_events (stats c)) (anomalies_detected (stats c))).
End Controller.
End Controller.

(** * Vocabulary of the properties *)

(** ** Traffic lights *)

Section LightTerms.
Import TrafficLight.

(** The configured duration of phase [s], as currently stored in [l]. *)
Definition phase_duration (l : TrafficLightAgent) (s : TrafficLightState) : Z :=
  match s with
  | RED => red_duration l
  | YELLOW => yellow_duration l
  | GREEN => green_duration l
  end.

(** The cycle RED -> GREEN -> YELLOW -> RED. *)
Definition next_phase (s : TrafficLightState) : TrafficLightState :=
  match s with
  | RED => GREEN
  | GREEN => YELLOW
  | YELLOW => RED
  end.

(** The ticks of a run, one environment per tick. *)
Definition run_light (envs : list (option Env)) (l : TrafficLightAgent)
  : TrafficLightAgent :=
  fold_left step envs l.

(** The environment the controller hands over: both counts present. *)
Definition counts (vehicles_ns vehicles_ew : Z) : option Env :=
  Some (<["vehicles_ns" := vehicles_ns]> (<["vehicles_ew" := vehicles_ew]> ∅)).

(** An environment cannot retune the duration of phase [s]: either the
    phase is not GREEN (only [green_duration] is ever tuned) or the
    environment is absent or empty, so that no tuning runs. *)
Definition steady (s : TrafficLightState) (env : option Env) : Prop :=
  s <> GREEN \/ truthy env = None.

(** What a transition out of phase [s] does to the open axis. *)
Definition direction_after (s : TrafficLightState) (d : Z) : Z :=
  match s with
  | RED => 1 - d
  | _ => d
  end.

(** The duration of the phase the run started in, as it stands after
    [k] ticks of the run: the configured value for RED and YELLOW, which
    nothing ever changes, and the value as tuned so far for GREEN. *)
Definition duration_at (envs : list (option Env)) (l : TrafficLightAgent) (k : nat) : Z :=
  phase_duration (run_light (take k envs) l) (state l).
End LightTerms.

(** ** Vehicles *)

Section VehicleTerms.
Import Vehicle.

(** The environment of a vehicle standing at a single light. *)
Definition at_light (light : TrafficLight.View) : option Env :=
  Some (mkEnv (Some [light]) (Some [])).

(** The environment with no light and no congestion record. *)
Definition open_road : option Env := Some (mkEnv (Some []) (Some [])).

(** The L-shaped Manhattan path in the words of the specification: all
    unit steps along x towards [destination.x] at the origin's y, then all
    unit steps along y towards [destination.y] at the destination's x. *)
Definition l_shaped_path (origin destination : Pos) : list Pos :=
  let sx := if origin.1 <? destination.1 then 1 else -1 in
  let sy := if origin.2 <? destination.2 then 1 else -1 in
  map (fun i => (origin.1 + sx * Z.of_nat i, origin.2))
      (seq 1 (Z.abs_nat (destination.1 - origin.1)))
  ++ map (fun j => (destination.1, origin.2 + sy * Z.of_nat j))
         (seq 1 (Z.abs_nat (destination.2 - origin.2))).

(** [n] ticks on an open road (no light, no congestion record). *)
Definition drive (n : nat) (v : VehicleAgent) (rng : Random.Rng)
  : VehicleAgent * Random.Rng :=
  Nat.iter n (fun '(v, rng) => step v open_road rng) (v, rng).
End VehicleTerms.

(** ** Drones *)

Section DroneTerms.
Import Drone.

(** A vehicle is proximate when it lies within Manhattan distance 2. *)
Definition proximate (p : Pos) (vehicle : Vehicle.View) : bool :=
  manhattan p (Vehicle.view_position vehicle) <=? 2.

(** A proximate vehicle is stuck when it is WAITING with
    [waiting_time > 10]. *)
Definition stuck (vehicle : Vehicle.View) : bool :=
  bool_decide (Vehicle.view_state vehicle = Vehicle.WAITING)
  && (10 <? Vehicle.view_waiting_time vehicle).

(** The INCIDENT record of a vehicle. *)
Definition incident_of (vehicle : Vehicle.View) : Anomaly :=
  Incident (Vehicle.view_position vehicle) (Vehicle.view_id vehicle)
           (Vehicle.view_waiting_time vehicle).

(** The anomalies a drone at [p] owes for the given vehicles: one
    CONGESTION record when more than three are proximate, then one
    INCIDENT record per stuck proximate vehicle. *)
Definition expected_anomalies (p : Pos) (vehicles : list Vehicle.View) : list Anomaly :=
  let near := List.filter (proximate p) vehicles in
  let count := Z.of_nat (length near) in
  (if 3 <? count then [Congestion p count (Z.min 10 count)] else [])
  ++ map incident_of (List.filter stuck near).

(** The density map has a cell at row [y], column [x]. *)
Definition has_cell (m : list (list Z)) (y x : Z) : Prop :=
  exists r c row,
    np_index (length m) y = Ok r /\ m !! r = Some row
    /\ np_index (length row) x = Ok c.

(** A patrol box whose corners are in order. *)
Definition ordered (area : Pos * Pos) : Prop :=
  area.1.1 <= area.2.1 /\ area.1.2 <= area.2.2.

(** An [n x n] density map. *)
Definition square (n : Z) (m : list (list Z)) : Prop :=
  length m = Z.to_nat n /\ Forall (fun row => length row = Z.to_nat n) m.

(** A drone inside its grid, with a density map of the grid's size and an
    ordered patrol box. *)
Definition well_formed (d : DroneAgent) : Prop :=
  1 <= grid_size d
  /\ (0 <= (position d).1 < grid_size d /\ 0 <= (position d).2 < grid_size d)
  /\ square (grid_size d) (traffic_density_map d)
  /\ ordered (patrol_area d).

(** The drones a run can contain: freshly constructed, stepped with any
    environment and any random draws, or with their anomaly queue drained
    by the controller. *)
Inductive reachable : DroneAgent -> Prop :=
  | reach_init agent_id start grid_size area rng d rng' :
      init agent_id start grid_size area rng = Ok (d, rng') ->
      reachable d
  | reach_step d env rng d' rng' :
      reachable d ->
      step d env rng = Ok (d', rng') ->
      reachable d'
  | reach_drained d :
      reachable d ->
      reachable (with_detected_anomalies [] d).

(** [n] ticks with the same environment. *)
Fixpoint patrol (n : nat) (env : option Env) (d : DroneAgent) (rng : Random.Rng)
  : outcome (DroneAgent * Random.Rng) :=
  match n with
  | O => Ok (d, rng)
  | S n' => '(d, rng) ← patrol n' env d rng; step d env rng
  end.

(** No active vehicle anywhere. *)
Definition empty_streets : option Env := Some (mkEnv (Some [])).

(** Four moving vehicles on the cell [p]. *)
Definition crowd_at (p : Pos) : option Env :=
  Some (mkEnv (Some (map (fun i => Vehicle.mkView i p (0, 0) Vehicle.MOVING 0 1 0)
                         ["V-1"; "V-2"; "V-3"; "V-4"]))).

(** The drone [DroneAgent("D-1", (4,4), 5, [(2,2), (4,4)])] built on an
    exhausted random tape. *)
Definition sample_drone : DroneAgent :=
  mkDrone "D-1" (4, 4) 5 PATROLLING ((2, 2), (4, 4)) 1 100 (1 # 2)
          [(4, 2); (4, 4); (2, 4); (2, 2); (2, 2); (2, 2); (2, 2); (4, 4)] 0 []
          (replicate 5 (replicate 5 0)).
End DroneTerms.

(** ** The controller *)

Section ControllerTerms.
Import Controller.
Context {Callback : Type}.
Implicit Types (c : @SimulationController Callback) (b : @Bus Callback).

(** The messages currently retained on the anomaly topic. *)
Definition pending_anomalies b : list Msg :=
  Comms.get_messages b "anomaly_detected" None.

(** The controllers a run can contain. *)
Inductive running : @SimulationController Callback -> Prop :=
  | run_init fuel grid_size num_vehicles num_drones verbose rng c rng' :
      init fuel grid_size num_vehicles num_drones verbose rng = Ok (c, rng') ->
      running c
  | run_step c rng c' rng' t :
      running c ->
      step_traced c rng = Ok (c', rng', t) ->
      running c'.

(** [n] ticks in a row. *)
Fixpoint ticks (n : nat) c (rng : Random.Rng)
  : outcome (SimulationController * Random.Rng) :=
  match n with
  | O => Ok (c, rng)
  | S n' => '(c, rng) ← ticks n' c rng; step c rng
  end.
End ControllerTerms.

(** ** Further vocabulary *)

(** *** The message bus *)

Section BusTerms.
Import Comms.
Context {Msg Callback : Type}.

(** [for m in ms: bus.publish(topic, m)], keeping the bus. *)
Definition publish_all (b : MessageBus Msg Callback) (topic : string)
    (ms : list Msg) : MessageBus Msg Callback :=
  fold_left (fun b m => (publish b topic m).1) ms b.
End BusTerms.

(** *** The grid *)

Section GridTerms.
Import GridM.

(** The cell array has the shape [size x size]. *)
Definition grid_ok (g : Grid) : Prop :=
  0 <= size g
  /\ length (grid g) = Z.to_nat (size g)
  /\ Forall (fun row => length row = Z.to_nat (size g)) (grid g).

(** A position inside the grid. *)
Definition in_grid (g : Grid) (p : Pos) : Prop :=
  0 <= p.1 < size g /\ 0 <= p.2 < size g.
End GridTerms.

(** *** Traffic lights *)

Section LightInvariants.
Import TrafficLight.

(** A light in a sound configuration: durations of at least one tick, a
    timer that is not negative, and a direction flag that is 0 or 1. *)
Definition light_ok (l : TrafficLightAgent) : Prop :=
  0 <= timer l
  /\ 1 <= red_duration l /\ 1 <= yellow_duration l /\ 1 <= green_duration l
  /\ (direction l = 0 \/ direction l = 1).
End LightInvariants.

(** *** Vehicles *)

Section VehicleRuns.
Import Vehicle.

(** A light stops the vehicle when it stands on the vehicle's cell and is
    red for it. *)
Definition blocks (v : VehicleAgent) (light : TrafficLight.View) : bool :=
  pos_eqb (TrafficLight.view_position light) (position v) && is_red_for_us v light.

(** A congestion record concerns the vehicle when it lies on the
    vehicle's cell with a level above 7. *)
Definition severe (v : VehicleAgent) (area : CongestionArea) : bool :=
  pos_eqb (area_position area) (position v) && (7 <? area_level area).

Definition lights_of (env : option Env) : list TrafficLight.View :=
  default [] (env ≫= traffic_lights).

Definition areas_of (env : option Env) : list CongestionArea :=
  default [] (env ≫= congestion).

(** The vehicle and every cell of its path lie in the grid. *)
Definition on_grid (v : VehicleAgent) : Prop :=
  cell_in_grid (grid_size v) (position v) = true
  /\ Forall (fun c => cell_in_grid (grid_size v) c = true) (path v).

(** One tick per environment of [envs]. *)
Definition travel (envs : list (option Env)) (v : VehicleAgent) (rng : Random.Rng)
  : VehicleAgent * Random.Rng :=
  fold_left (fun '(v, rng) env => step v env rng) envs (v, rng).

(** The cells [remaining] with at most one cell inserted before each of
    them: [detours] tells, cell by cell, which cell is inserted before it,
    if any. *)
Definition with_detours (detours : list (option Pos)) (remaining : list Pos)
  : list Pos :=
  concat (zip_with (fun detour c => match detour with
                                    | Some d => [d; c]
                                    | None => [c]
                                    end) detours remaining).
(** The vehicle after [k] ticks on an open road along [path]. *)
Definition en_route (agent_id : string) (origin destination : Pos) (grid_size : Z)
    (path : list Pos) (k : nat) : VehicleAgent :=
  mkVehicle agent_id (default origin ((origin :: path) !! k)) destination grid_size
            (if (k <? length path)%nat then MOVING else ARRIVED)
            path k 0 (Z.of_nat k) 0 1.

(** What a tick may change of a vehicle between [v] and [v']. *)
Definition ticked (waited : bool) (v v' : VehicleAgent) : Prop :=
  agent_id v' = agent_id v
  /\ destination v' = destination v
  /\ grid_size v' = grid_size v
  /\ speed v' = speed v
  /\ position v' = position v
  /\ path_index v' = path_index v
  /\ stops v' = stops v
  /\ total_travel_time v' = total_travel_time v
  /\ waiting_time v' = waiting_time v + (if waited then 1 else 0)
  /\ take (path_index v) (path v') = take (path_index v) (path v)
  /\ (length (path v) <= length (path v'))%nat
  /\ Forall (fun c => c ∈ path v \/ cell_in_grid (grid_size v) c = true) (path v')
  /\ (v' = v \/ state v' = MOVING \/ waited = true).
End VehicleRuns.

(** A vehicle at (1,1) bound for (3,1) on a 5x5 grid. *)
Definition sample_vehicle : Vehicle.VehicleAgent :=
  Vehicle.mkVehicle "V-1" (1, 1) (3, 1) 5 Vehicle.MOVING [(2, 1); (3, 1)] 0 0 0 0 1.

(** *** Drones *)

Section DroneGeometry.
Import Drone.

(** The cell [p] lies in the box [area], borders included. *)
Definition in_box (area : Pos * Pos) (p : Pos) : Prop :=
  area.1.1 <= p.1 <= area.2.1 /\ area.1.2 <= p.2 <= area.2.2.

(** The four corners of a patrol box, in the order the code lists them. *)
Definition corners (area : Pos * Pos) : list Pos :=
  [(area.1.1, area.1.2); (area.2.1, area.1.2); (area.2.1, area.2.2); (area.1.1, area.2.2)].

(** The drone is on its way home in this tick: it was RETURNING already,
    or the battery left after this tick's drain is below 20. *)
Definition homing (d : DroneAgent) : bool :=
  bool_decide (state d = RETURNING)
  || Random.Qltb (Qred (battery d - battery_drain_rate d)) 20.

(** The value of the density map at row [r], column [c]. *)
Definition cell (m : list (list Z)) (r c : nat) : option Z :=
  m !! r ≫= fun row => row !! c.

(** One tick per environment of [envs], as the controller runs a drone:
    every tick brings an environment of its own. *)
Fixpoint fly (envs : list (option Env)) (d : DroneAgent) (rng : Random.Rng)
  : outcome (DroneAgent * Random.Rng) :=
  match envs with
  | [] => Ok (d, rng)
  | env :: rest => '(d, rng) ← step d env rng; fly rest d rng
  end.
End DroneGeometry.

(** *** The controller *)

Section ControllerAccounts.
Import Controller.
Context {Callback : Type}.

(** The anomaly messages of the two kinds the controller counts. *)
Definition is_congestion (m : Msg) : bool :=
  match m with AnomalyMsg (Drone.Congestion _ _ _) => true | _ => false end.

Definition is_incident (m : Msg) : bool :=
  match m with AnomalyMsg (Drone.Incident _ _ _) => true | _ => false end.

(** The sum of a figure over the roster. *)
Definition total (f : Vehicle.VehicleAgent -> Z) (vs : list Vehicle.VehicleAgent) : Z :=
  foldr (fun v acc => f v + acc) 0 vs.

(** What a tick does to one vehicle of the roster, given the lights it
    is shown: nothing when it has ARRIVED, one [step] otherwise. *)
Definition vehicle_ticked (lights : list TrafficLight.TrafficLightAgent)
    (v v' : Vehicle.VehicleAgent) : Prop :=
  if decide (Vehicle.state v = Vehicle.ARRIVED) then v' = v
  else exists (b : @Bus Callback) r,
         v' = (Vehicle.step v (Some (_get_environment_data_for_vehicle lights b v)) r).1.

(** What a tick does to one drone, given the vehicles it is shown: one
    [step], after which its anomaly queue is emptied. *)
Definition drone_ticked (vs : list Vehicle.VehicleAgent)
    (d d' : Drone.DroneAgent) : Prop :=
  exists r d1 r',
    Drone.step d (Some (_get_environment_data_for_drone vs)) r = Ok (d1, r')
    /\ d' = Drone.with_detected_anomalies [] d1.

(** The grid entries of the three kinds of agents. *)
Definition light_info (l : TrafficLight.TrafficLightAgent) : GridM.AgentInfo :=
  GridM.mkInfo (TrafficLight.agent_id l) "traffic_light"
               (TrafficLight.value (TrafficLight.state l)).

Definition vehicle_info (v : Vehicle.VehicleAgent) : GridM.AgentInfo :=
  GridM.mkInfo (Vehicle.agent_id v) "vehicle" (Vehicle.state_name (Vehicle.state v)).

Definition drone_info (d : Drone.DroneAgent) : GridM.AgentInfo :=
  GridM.mkInfo (Drone.agent_id d) "drone" (Drone.state_name (Drone.state d)).
End ControllerAccounts.

(** A random tape for [SimulationController(2, 1, 1)]: one draw for the
    phase of the only light, then the vehicle's start (0,0), a first
    destination (0,0) that is redrawn, and the destination (1,1); the
    drone draws from the exhausted tape. *)
Definition small_tape : Random.Rng := [0; 0; 0; 0; 0; 1; 1]%N.

(** ** Sample runs *)

(** A random tape for [SimulationController(5, 4, 1)]: sixteen draws for
    the initial phases of the lights, then for each of the four vehicles
    the start (0,0) and the destination (0,4); every later draw is 0, which
    puts the drone at (0,0). *)
Definition crowded_tape : Random.Rng :=
  replicate 16 0%N ++ concat (replicate 4 [0; 0; 0; 4]%N).

(** * Properties *)

(** ** Positions *)

Lemma pos_eqb_eq (p q : Pos) : pos_eqb p q = true <-> p = q.
Proof.
  destruct p as [a b], q as [c d]; unfold pos_eqb; simpl.
  rewrite andb_true_iff, !Z.eqb_eq. split.
  - intros [-> ->]; reflexivity.
  - intros [= -> ->]; split; reflexivity.
Qed.

Lemma pos_eqb_refl (p : Pos) : pos_eqb p p = true.
Proof. apply pos_eqb_eq; reflexivity. Qed.

Lemma pos_eqb_neq (p q : Pos) : pos_eqb p q = false <-> p <> q.
Proof.
  rewrite <- pos_eqb_eq. destruct (pos_eqb p q); split; congruence.
Qed.

(** ** The grid *)

Section GridFacts.
Import GridM.

Lemma in_bounds_false (g : Grid) (x y : Z) :
  x < 0 \/ size g <= x \/ y < 0 \/ size g <= y ->
  in_bounds g (x, y) = false.
Proof.
  intros H. unfold in_bounds; simpl.
  destruct (Z.leb_spec 0 x), (Z.ltb_spec x (size g)),
           (Z.leb_spec 0 y), (Z.ltb_spec y (size g));
    simpl; try reflexivity; lia.
Qed.

(** C10. [add_agent] at a position with [x < 0], [x >= size], [y < 0] or
    [y >= size] returns the grid it was given: no cell's occupant list
    changes, the id index gains no entry, and nothing is raised (the
    function is total). *)
Theorem add_agent_out_of_bounds_noop
    (g : Grid) (agent_id : string) (x y : Z) (agent_type state : string) :
  x < 0 \/ x >= size g \/ y < 0 \/ y >= size g ->
  add_agent g agent_id (x, y) agent_type state = g
  /\ (forall p, get_agents_at (add_agent g agent_id (x, y) agent_type state) p
                = get_agents_at g p)
  /\ agents (add_agent g agent_id (x, y) agent_type state) = agents g.
Proof.
  intros H.
  assert (E : add_agent g agent_id (x, y) agent_type state = g).
  { unfold add_agent. rewrite in_bounds_false by lia. reflexivity. }
  rewrite E. auto.
Qed.

Lemma add_agent_out_of_bounds_noop_witness :
  let g := add_agent (mkGrid 5 (empty_cells 5) ∅) "V-1" (2, 3) "vehicle" "MOVING" in
  (5 < 0 \/ 5 >= size g \/ 2 < 0 \/ 2 >= size g)
  /\ add_agent g "V-2" (5, 2) "vehicle" "WAITING" = g.
Proof.
  intros g. split.
  - right; left. simpl. lia.
  - apply (add_agent_out_of_bounds_noop g "V-2" 5 2 "vehicle" "WAITING").
    right; left. simpl. lia.
Defined.
End GridFacts.

(** ** The message bus *)

Section BusFacts.
Import Comms.
Context {Msg Callback : Type}.
Implicit Types (b : MessageBus Msg Callback) (topic : string).

Lemma subscribers_of_subscribe b topic (cb : Callback) :
  subscribers_of (subscribe b topic cb).1 topic = subscribers_of b topic ++ [cb].
Proof.
  unfold subscribers_of, subscribe, dd_get; simpl.
  rewrite lookup_insert_eq. reflexivity.
Qed.

Lemma subscribe_handle b topic (cb : Callback) :
  (subscribe b topic cb).2 = Z.of_nat (length (subscribers_of b topic)).
Proof.
  unfold subscribers_of, subscribe; simpl. rewrite length_app; simpl. lia.
Qed.

Lemma list_pop_middle {A} (l1 l2 : list A) (x : A) :
  list_pop (l1 ++ x :: l2) (Z.of_nat (length l1)) = Ok (l1 ++ l2).
Proof.
  unfold list_pop. rewrite length_app; simpl.
  destruct (Z.ltb_spec (Z.of_nat (length l1)) 0); [lia|].
  destruct (Z.ltb_spec (Z.of_nat (length l1)) 0); [lia|].
  destruct (Z.leb_spec (Z.of_nat (length l1 + S (length l2))) (Z.of_nat (length l1)));
    [lia|]. simpl.
  rewrite Nat2Z.id. f_equal. apply delete_middle.
Qed.

(** Unsubscribing the index [length l1] from [l1 ++ x :: l2]. *)
Lemma unsubscribe_at b topic (l1 l2 : list Callback) (x : Callback) :
  subscribers b !! topic = Some (l1 ++ x :: l2) ->
  exists b', unsubscribe b topic (Z.of_nat (length l1)) = Ok b'
             /\ subscribers b' !! topic = Some (l1 ++ l2).
Proof.
  intros H. unfold unsubscribe. rewrite H.
  destruct (Z.ltb_spec (Z.of_nat (length l1)) (Z.of_nat (length (l1 ++ x :: l2))))
    as [_|Hge]; [|rewrite length_app in Hge; simpl in Hge; lia].
  rewrite list_pop_middle. simpl.
  eexists; split; [reflexivity|]. simpl. apply lookup_insert_eq.
Qed.

(** A handle not below the current length is ignored. *)
Lemma unsubscribe_ge b topic (l : list Callback) (h : Z) :
  subscribers b !! topic = Some l -> Z.of_nat (length l) <= h ->
  unsubscribe b topic h = Ok b.
Proof.
  intros H Hh. unfold unsubscribe. rewrite H.
  destruct (Z.ltb_spec h (Z.of_nat (length l))); [lia | reflexivity].
Qed.

(** Two subscribers [A] then [B] on a topic that already has [subs]:
    removing [A] by its handle shifts [B] one place down, so [B]'s handle
    no longer removes anything, while [A]'s spent handle now removes [B]. *)
Lemma handles_shift_after_removal b topic (A B : Callback) :
  let subs := subscribers_of b topic in
  let '(b1, hA) := subscribe b topic A in
  let '(b2, hB) := subscribe b1 topic B in
  exists b3 b4,
    unsubscribe b2 topic hA = Ok b3
    /\ subscribers_of b3 topic = subs ++ [B]
    /\ unsubscribe b3 topic hB = Ok b3
    /\ unsubscribe b3 topic hA = Ok b4
    /\ subscribers_of b4 topic = subs.
Proof.
  intros subs.
  pose proof (subscribers_of_subscribe b topic A) as HA.
  pose proof (subscribe_handle b topic A) as HhA.
  destruct (subscribe b topic A) as [b1 hA] eqn:E1; simpl in HA, HhA.
  pose proof (subscribers_of_subscribe b1 topic B) as HB.
  pose proof (subscribe_handle b1 topic B) as HhB.
  destruct (subscribe b1 topic B) as [b2 hB] eqn:E2; simpl in HB, HhB.
  fold subs in HA, HhA. rewrite HA in HB, HhB.
  assert (L2 : subscribers b2 !! topic = Some (subs ++ A :: [B])).
  { injection E2 as <- _. simpl. rewrite lookup_insert_eq.
    f_equal. change (dd_get (subscribers b1) topic) with (subscribers_of b1 topic).
    rewrite HA, <- app_assoc. reflexivity. }
  rewrite HhA.
  destruct (unsubscribe_at b2 topic subs [B] A L2) as (b3 & U3 & L3).
  destruct (unsubscribe_at b3 topic subs [] B L3) as (b4 & U4 & L4).
  exists b3, b4. repeat split.
  - exact U3.
  - unfold subscribers_of, dd_get. rewrite L3. reflexivity.
  - apply (unsubscribe_ge b3 topic (subs ++ [B])); [exact L3|].
    rewrite HhB, !length_app. simpl. lia.
  - exact U4.
  - unfold subscribers_of, dd_get. rewrite L4, app_nil_r. reflexivity.
Qed.
End BusFacts.

(** C2, at the bus [MessageBus()] with subscribers ["A"] then ["B"] on the
    topic ["events"]: [subscribe] hands out the positions 0 and 1; after
    [unsubscribe("events", 0)] the list is [["B"]]; [unsubscribe("events", 1)]
    with B's handle then removes nothing, and repeating
    [unsubscribe("events", 0)] with A's spent handle removes B. *)
Theorem unsubscribe_positional_handle_desync :
  let b0 : Comms.MessageBus unit string := Comms.init 100 in
  let '(b1, hA) := Comms.subscribe b0 "events" "A" in
  let '(b2, hB) := Comms.subscribe b1 "events" "B" in
  hA = 0 /\ hB = 1
  /\ exists b3 b4,
       Comms.unsubscribe b2 "events" hA = Ok b3
       /\ Comms.subscribers_of b3 "events" = ["B"]
       /\ Comms.unsubscribe b3 "events" hB = Ok b3
       /\ Comms.unsubscribe b3 "events" hA = Ok b4
       /\ Comms.subscribers_of b4 "events" = [].
Proof.
  pose proof (handles_shift_after_removal
                (Comms.init 100 : Comms.MessageBus unit string) "events" "A" "B") as H.
  cbv zeta in H |- *.
  destruct (Comms.subscribe (Comms.init 100) "events" "A") as [b1 hA] eqn:E1.
  destruct (Comms.subscribe b1 "events" "B") as [b2 hB] eqn:E2.
  assert (Hb1 : b1 = (Comms.subscribe (Comms.init 100) "events" "A").1)
    by (rewrite E1; reflexivity).
  assert (hA = 0) as ->.
  { apply (f_equal snd) in E1. vm_compute in E1. congruence. }
  assert (hB = 1) as ->.
  { rewrite Hb1 in E2. apply (f_equal snd) in E2. vm_compute in E2. congruence. }
  split; [reflexivity|]. split; [reflexivity|].
  exact H.
Qed.

(** ** Traffic lights *)

Section LightFacts.
Import TrafficLight.

(** One [step], whatever the environment: the phase changes exactly when
    the incremented timer has reached the phase's duration (as tuned in
    this very step), and then goes to the next phase with the timer at 0. *)
Lemma step_transition (l : TrafficLightAgent) (env : option Env) :
  let l' := step l env in
  red_duration l' = red_duration l
  /\ yellow_duration l' = yellow_duration l
  /\ if phase_duration l' (state l) <=? timer l + 1
     then state l' = next_phase (state l) /\ timer l' = 0
          /\ direction l' = direction_after (state l) (direction l)
     else state l' = state l /\ timer l' = timer l + 1
          /\ direction l' = direction l.
Proof.
  unfold step. destruct (truthy env) as [e|]; simpl.
  - unfold _analyze_traffic.
    destruct ((3 * default 0 (e !! "vehicles_ew") <? 2 * default 0 (e !! "vehicles_ns"))
              && (direction (with_timer (timer l + 1) l) =? 1));
      [|destruct ((3 * default 0 (e !! "vehicles_ns") <? 2 * default 0 (e !! "vehicles_ew"))
                  && (direction (with_timer (timer l + 1) l) =? 0))];
      destruct l as [i p s t r y g vp cl d]; destruct s; simpl;
      match goal with |- context [?a <=? ?b] => destruct (a <=? b) eqn:E end;
      simpl; rewrite ?E; auto.
  - destruct l as [i p s t r y g vp cl d]; destruct s; simpl;
      match goal with |- context [?a <=? ?b] => destruct (a <=? b) eqn:E end;
      simpl; rewrite ?E; auto.
Qed.

Lemma step_untuned_green (l : TrafficLightAgent) (env : option Env) :
  truthy env = None ->
  green_duration (step l env) = green_duration l.
Proof.
  intros H. unfold step. rewrite H.
  destruct l as [i p s t r y g vp cl d]; destruct s; simpl;
    match goal with |- context [?a <=? ?b] => destruct (a <=? b) end; reflexivity.
Qed.

Lemma step_steady_duration (l : TrafficLightAgent) (env : option Env) :
  steady (state l) env ->
  phase_duration (step l env) (state l) = phase_duration l (state l).
Proof.
  intros H. destruct (step_transition l env) as (Hr & Hy & _).
  destruct (state l) eqn:Es; simpl; auto.
  destruct H as [H|H]; [congruence|]. apply step_untuned_green, H.
Qed.

(** Until the duration has elapsed nothing changes but the timer. *)
Lemma run_light_before (envs : list (option Env)) (l : TrafficLightAgent) :
  timer l = 0 ->
  Forall (steady (state l)) envs ->
  Z.of_nat (length envs) < phase_duration l (state l) ->
  state (run_light envs l) = state l
  /\ timer (run_light envs l) = Z.of_nat (length envs)
  /\ direction (run_light envs l) = direction l
  /\ phase_duration (run_light envs l) (state l) = phase_duration l (state l).
Proof.
  intros Ht. induction envs as [|env envs IH] using rev_ind; intros Hs Hk.
  - simpl. auto.
  - apply Forall_app in Hs. destruct Hs as (Hs & Henv).
    apply Forall_inv in Henv. rewrite length_app in Hk. simpl in Hk.
    destruct IH as (Hst & Htm & Hd & Hdur); [exact Hs | lia |].
    unfold run_light in *. rewrite fold_left_app. simpl.
    set (l1 := fold_left step envs l) in *.
    pose proof (step_transition l1 env) as (_ & _ & H).
    pose proof (step_steady_duration l1 env) as HD. rewrite Hst in HD.
    specialize (HD Henv).
    cbv zeta in H. rewrite Hst, HD, Hdur, Htm in H.
    destruct (Z.leb_spec (phase_duration l (state l)) (Z.of_nat (length envs) + 1));
      [lia|].
    destruct H as (H1 & H2 & H3). rewrite length_app. simpl.
    repeat split; try congruence; lia.
Qed.

(** After exactly the duration the phase has changed. *)
Lemma run_light_at (envs : list (option Env)) (l : TrafficLightAgent) :
  timer l = 0 ->
  Forall (steady (state l)) envs ->
  Z.of_nat (length envs) = phase_duration l (state l) ->
  1 <= phase_duration l (state l) ->
  state (run_light envs l) = next_phase (state l)
  /\ timer (run_light envs l) = 0
  /\ direction (run_light envs l) = direction_after (state l) (direction l).
Proof.
  intros Ht Hs Hk HD.
  destruct envs as [|env envs _] using rev_ind; [simpl in Hk; lia|].
  apply Forall_app in Hs. destruct Hs as (Hs & Henv).
  apply Forall_inv in Henv. rewrite length_app in Hk. simpl in Hk.
  destruct (run_light_before envs l Ht Hs) as (Hst & Htm & Hd & Hdur); [lia|].
  unfold run_light in *. rewrite fold_left_app. simpl.
  set (l1 := fold_left step envs l) in *.
  pose proof (step_transition l1 env) as (_ & _ & H).
  pose proof (step_steady_duration l1 env) as HD1. rewrite Hst in HD1.
  specialize (HD1 Henv).
  cbv zeta in H. rewrite Hst, HD1, Hdur, Htm in H.
  destruct (Z.leb_spec (phase_duration l (state l)) (Z.of_nat (length envs) + 1));
    [|lia].
  destruct H as (H1 & H2 & H3). repeat split; congruence.
Qed.

(** As long as the ticks elapsed stay below the duration as it stands at
    each tick, nothing changes but the timer (and the tuned duration). *)
Lemma run_light_within (envs : list (option Env)) (l : TrafficLightAgent) :
  (forall k, (1 <= k <= length envs)%nat ->
     timer l + Z.of_nat k < duration_at envs l k) ->
  state (run_light envs l) = state l
  /\ timer (run_light envs l) = timer l + Z.of_nat (length envs)
  /\ direction (run_light envs l) = direction l.
Proof.
  induction envs as [|env envs IH] using rev_ind; intros H.
  - cbn. repeat split; lia.
  - destruct IH as (Hst & Htm & Hd).
    { intros k Hk. specialize (H k). rewrite length_app in H. cbn in H.
      unfold duration_at in *. rewrite take_app_le in H by lia. apply H. lia. }
    specialize (H (length (envs ++ [env]))). unfold duration_at in H.
    rewrite firstn_all in H. rewrite length_app in *. cbn [length] in *.
    specialize (H ltac:(lia)).
    unfold run_light in *. rewrite fold_left_app in *. cbn [fold_left] in *.
    set (l1 := fold_left step envs l) in *.
    pose proof (step_transition l1 env) as (_ & _ & T). cbv zeta in T.
    rewrite Hst, Htm in T.
    destruct (Z.leb_spec (phase_duration (step l1 env) (state l))
                         (timer l + Z.of_nat (length envs) + 1)); [lia|].
    destruct T as (T1 & T2 & T3). repeat split; try congruence. lia.
Qed.

(** At the first tick at which the ticks elapsed have reached the duration
    as it stands at that tick, the phase changes. *)
Lemma run_light_expiry (envs : list (option Env)) (env : option Env)
    (l : TrafficLightAgent) :
  (forall k, (1 <= k <= length envs)%nat ->
     timer l + Z.of_nat k < duration_at envs l k) ->
  duration_at (envs ++ [env]) l (S (length envs))
  <= timer l + Z.of_nat (length envs) + 1 ->
  state (run_light (envs ++ [env]) l) = next_phase (state l)
  /\ timer (run_light (envs ++ [env]) l) = 0
  /\ direction (run_light (envs ++ [env]) l) = direction_after (state l) (direction l).
Proof.
  intros H Hexp. destruct (run_light_within envs l H) as (Hst & Htm & Hd).
  unfold duration_at in Hexp.
  replace (S (length envs)) with (length (envs ++ [env])) in Hexp
    by (rewrite length_app; cbn; lia).
  rewrite firstn_all in Hexp.
  unfold run_light in *. rewrite fold_left_app in *. cbn [fold_left] in *.
  set (l1 := fold_left step envs l) in *.
  pose proof (step_transition l1 env) as (_ & _ & T). cbv zeta in T.
  rewrite Hst, Htm in T.
  destruct (Z.leb_spec (phase_duration (step l1 env) (state l))
                       (timer l + Z.of_nat (length envs) + 1)); [|lia].
  destruct T as (T1 & T2 & T3). repeat split; congruence.
Qed.

(** C6, as the code has it, in four parts.

    One tick, for every light and every environment: the red and yellow
    durations stay, and the phase changes if and only if the ticks elapsed
    in it, this one included, have reached its duration as it stands in
    this tick (for GREEN: as tuned in this very tick); a change goes to the
    next phase of the cycle RED -> GREEN -> YELLOW -> RED, puts the timer
    back to 0 and toggles the open axis exactly when the phase left is RED;
    without a change only the timer moves, by one.

    A run, for every light and every list of environments, adaptive tuning
    included: as long as at each tick the ticks elapsed are below the
    duration as it stands at that tick, the light is still in its phase,
    never leaving it earlier; and at the first tick at which they have
    reached it, the light is in the next phase with the timer at 0.

    A phase that nothing retunes (RED and YELLOW in any run, GREEN in a
    run without adaptive tuning), entered with timer 0 and a duration [D]
    of at least one tick: after fewer than [D] ticks the light is still in
    it, after exactly [D] ticks it is in the next phase.

    And a light created RED with the defaults 30/5/30 and never tuned is
    RED at tick 29, GREEN at tick 30, YELLOW at tick 60 and RED again at
    tick 65, its open axis having toggled once. *)
Theorem light_phase_durations (l : TrafficLightAgent) (envs : list (option Env)) :
  (forall env,
     let l' := step l env in
     red_duration l' = red_duration l
     /\ yellow_duration l' = yellow_duration l
     /\ (if phase_duration l' (state l) <=? timer l + 1
         then state l' = next_phase (state l) /\ timer l' = 0
              /\ direction l' = direction_after (state l) (direction l)
         else state l' = state l /\ timer l' = timer l + 1
              /\ direction l' = direction l)
     /\ (state l' <> state l -> timer l' = 0)
     /\ (direction l' = 1 - direction l /\ state l = RED /\ state l' = GREEN
         \/ direction l' = direction l /\ ~ (state l = RED /\ state l' = GREEN)))
  /\ ((forall k, (1 <= k <= length envs)%nat ->
         timer l + Z.of_nat k < duration_at envs l k) ->
      (state (run_light envs l) = state l
       /\ timer (run_light envs l) = timer l + Z.of_nat (length envs)
       /\ direction (run_light envs l) = direction l)
      /\ forall env,
           duration_at (envs ++ [env]) l (S (length envs))
           <= timer l + Z.of_nat (length envs) + 1 ->
           state (run_light (envs ++ [env]) l) = next_phase (state l)
           /\ timer (run_light (envs ++ [env]) l) = 0
           /\ direction (run_light (envs ++ [env]) l)
              = direction_after (state l) (direction l))
  /\ (timer l = 0 ->
      1 <= phase_duration l (state l) ->
      Forall (steady (state l)) envs ->
      (Z.of_nat (length envs) < phase_duration l (state l) ->
       state (run_light envs l) = state l
       /\ timer (run_light envs l) = Z.of_nat (length envs)
       /\ direction (run_light envs l) = direction l)
      /\ (Z.of_nat (length envs) = phase_duration l (state l) ->
          state (run_light envs l) = next_phase (state l)
          /\ timer (run_light envs l) = 0
          /\ direction (run_light envs l) = direction_after (state l) (direction l)))
  /\ (forall agent_id position rng,
        let l0 := (init agent_id position (Some RED) rng).1 in
        let at_tick n := run_light (replicate n None) l0 in
        state (at_tick 29%nat) = RED
        /\ state (at_tick 30%nat) = GREEN /\ timer (at_tick 30%nat) = 0
        /\ direction (at_tick 30%nat) = 1 - direction l0
        /\ state (at_tick 59%nat) = GREEN
        /\ state (at_tick 60%nat) = YELLOW
        /\ state (at_tick 64%nat) = YELLOW
        /\ state (at_tick 65%nat) = RED
        /\ direction (at_tick 65%nat) = 1 - direction l0).
Proof.
  split; [|split; [|split]].
  - intros env l'.
    pose proof (step_transition l env) as (Hr & Hy & H). fold l' in Hr, Hy, H.
    split; [exact Hr|]. split; [exact Hy|]. split; [exact H|].
    destruct (phase_duration l' (state l) <=? timer l + 1).
    + destruct H as (Hs & Ht & Hd). split; [intros _; exact Ht|].
      rewrite Hs, Hd. destruct (state l); cbn; [left | right | right]; auto;
        (split; [reflexivity | intros [? ?]; discriminate]).
    + destruct H as (Hs & Ht & Hd). split; [intros Hne; contradiction|].
      right. split; [exact Hd|]. rewrite Hs. intros [E1 E2]. congruence.
  - intros H. split; [exact (run_light_within envs l H)|].
    intros env Hexp. apply run_light_expiry; assumption.
  - intros Ht HD Hs. split.
    + intros Hk. destruct (run_light_before envs l Ht Hs Hk) as (? & ? & ? & _). auto.
    + intros Hk. apply run_light_at; assumption.
  - intros agent_id position rng. vm_compute. repeat split; reflexivity.
Qed.

(** The three run-level parts at work.  A RED phase of 30 ticks ends at
    tick 30 although every tick retunes the green duration; and the GREEN
    phase of a light that sees no vehicle for 24 ticks and then two
    east-west vehicles in every tick lasts through tick 27 and ends at tick
    28, the first tick at which the ticks elapsed have reached the green
    duration as tuned at that tick. *)
Lemma light_phase_durations_witness :
  let l := (init "TL-1" (1, 1) (Some RED) []).1 in
  let envs := replicate 30 (counts 3 0) in
  let g := (init "TL-1" (1, 1) (Some GREEN) []).1 in
  let tuned := replicate 24 (counts 0 0) ++ replicate 3 (counts 0 2) in
  (timer l = 0 /\ 1 <= phase_duration l (state l)
   /\ Forall (steady (state l)) envs
   /\ Z.of_nat (length envs) = phase_duration l (state l)
   /\ state (run_light envs l) = next_phase (state l))
  /\ ((forall k, (1 <= k <= length tuned)%nat ->
         timer g + Z.of_nat k < duration_at tuned g k)
      /\ duration_at (tuned ++ [counts 0 2]) g (S (length tuned))
         <= timer g + Z.of_nat (length tuned) + 1
      /\ state (run_light tuned g) = GREEN
      /\ state (run_light (tuned ++ [counts 0 2]) g) = YELLOW).
Proof.
  intros l envs g tuned. split.
  - assert (Ht : timer l = 0) by reflexivity.
    assert (HD : 1 <= phase_duration l (state l)) by (vm_compute; discriminate).
    assert (Hs : Forall (steady (state l)) envs).
    { apply Forall_forall. intros env _. left. vm_compute. discriminate. }
    assert (Hk : Z.of_nat (length envs) = phase_duration l (state l))
      by (vm_compute; reflexivity).
    split; [exact Ht|]. split; [exact HD|]. split; [exact Hs|]. split; [exact Hk|].
    exact (proj1 (proj2 (proj1 (proj2 (proj2 (light_phase_durations l envs)))
                           Ht HD Hs) Hk)).
  - assert (Hw : forall k, (1 <= k <= length tuned)%nat ->
                   timer g + Z.of_nat k < duration_at tuned g k).
    { intros k Hk. destruct k as [|k]; [lia|].
      do 27 (destruct k as [|k]; [vm_compute; reflexivity|]).
      cbn in Hk. lia. }
    assert (He : duration_at (tuned ++ [counts 0 2]) g (S (length tuned))
                 <= timer g + Z.of_nat (length tuned) + 1)
      by (vm_compute; discriminate).
    split; [exact Hw|]. split; [exact He|].
    pose proof (proj1 (proj2 (light_phase_durations g tuned)) Hw) as (Hin & Hout).
    split; [exact (proj1 Hin) | exact (proj1 (Hout (counts 0 2) He))].
Defined.

(** C6 as stated fails under adaptive tuning.  A light created GREEN with
    the defaults (green duration 30) sees no vehicle for 24 ticks, which
    relaxes its green duration to 45, and then two east-west vehicles
    against none north-south, which cuts it by 5 per tick.  It is still
    GREEN after 27 ticks and turns YELLOW at tick 28, when its green
    duration stands at 25: the phase lasted 28 ticks, which is neither the
    30 configured when it began, nor the 25 configured when it ended, nor
    any value the green duration held in between. *)
Lemma tuned_green_phase_overshoots :
  let l0 := (init "TL-1" (1, 1) (Some GREEN) []).1 in
  let envs := replicate 24 (counts 0 0) ++ replicate 4 (counts 0 2) in
  state l0 = GREEN /\ timer l0 = 0 /\ green_duration l0 = 30
  /\ length envs = 28%nat
  /\ (forall n, (n < 28)%nat -> state (run_light (take n envs) l0) = GREEN)
  /\ state (run_light envs l0) = YELLOW
  /\ green_duration (run_light (take 24 envs) l0) = 45
  /\ green_duration (run_light envs l0) = 25
  /\ (forall n, (n <= 28)%nat -> green_duration (run_light (take n envs) l0) <> 28).
Proof.
  intros l0 envs.
  split; [reflexivity|]. split; [reflexivity|]. split; [reflexivity|].
  split; [reflexivity|]. split; [|split; [|split; [|split]]].
  - intros n Hn.
    do 28 (destruct n as [|n]; [vm_compute; reflexivity|]). lia.
  - vm_compute. reflexivity.
  - vm_compute. reflexivity.
  - vm_compute. reflexivity.
  - intros n Hn.
    do 29 (destruct n as [|n]; [vm_compute; discriminate|]). lia.
Qed.
End LightFacts.

(** ** Vehicles *)

Section VehicleFacts.
Import Vehicle.

(** *** Travel-time bookkeeping *)

Lemma lights_loop_travel_time (v v' : VehicleAgent) (lights : list TrafficLight.View) :
  lights_loop v lights = Some v' ->
  total_travel_time v' = total_travel_time v.
Proof.
  induction lights as [|light rest IH]; simpl; [discriminate|].
  destruct (pos_eqb _ _ && is_red_for_us v light); [|exact IH].
  intros [= <-]. reflexivity.
Qed.

Lemma recalculate_path_travel_time (v : VehicleAgent) (rng : Random.Rng) :
  total_travel_time (_recalculate_path v rng).1 = total_travel_time v.
Proof.
  unfold _recalculate_path.
  destruct (detour_loop _ _ _ _ _) as [new_path rng']. reflexivity.
Qed.

Lemma congestion_loop_travel_time (areas : list CongestionArea) :
  forall (v : VehicleAgent) (rng : Random.Rng),
    total_travel_time (congestion_loop v areas rng).1.2 = total_travel_time v.
Proof.
  induction areas as [|area rest IH]; intros v rng; simpl; [reflexivity|].
  destruct (pos_eqb _ _ && (7 <? area_level area)); [|apply IH].
  destruct (Random.random rng) as [u rng1].
  destruct (Random.Qltb u (3 # 10)); [|reflexivity].
  pose proof (recalculate_path_travel_time (with_state REROUTING v) rng1) as H.
  destruct (_recalculate_path (with_state REROUTING v) rng1) as [v1 rng2].
  rewrite IH. simpl in *. exact H.
Qed.

Lemma advance_travel_time (v : VehicleAgent) :
  total_travel_time (advance v) = total_travel_time v.
Proof.
  unfold advance.
  destruct (decide (state v = WAITING)); simpl;
    (destruct (path v !! path_index v) as [next|]; simpl; [|reflexivity];
     destruct (pos_eqb next (destination v)); reflexivity).
Qed.

(** Every call of [step] adds exactly one to [total_travel_time]. *)
Lemma step_travel_time (v : VehicleAgent) (env : option Env) (rng : Random.Rng) :
  total_travel_time (step v env rng).1 = total_travel_time v + 1.
Proof.
  unfold step.
  set (v1 := with_total_travel_time (total_travel_time v + 1) v).
  assert (H1 : total_travel_time v1 = total_travel_time v + 1) by reflexivity.
  destruct (decide (state v1 = ARRIVED)); [exact H1|].
  destruct (lights_loop v1 _) as [v'|] eqn:EL.
  - simpl. rewrite (lights_loop_travel_time _ _ _ EL). exact H1.
  - pose proof (congestion_loop_travel_time (default [] (env ≫= congestion)) v1 rng) as HC.
    destruct (congestion_loop v1 _ rng) as [[returned v2] rng2]. simpl in HC.
    destruct returned; simpl; [|rewrite advance_travel_time]; congruence.
Qed.

(** C4, as the code has it.  A [step] made while [state = ARRIVED] leaves
    every field but [total_travel_time] as it was, adds one to
    [total_travel_time] and draws no random number; and every [step],
    whatever the state and whichever branch it takes (waiting at a light,
    congestion slowdown, rerouting, movement), adds exactly one to
    [total_travel_time]. *)
Theorem step_travel_time_bookkeeping
    (v : VehicleAgent) (env : option Env) (rng : Random.Rng) :
  step (with_state ARRIVED v) env rng
  = (with_total_travel_time (total_travel_time v + 1) (with_state ARRIVED v), rng)
  /\ total_travel_time (step v env rng).1 = total_travel_time v + 1.
Proof.
  split; [reflexivity | apply step_travel_time].
Qed.

(** C4 as stated fails: the vehicle created at (0,0) for (4,4) has
    ARRIVED after 8 ticks on an open road, and a further [step] does not
    leave it unchanged: its [total_travel_time] goes from 8 to 9. *)
Lemma arrived_step_changes_travel_time :
  let v := mkVehicle "V-1" (4, 4) (4, 4) 5 ARRIVED
             [(1, 0); (2, 0); (3, 0); (4, 0); (4, 1); (4, 2); (4, 3); (4, 4)]
             8 0 8 0 1 in
  (exists v0, init 4 "V-1" (0, 0) (4, 4) 5 = Ok v0 /\ (drive 8 v0 []).1 = v)
  /\ state v = ARRIVED
  /\ (step v open_road []).1 <> v
  /\ total_travel_time v = 8
  /\ total_travel_time (step v open_road []).1 = 9.
Proof.
  intros v. split; [|split; [reflexivity|]; split; [|split; reflexivity]].
  - eexists. split; vm_compute; reflexivity.
  - intros H. apply (f_equal total_travel_time) in H. vm_compute in H. discriminate.
Qed.

(** *** Light compliance *)

(** A single light at the vehicle's cell: the vehicle waits exactly when
    [is_red_for_us] holds. *)
Lemma lights_loop_single (v : VehicleAgent) (light : TrafficLight.View) :
  TrafficLight.view_position light = position v ->
  lights_loop v [light]
  = if is_red_for_us v light
    then Some (with_waiting_time (waiting_time v + 1) (with_state WAITING v))
    else None.
Proof.
  intros H. simpl. rewrite H, pos_eqb_refl. reflexivity.
Qed.

(** C5, on the last leg of a north-south trip.  The vehicle created at
    (2,0) for destination (2,2) moves to (2,1); its next path cell (2,2)
    has the same x, so its upcoming movement is north-south.  The light at
    (2,1) is GREEN with the north-south axis open.  The vehicle
    nevertheless stops: [is_moving_north_south] answers [False] because
    [path_index + 1 < len(path)] fails on the last path cell, and [step]
    sets WAITING, increments [waiting_time] and leaves the position. *)
Theorem green_light_on_last_leg_stops_vehicle :
  exists v0 v1 v2,
    init 2 "V-1" (2, 0) (2, 2) 5 = Ok v0
    /\ step v0 open_road [] = (v1, [])
    /\ position v1 = (2, 1)
    /\ state v1 = MOVING
    /\ path v1 !! path_index v1 = Some (2, 2)
    /\ is_moving_north_south v1 = false
    /\ let light := TrafficLight.get_state
                      (TrafficLight.init "TL-5" (2, 1) (Some TrafficLight.GREEN) []).1 in
       TrafficLight.view_position light = position v1
       /\ TrafficLight.view_state light = TrafficLight.GREEN
       /\ TrafficLight.view_direction light = TrafficLight.North_South
       /\ step v1 (at_light light) [] = (v2, [])
       /\ state v2 = WAITING
       /\ waiting_time v2 = waiting_time v1 + 1
       /\ position v2 = position v1
       /\ path_index v2 = path_index v1.
Proof.
  eexists _, _, _.
  split; [vm_compute; reflexivity|].
  split; [vm_compute; reflexivity|].
  vm_compute. repeat split; reflexivity.
Qed.

(** *** The precomputed path *)

Lemma map_seq_shift {A} (f : Z -> A) (c d : Z) (n : nat) :
  map (fun i => f (c + d + d * Z.of_nat i)) (seq 1 n)
  = map (fun i => f (c + d * Z.of_nat i)) (seq 2 n).
Proof.
  rewrite <- (seq_shift n 1), map_map.
  apply map_ext. intros i. f_equal. lia.
Qed.

Lemma walk_x_steps (n : nat) :
  forall (fuel : nat) (dir : Z) (destination current : Pos) (path : list Pos),
    (n <= fuel)%nat ->
    dir = 1 \/ dir = -1 ->
    destination.1 = current.1 + dir * Z.of_nat n ->
    walk_x fuel dir destination current path
    = Ok ((destination.1, current.2),
          path ++ map (fun i => (current.1 + dir * Z.of_nat i, current.2)) (seq 1 n)).
Proof.
  induction n as [|n IH]; intros fuel dir destination current path Hf Hd He.
  - assert (E : current.1 = destination.1) by lia.
    destruct fuel; simpl; rewrite E, Z.eqb_refl, app_nil_r;
      destruct current; simpl in *; subst; reflexivity.
  - destruct fuel as [|fuel]; [lia|]. simpl walk_x.
    destruct (Z.eqb_spec current.1 destination.1) as [E|_]; [lia|].
    rewrite (IH fuel dir destination (current.1 + dir, current.2)); simpl; try lia.
    do 2 f_equal. rewrite <- app_assoc. f_equal. simpl.
    rewrite Z.mul_1_r. f_equal.
    apply (map_seq_shift (fun x => (x, current.2))).
Qed.

Lemma walk_y_steps (n : nat) :
  forall (fuel : nat) (dir : Z) (destination current : Pos) (path : list Pos),
    (n <= fuel)%nat ->
    dir = 1 \/ dir = -1 ->
    destination.2 = current.2 + dir * Z.of_nat n ->
    walk_y fuel dir destination current path
    = Ok ((current.1, destination.2),
          path ++ map (fun j => (current.1, current.2 + dir * Z.of_nat j)) (seq 1 n)).
Proof.
  induction n as [|n IH]; intros fuel dir destination current path Hf Hd He.
  - assert (E : current.2 = destination.2) by lia.
    destruct fuel; simpl; rewrite E, Z.eqb_refl, app_nil_r;
      destruct current; simpl in *; subst; reflexivity.
  - destruct fuel as [|fuel]; [lia|]. simpl walk_y.
    destruct (Z.eqb_spec current.2 destination.2) as [E|_]; [lia|].
    rewrite (IH fuel dir destination (current.1, current.2 + dir)); simpl; try lia.
    do 2 f_equal. rewrite <- app_assoc. f_equal. simpl.
    rewrite Z.mul_1_r. f_equal.
    apply (map_seq_shift (fun y => (current.1, y))).
Qed.

(** With fuel for the longer leg, [_calculate_simple_path] returns, and
    returns the L-shaped path. *)
Lemma calculate_simple_path_l_shaped (fuel : nat) (origin destination : Pos) :
  (Z.abs_nat (destination.1 - origin.1) <= fuel)%nat ->
  (Z.abs_nat (destination.2 - origin.2) <= fuel)%nat ->
  _calculate_simple_path fuel origin destination
  = Ok (l_shaped_path origin destination).
Proof.
  intros Hx Hy. unfold _calculate_simple_path, l_shaped_path.
  rewrite (walk_x_steps (Z.abs_nat (destination.1 - origin.1))); try assumption.
  - simpl.
    rewrite (walk_y_steps (Z.abs_nat (destination.2 - origin.2))); try assumption.
    + reflexivity.
    + simpl. destruct (origin.2 <? destination.2); auto.
    + simpl. destruct (Z.ltb_spec origin.2 destination.2); lia.
  - destruct (origin.1 <? destination.1); auto.
  - destruct (Z.ltb_spec origin.1 destination.1); lia.
Qed.

(** C7. Given fuel for the longer leg, [_calculate_simple_path] returns the
    L-shaped Manhattan path from origin to destination: first all unit
    steps along x towards [destination.x], then all unit steps along y
    towards [destination.y]; it is a function of origin and destination
    alone.  Consequently the vehicle created at (0,0) for (4,4) on a 5x5
    grid, stepped with no lights and no congestion data, follows
    (1,0) ... (4,0), (4,1) ... (4,4): it has not ARRIVED after 7 ticks or
    fewer, and after exactly 8 ticks it is ARRIVED at (4,4) with
    [stops = 0]. *)
Theorem simple_path_is_l_shaped (fuel : nat) (origin destination : Pos) :
  (Z.abs_nat (destination.1 - origin.1) <= fuel)%nat ->
  (Z.abs_nat (destination.2 - origin.2) <= fuel)%nat ->
  _calculate_simple_path fuel origin destination
  = Ok (l_shaped_path origin destination)
  /\ (forall agent_id grid_size,
        exists v, init fuel agent_id origin destination grid_size = Ok v
                  /\ path v = l_shaped_path origin destination
                  /\ position v = origin /\ path_index v = 0%nat
                  /\ state v = MOVING)
  /\ (forall rng,
        exists v0,
          init 4 "V-1" (0, 0) (4, 4) 5 = Ok v0
          /\ path v0 = [(1, 0); (2, 0); (3, 0); (4, 0); (4, 1); (4, 2); (4, 3); (4, 4)]
          /\ (forall k, (k < 8)%nat -> state (drive k v0 rng).1 <> ARRIVED)
          /\ state (drive 8 v0 rng).1 = ARRIVED
          /\ position (drive 8 v0 rng).1 = (4, 4)
          /\ stops (drive 8 v0 rng).1 = 0
          /\ total_travel_time (drive 8 v0 rng).1 = 8).
Proof.
  intros Hx Hy.
  pose proof (calculate_simple_path_l_shaped fuel origin destination Hx Hy) as HP.
  split; [exact HP|]. split.
  - intros agent_id grid_size. unfold init. rewrite HP. simpl.
    eexists; split; [reflexivity|]. simpl. auto.
  - intros rng. eexists. split; [vm_compute; reflexivity|].
    split; [reflexivity|]. split.
    + intros k Hk.
      do 8 (destruct k as [|k]; [vm_compute; discriminate|]). lia.
    + vm_compute. auto.
Qed.

Lemma simple_path_is_l_shaped_witness :
  let origin : Pos := (0, 0) in
  let destination : Pos := (4, 4) in
  (Z.abs_nat (destination.1 - origin.1) <= 4)%nat
  /\ (Z.abs_nat (destination.2 - origin.2) <= 4)%nat
  /\ _calculate_simple_path 4 origin destination
     = Ok [(1, 0); (2, 0); (3, 0); (4, 0); (4, 1); (4, 2); (4, 3); (4, 4)].
Proof.
  intros origin destination.
  assert (Hx : (Z.abs_nat (destination.1 - origin.1) <= 4)%nat) by (vm_compute; lia).
  assert (Hy : (Z.abs_nat (destination.2 - origin.2) <= 4)%nat) by (vm_compute; lia).
  split; [exact Hx|]. split; [exact Hy|].
  exact (proj1 (simple_path_is_l_shaped 4 origin destination Hx Hy)).
Defined.
End VehicleFacts.

(** ** Drones *)

Section DroneFacts.
Import Drone.

(** *** Monitoring *)

Lemma np_update_has_cell (m : list (list Z)) (y x : Z) (f : Z -> Z) :
  has_cell m y x ->
  exists m', np_update m y x f = Ok m' /\ has_cell m' y x.
Proof.
  intros (r & c & row & Hr & Hrow & Hc).
  unfold np_update. rewrite Hr. simpl. rewrite Hrow, Hc. simpl.
  eexists; split; [reflexivity|].
  exists r, c, (alter f c row).
  rewrite length_insert, length_alter. repeat split; try assumption.
  apply list_lookup_insert_eq. eapply lookup_lt_Some; eassumption.
Qed.

Lemma nearby_loop_filter (x y : Z) (vehicles : list Vehicle.View) :
  forall (near : list Vehicle.View) (m : list (list Z)),
    has_cell m y x ->
    exists m',
      nearby_loop x y vehicles near m
      = Ok (near ++ List.filter (proximate (x, y)) vehicles, m').
Proof.
  induction vehicles as [|v rest IH]; intros near m Hm; simpl.
  - rewrite app_nil_r. eauto.
  - unfold proximate at 1, manhattan. simpl.
    destruct (Vehicle.view_position v) as [v_x v_y]. simpl.
    destruct (Z.abs (x - v_x) + Z.abs (y - v_y) <=? 2).
    + destruct (np_update_has_cell m y x (fun c => c + 1) Hm) as (m1 & -> & Hm1).
      simpl. destruct (IH (near ++ [v]) m1 Hm1) as (m' & ->).
      rewrite <- app_assoc. eauto.
    + apply IH, Hm.
Qed.

Lemma report_anomalies (a : Anomaly) (d : DroneAgent) :
  detected_anomalies (report a d) = detected_anomalies d ++ [a]
  /\ position (report a d) = position d.
Proof. split; reflexivity. Qed.

Lemma incident_loop_anomalies (near : list Vehicle.View) :
  forall d : DroneAgent,
    detected_anomalies (incident_loop near d)
    = detected_anomalies d ++ map incident_of (List.filter stuck near).
Proof.
  induction near as [|v rest IH]; intros d; simpl.
  - rewrite app_nil_r. reflexivity.
  - fold (stuck v). destruct (stuck v); simpl.
    + rewrite IH. simpl. rewrite <- app_assoc. reflexivity.
    + apply IH.
Qed.

(** [_monitor_traffic] returns, and appends exactly the expected records. *)
Lemma monitor_traffic_appends (d : DroneAgent) (vehicles : list Vehicle.View) :
  has_cell (traffic_density_map d) (position d).2 (position d).1 ->
  exists d',
    _monitor_traffic d vehicles = Ok d'
    /\ detected_anomalies d'
       = detected_anomalies d ++ expected_anomalies (position d) vehicles.
Proof.
  intros Hm. unfold _monitor_traffic, expected_anomalies.
  destruct (position d) as [x y] eqn:Hp. simpl in Hm.
  destruct (np_update_has_cell _ y x (fun _ => 0) Hm) as (m0 & -> & Hm0). simpl.
  destruct (nearby_loop_filter x y vehicles [] m0 Hm0) as (m1 & ->). simpl.
  eexists; split; [reflexivity|].
  rewrite incident_loop_anomalies.
  destruct (3 <? _); simpl; rewrite ?Hp, <- ?app_assoc; reflexivity.
Qed.

Lemma low_battery_frame (d : DroneAgent) :
  position (low_battery d) = position d
  /\ detected_anomalies (low_battery d) = detected_anomalies d
  /\ traffic_density_map (low_battery d) = traffic_density_map d
  /\ battery (low_battery d) = battery d
  /\ battery_drain_rate (low_battery d) = battery_drain_rate d.
Proof. unfold low_battery. destruct (_ && _); simpl; auto. Qed.

Lemma recharge_frame (d d1 : DroneAgent) (rng rng1 : Random.Rng) :
  recharge d rng = Ok (d1, rng1) ->
  position d1 = position d
  /\ detected_anomalies d1 = detected_anomalies d
  /\ traffic_density_map d1 = traffic_density_map d
  /\ battery_drain_rate d1 = battery_drain_rate d.
Proof.
  unfold recharge. destruct (_ && _).
  - destruct (_generate_patrol_waypoints _ _ _) as [[w r']| |]; simpl;
      [intros [= <- <-]; auto | discriminate | discriminate].
  - intros [= <- <-]; auto.
Qed.

(** The steps of [step] before monitoring leave position, anomaly queue
    and density map alone. *)
Lemma before_monitoring_frame (d d1 : DroneAgent) (rng rng1 : Random.Rng) :
  recharge (low_battery (drain d)) rng = Ok (d1, rng1) ->
  position d1 = position d
  /\ detected_anomalies d1 = detected_anomalies d
  /\ traffic_density_map d1 = traffic_density_map d.
Proof.
  intros H. apply recharge_frame in H. destruct H as (Hp & Ha & Hm & _).
  destruct (low_battery_frame (drain d)) as (Hp' & Ha' & Hm' & _).
  rewrite Hp, Ha, Hm, Hp', Ha', Hm'. auto.
Qed.

Lemma move_anomalies (d d' : DroneAgent) (rng rng' : Random.Rng) :
  move d rng = Ok (d', rng') ->
  detected_anomalies d' = detected_anomalies d /\ state d' = state d.
Proof.
  unfold move. destruct (waypoints d !! current_waypoint_index d) as [target|];
    [|intros [= <- <-]; auto].
  simpl. destruct (_ && _); [|intros [= <- <-]; auto].
  destruct (_ <=? _)%nat; [|intros [= <- <-]; auto].
  destruct (_generate_patrol_waypoints _ _ _) as [[w r']| |]; simpl;
    intros [= <- <-] || discriminate; auto.
Qed.

(** *** Well-formed drones never fail *)

Lemma np_index_in_range (n : nat) (i : Z) :
  0 <= i < Z.of_nat n -> np_index n i = Ok (Z.to_nat i).
Proof.
  intros H. unfold np_index.
  destruct (Z.ltb_spec i 0); [lia|].
  destruct (Z.ltb_spec i 0); [lia|].
  destruct (Z.leb_spec (Z.of_nat n) i); [lia|]. reflexivity.
Qed.

Lemma square_has_cell (n : Z) (m : list (list Z)) (y x : Z) :
  square n m -> 0 <= x < n -> 0 <= y < n -> has_cell m y x.
Proof.
  intros (Hl & Hrows) Hx Hy.
  destruct (lookup_lt_is_Some_2 m (Z.to_nat y)) as [row Hrow]; [lia|].
  exists (Z.to_nat y), (Z.to_nat x), row.
  pose proof (Forall_lookup_1 _ _ _ _ Hrows Hrow) as Hlen. simpl in Hlen.
  split; [apply np_index_in_range; lia|]. split; [exact Hrow|].
  apply np_index_in_range. lia.
Qed.

Lemma np_update_square (n : Z) (m m' : list (list Z)) (y x : Z) (f : Z -> Z) :
  np_update m y x f = Ok m' -> square n m -> square n m'.
Proof.
  unfold np_update. intros H (Hl & Hrows).
  destruct (np_index (length m) y) as [r| |]; simpl in H; try discriminate.
  destruct (m !! r) as [row|] eqn:Hrow; [|discriminate].
  destruct (np_index (length row) x) as [c| |]; simpl in H; try discriminate.
  injection H as <-. split.
  - rewrite length_insert. exact Hl.
  - apply Forall_insert; [exact Hrows|].
    rewrite length_alter. exact (Forall_lookup_1 _ _ _ _ Hrows Hrow).
Qed.

Lemma nearby_loop_square (n x y : Z) (vehicles : list Vehicle.View) :
  forall near near' m m',
    nearby_loop x y vehicles near m = Ok (near', m') ->
    square n m -> square n m'.
Proof.
  induction vehicles as [|v rest IH]; intros near near' m m'; simpl.
  - intros [= _ <-]. auto.
  - destruct (Vehicle.view_position v) as [v_x v_y].
    destruct (Z.abs (x - v_x) + Z.abs (y - v_y) <=? 2); [|apply IH].
    destruct (np_update m y x _) as [m1| |] eqn:E; simpl; try discriminate.
    intros H Hm. eapply IH; [exact H|]. eapply np_update_square; eassumption.
Qed.

Lemma incident_loop_shape (near : list Vehicle.View) :
  forall d : DroneAgent,
    grid_size (incident_loop near d) = grid_size d
    /\ patrol_area (incident_loop near d) = patrol_area d
    /\ traffic_density_map (incident_loop near d) = traffic_density_map d
    /\ position (incident_loop near d) = position d.
Proof.
  induction near as [|v rest IH]; intros d; simpl; [auto|].
  destruct (_ && _); [|apply IH].
  fold (incident_of v).
  destruct (IH (report (incident_of v) d)) as (-> & -> & -> & ->). auto.
Qed.

Lemma monitor_traffic_well_formed (d : DroneAgent) (vehicles : list Vehicle.View) :
  well_formed d ->
  exists d', _monitor_traffic d vehicles = Ok d' /\ well_formed d'.
Proof.
  intros (Hg & Hp & Hm & Ho).
  assert (Hc : has_cell (traffic_density_map d) (position d).2 (position d).1)
    by (eapply square_has_cell; [exact Hm | tauto | tauto]).
  unfold _monitor_traffic.
  destruct (position d) as [x y] eqn:Epos. simpl in Hc, Hp.
  destruct (np_update_has_cell _ y x (fun _ => 0) Hc) as (m0 & E0 & Hc0).
  rewrite E0. simpl.
  destruct (nearby_loop_filter x y vehicles [] m0 Hc0) as (m1 & E1).
  rewrite E1. simpl. eexists; split; [reflexivity|].
  assert (Hm1 : square (grid_size d) m1).
  { eapply nearby_loop_square; [exact E1|].
    eapply np_update_square; [exact E0 | exact Hm]. }
  set (dm := with_traffic_density_map m1 d).
  set (d1 := if 3 <? _ then _ else dm).
  destruct (incident_loop_shape (List.filter (proximate (x, y)) vehicles) d1)
    as (Eg & Ea & Et & Ep).
  assert (H1 : grid_size d1 = grid_size d /\ patrol_area d1 = patrol_area d
               /\ traffic_density_map d1 = m1 /\ position d1 = (x, y)).
  { subst d1. destruct (3 <? _); simpl; rewrite ?Epos; auto. }
  destruct H1 as (Eg1 & Ea1 & Et1 & Ep1).
  unfold well_formed. rewrite Eg, Ea, Et, Ep, Eg1, Ea1, Et1, Ep1. simpl. auto.
Qed.

Lemma randbelow_range (n : Z) (r : Random.Rng) :
  0 < n -> 0 <= (Random.randbelow n r).1 < n.
Proof.
  intros H. unfold Random.randbelow. destruct (Random.draw r) as [k r']. simpl.
  apply Z.mod_pos_bound. exact H.
Qed.

Lemma randint_range (a b : Z) (r : Random.Rng) :
  a <= b ->
  exists k r', Random.randint a b r = Ok (k, r') /\ a <= k <= b.
Proof.
  intros H. unfold Random.randint.
  destruct (Z.ltb_spec b a); [lia|].
  pose proof (randbelow_range (b - a + 1) r ltac:(lia)) as Hk.
  destruct (Random.randbelow (b - a + 1) r) as [k r']. simpl in Hk.
  exists (a + k), r'. split; [reflexivity | lia].
Qed.

Lemma random_points_returns (n : nat) (x_min y_min x_max y_max : Z) :
  x_min <= x_max -> y_min <= y_max ->
  forall waypoints rng,
    exists w rng', random_points n x_min y_min x_max y_max waypoints rng = Ok (w, rng').
Proof.
  intros Hx Hy. induction n as [|n IH]; intros waypoints rng; simpl.
  - eauto.
  - destruct (randint_range x_min x_max rng Hx) as (x & r1 & -> & _). simpl.
    destruct (randint_range y_min y_max r1 Hy) as (y & r2 & -> & _). simpl.
    apply IH.
Qed.

Lemma generate_patrol_waypoints_returns (area : Pos * Pos) (p : Pos) (rng : Random.Rng) :
  ordered area ->
  exists w rng', _generate_patrol_waypoints area p rng = Ok (w, rng').
Proof.
  destruct area as [[x_min y_min] [x_max y_max]]. intros (Hx & Hy). simpl in Hx, Hy.
  unfold _generate_patrol_waypoints.
  destruct (randint_range 3 6 rng ltac:(lia)) as (k & r1 & -> & _). simpl.
  destruct (random_points_returns (Z.to_nat k) x_min y_min x_max y_max Hx Hy
              [(x_min, y_min); (x_max, y_min); (x_max, y_max); (x_min, y_max)] r1)
    as (w & r2 & ->). simpl.
  destruct (Random.shuffle w r2) as [w' r3]. eauto.
Qed.

Lemma clamp_range (grid_size c : Z) :
  1 <= grid_size -> 0 <= clamp grid_size c < grid_size.
Proof. unfold clamp. lia. Qed.

Lemma move_well_formed (d : DroneAgent) (rng : Random.Rng) :
  well_formed d ->
  exists d' rng', move d rng = Ok (d', rng') /\ well_formed d'.
Proof.
  intros W. pose proof W as (Hg & Hp & Hm & Ho). unfold move.
  destruct (waypoints d !! current_waypoint_index d) as [target|]; [|eauto].
  cbv zeta.
  set (d1 := with_position _ d).
  assert (W1 : well_formed d1).
  { split; [exact Hg|]. split; [|split; [exact Hm | exact Ho]].
    simpl. split; apply clamp_range, Hg. }
  destruct (_ && _); [|eauto].
  destruct (_ <=? _)%nat; [|eexists _, _; split; [reflexivity | exact W1]].
  destruct (generate_patrol_waypoints_returns (patrol_area d1) (position d1) rng)
    as (w & r' & ->); [exact Ho|]. simpl.
  eexists _, _; split; [reflexivity | exact W1].
Qed.

Lemma recharge_well_formed (d : DroneAgent) (rng : Random.Rng) :
  well_formed d ->
  exists d' rng', recharge d rng = Ok (d', rng') /\ well_formed d'.
Proof.
  intros W. unfold recharge. destruct (_ && _); [|eauto].
  destruct (generate_patrol_waypoints_returns (patrol_area d) (position d) rng)
    as (w & r' & E); [apply W|].
  simpl. rewrite E. simpl. eexists _, _; split; [reflexivity | exact W].
Qed.

Lemma low_battery_well_formed (d : DroneAgent) :
  well_formed d -> well_formed (low_battery (drain d)).
Proof. intros W. unfold low_battery. destruct (_ && _); exact W. Qed.

(** A well-formed drone completes every [step], and stays well formed. *)
Lemma step_well_formed (d : DroneAgent) (env : option Env) (rng : Random.Rng) :
  well_formed d ->
  exists d' rng', step d env rng = Ok (d', rng') /\ well_formed d'.
Proof.
  intros W. unfold step.
  destruct (recharge_well_formed _ rng (low_battery_well_formed d W))
    as (d1 & r1 & -> & W1). simpl.
  assert (exists d2, match env ≫= vehicles with
                     | Some vs => _monitor_traffic d1 vs
                     | None => Ok d1
                     end = Ok d2 /\ well_formed d2) as (d2 & -> & W2).
  { destruct (env ≫= vehicles) as [vs|]; [|eauto].
    apply monitor_traffic_well_formed, W1. }
  simpl. apply move_well_formed, W2.
Qed.

Lemma init_well_formed agent_id (start : Pos) (grid_size : Z) (area : Pos * Pos)
    (rng : Random.Rng) :
  1 <= grid_size ->
  0 <= start.1 < grid_size -> 0 <= start.2 < grid_size ->
  ordered area ->
  exists d rng', init agent_id start grid_size (Some area) rng = Ok (d, rng')
                 /\ well_formed d.
Proof.
  intros Hg Hx Hy Ho. unfold init. simpl.
  destruct (generate_patrol_waypoints_returns area start rng Ho) as (w & r' & ->).
  simpl. destruct (Z.ltb_spec grid_size 0); [lia|].
  eexists _, _; split; [reflexivity|].
  repeat split; simpl; try tauto; try lia; try apply Ho.
  - rewrite length_replicate. reflexivity.
  - apply Forall_forall. intros row Hin. apply elem_of_replicate in Hin.
    destruct Hin as (-> & _). apply length_replicate.
Qed.

Lemma well_formed_has_cell (d : DroneAgent) :
  well_formed d ->
  has_cell (traffic_density_map d) (position d).2 (position d).1.
Proof.
  intros (_ & Hp & Hm & _). eapply square_has_cell; [exact Hm | tauto | tauto].
Qed.

(** C8. Take a well-formed drone (inside its grid, with a density map of
    the grid's size and an ordered patrol box, as every drone the
    controller creates) and the list of active vehicles.
    [_monitor_traffic] returns and appends to the anomaly queue exactly
    [expected_anomalies].  So a CONGESTION record is emitted if and only if
    the number of vehicles within Manhattan distance 2 exceeds 3, and then
    its severity is [min(10, count)]; and an INCIDENT record is emitted for
    a vehicle if and only if that vehicle is proximate, WAITING and has
    [waiting_time > 10].  The whole [step] returns as well and has appended
    exactly these records. *)
Theorem monitor_traffic_anomalies (d : DroneAgent) (vehicles : list Vehicle.View) :
  well_formed d ->
  let near := List.filter (proximate (position d)) vehicles in
  let count := Z.of_nat (length near) in
  exists d' new,
    _monitor_traffic d vehicles = Ok d'
    /\ detected_anomalies d' = detected_anomalies d ++ new
    /\ new = expected_anomalies (position d) vehicles
    /\ (forall p c s,
          In (Congestion p c s) new
          <-> 3 < count /\ p = position d /\ c = count /\ s = Z.min 10 count)
    /\ (forall a,
          (exists p i w, a = Incident p i w) ->
          In a new
          <-> exists v, In v near
                        /\ Vehicle.view_state v = Vehicle.WAITING
                        /\ 10 < Vehicle.view_waiting_time v
                        /\ a = incident_of v)
    /\ (forall rng,
          exists d2 rng2,
            step d (Some (mkEnv (Some vehicles))) rng = Ok (d2, rng2)
            /\ detected_anomalies d2 = detected_anomalies d ++ new).
Proof.
  intros W near count.
  pose proof (well_formed_has_cell d W) as Hm.
  destruct (monitor_traffic_appends d vehicles Hm) as (d' & Hrun & Happ).
  exists d', (expected_anomalies (position d) vehicles).
  split; [exact Hrun|]. split; [exact Happ|]. split; [reflexivity|].
  split; [|split].
  - intros p c s. unfold expected_anomalies. fold near. fold count.
    rewrite in_app_iff. split.
    + intros [H|H].
      * destruct (Z.ltb_spec 3 count); [|destruct H].
        destruct H as [[= <- <- <-]|[]]. auto.
      * apply in_map_iff in H. destruct H as (v & Hv & _). discriminate.
    + intros (Hc & -> & -> & ->). left.
      destruct (Z.ltb_spec 3 count); [left; reflexivity | lia].
  - intros a (p & i & w & ->). unfold expected_anomalies. fold near. fold count.
    rewrite in_app_iff, in_map_iff. split.
    + intros [H|(v & Hv & Hin)].
      * destruct (3 <? count); [destruct H as [H|[]]; discriminate | destruct H].
      * apply filter_In in Hin. destruct Hin as (Hin & Hs).
        unfold stuck in Hs. apply andb_true_iff in Hs. destruct Hs as (Hw & Ht).
        apply bool_decide_eq_true in Hw. apply Z.ltb_lt in Ht.
        exists v. auto.
    + intros (v & Hin & Hw & Ht & ->). right. exists v. split; [reflexivity|].
      apply filter_In. split; [exact Hin|].
      unfold stuck. apply andb_true_iff. split.
      * apply bool_decide_eq_true. exact Hw.
      * apply Z.ltb_lt. exact Ht.
  - intros rng.
    destruct (step_well_formed d (Some (mkEnv (Some vehicles))) rng W)
      as (d2 & rng2 & Hstep & _).
    exists d2, rng2. split; [exact Hstep|].
    unfold step in Hstep.
    destruct (recharge (low_battery (drain d)) rng) as [[d1 rng1]| |] eqn:E1;
      simpl in Hstep; try discriminate.
    destruct (before_monitoring_frame _ _ _ _ E1) as (Hp & Ha & Hmap).
    assert (Hm1 : has_cell (traffic_density_map d1) (position d1).2 (position d1).1)
      by (rewrite Hmap, Hp; exact Hm).
    destruct (monitor_traffic_appends d1 vehicles Hm1) as (d1' & E & Happ1).
    rewrite E in Hstep. simpl in Hstep.
    apply move_anomalies in Hstep. destruct Hstep as (-> & _).
    rewrite Happ1, Ha, Hp. reflexivity.
Qed.

Lemma monitor_traffic_anomalies_witness :
  let d := mkDrone "D-1" (1, 1) 5 PATROLLING ((0, 0), (1, 1)) 1 100 (1 # 2)
             [(0, 0); (1, 0); (1, 1); (0, 1); (1, 1)] 0 []
             (replicate 5 (replicate 5 0)) in
  let parked := Vehicle.mkView "V-1" (1, 2) (4, 2) Vehicle.WAITING 11 15 0 in
  well_formed d
  /\ exists d',
       _monitor_traffic d [parked; parked; parked; parked] = Ok d'
       /\ detected_anomalies d'
          = [Congestion (1, 1) 4 4; incident_of parked; incident_of parked;
             incident_of parked; incident_of parked].
Proof.
  intros d parked.
  assert (W : well_formed d).
  { split; [simpl; lia|]. split; [simpl; lia|]. split; [|split; simpl; lia].
    split; [reflexivity|]. simpl. repeat constructor. }
  split; [exact W|].
  destruct (monitor_traffic_anomalies d [parked; parked; parked; parked] W)
    as (d' & new & Hrun & Happ & Hnew & _).
  exists d'. split; [exact Hrun|]. rewrite Happ, Hnew. reflexivity.
Defined.

(** *** Battery and the return to base *)

Lemma nearby_loop_result (x y : Z) (vehicles : list Vehicle.View) :
  forall (near near' : list Vehicle.View) (m m' : list (list Z)),
    nearby_loop x y vehicles near m = Ok (near', m') ->
    near' = near ++ List.filter (proximate (x, y)) vehicles.
Proof.
  induction vehicles as [|v rest IH]; intros near near' m m'; simpl.
  - intros [= <- <-]. rewrite app_nil_r. reflexivity.
  - unfold proximate at 1, manhattan. simpl.
    destruct (Vehicle.view_position v) as [v_x v_y]. simpl.
    destruct (Z.abs (x - v_x) + Z.abs (y - v_y) <=? 2).
    + destruct (np_update m y x _) as [m1| |]; simpl; try discriminate.
      intros H. apply IH in H. rewrite <- app_assoc in H. exact H.
    + apply IH.
Qed.

Lemma incident_loop_quiet (near : list Vehicle.View) (d : DroneAgent) :
  List.filter stuck near = [] -> incident_loop near d = d.
Proof.
  revert d. induction near as [|v rest IH]; intros d; simpl; [reflexivity|].
  fold (stuck v). destruct (stuck v); [discriminate | apply IH].
Qed.

Lemma incident_loop_frame (near : list Vehicle.View) :
  forall d : DroneAgent,
    battery (incident_loop near d) = battery d
    /\ battery_drain_rate (incident_loop near d) = battery_drain_rate d
    /\ position (incident_loop near d) = position d.
Proof.
  induction near as [|v rest IH]; intros d; simpl; [auto|].
  destruct (_ && _); [|apply IH].
  fold (incident_of v).
  destruct (IH (report (incident_of v) d)) as (-> & -> & ->). auto.
Qed.

(** What [_monitor_traffic] leaves alone, and when it leaves the state
    alone. *)
Lemma monitor_traffic_frame (d d' : DroneAgent) (vehicles : list Vehicle.View) :
  _monitor_traffic d vehicles = Ok d' ->
  battery d' = battery d
  /\ battery_drain_rate d' = battery_drain_rate d
  /\ position d' = position d
  /\ detected_anomalies d'
     = detected_anomalies d ++ expected_anomalies (position d) vehicles
  /\ (expected_anomalies (position d) vehicles = [] -> state d' = state d).
Proof.
  unfold _monitor_traffic, expected_anomalies.
  destruct (position d) as [x y] eqn:Hp.
  destruct (np_update _ y x _) as [m0| |]; simpl; try discriminate.
  destruct (nearby_loop x y vehicles [] m0) as [[near m1]| |] eqn:EN;
    simpl; try discriminate.
  apply nearby_loop_result in EN. simpl in EN. subst near.
  intros [= <-].
  set (near := List.filter (proximate (x, y)) vehicles).
  set (dm := with_traffic_density_map m1 d).
  set (d1 := if 3 <? Z.of_nat (length near) then _ else dm).
  destruct (incident_loop_frame near d1) as (Hb & Hr & Hpos).
  rewrite Hb, Hr, Hpos, incident_loop_anomalies.
  assert (H1 : battery d1 = battery d /\ battery_drain_rate d1 = battery_drain_rate d
               /\ position d1 = (x, y)
               /\ detected_anomalies d1
                  = detected_anomalies d
                    ++ (if 3 <? Z.of_nat (length near)
                        then [Congestion (x, y) (Z.of_nat (length near))
                                (Z.min 10 (Z.of_nat (length near)))]
                        else [])).
  { subst d1. destruct (3 <? _); simpl; rewrite ?Hp, ?app_nil_r; auto. }
  destruct H1 as (-> & -> & -> & ->).
  repeat split; try reflexivity.
  - rewrite <- app_assoc. reflexivity.
  - intros E. apply app_eq_nil in E. destruct E as (E1 & E2).
    apply map_eq_nil in E2. rewrite (incident_loop_quiet near d1 E2).
    subst d1. destruct (3 <? _); [discriminate | reflexivity].
Qed.

Lemma move_frame (d d' : DroneAgent) (rng rng' : Random.Rng) :
  move d rng = Ok (d', rng') ->
  battery d' = battery d /\ battery_drain_rate d' = battery_drain_rate d.
Proof.
  unfold move. destruct (waypoints d !! current_waypoint_index d) as [target|];
    [|intros [= <- <-]; auto].
  simpl. destruct (_ && _); [|intros [= <- <-]; auto].
  destruct (_ <=? _)%nat; [|intros [= <- <-]; auto].
  destruct (_generate_patrol_waypoints _ _ _) as [[w r']| |]; simpl;
    intros [= <- <-] || discriminate; auto.
Qed.

Lemma recharge_battery (d d1 : DroneAgent) (rng rng1 : Random.Rng) :
  recharge d rng = Ok (d1, rng1) ->
  battery d1 = battery d \/ battery d1 = 100%Q.
Proof.
  unfold recharge. destruct (_ && _).
  - destruct (_generate_patrol_waypoints _ _ _) as [[w r']| |]; simpl;
      [intros [= <- <-]; auto | discriminate | discriminate].
  - intros [= <- <-]; auto.
Qed.

(** One [step] keeps the drain rate and cannot lift the battery over 100. *)
Lemma step_battery (d d' : DroneAgent) (env : option Env) (rng rng' : Random.Rng) :
  step d env rng = Ok (d', rng') ->
  battery_drain_rate d = (1 # 2)%Q ->
  (battery d <= 100)%Q ->
  battery_drain_rate d' = (1 # 2)%Q /\ (battery d' <= 100)%Q.
Proof.
  intros Hstep Hrate Hb. unfold step in Hstep.
  destruct (recharge (low_battery (drain d)) rng) as [[d1 rng1]| |] eqn:E1;
    simpl in Hstep; try discriminate.
  assert (H1 : battery_drain_rate d1 = (1 # 2)%Q /\ (battery d1 <= 100)%Q).
  { destruct (recharge_frame _ _ _ _ E1) as (_ & _ & _ & Hr1).
    destruct (low_battery_frame (drain d)) as (_ & _ & _ & Hb0 & Hr0).
    split; [rewrite Hr1, Hr0; exact Hrate|].
    destruct (recharge_battery _ _ _ _ E1) as [-> | ->]; [|apply Qle_refl].
    rewrite Hb0. unfold drain; simpl. rewrite Qred_correct, Hrate.
    apply Qle_trans with (battery d); [|exact Hb].
    rewrite <- (Qplus_0_r (battery d)) at 2.
    apply Qplus_le_compat; [apply Qle_refl | discriminate]. }
  destruct H1 as (Hr1 & Hb1).
  destruct (match env ≫= vehicles with
            | Some vs => _monitor_traffic d1 vs
            | None => Ok d1
            end) as [d2| |] eqn:E2; simpl in Hstep; try discriminate.
  assert (H2 : battery d2 = battery d1 /\ battery_drain_rate d2 = battery_drain_rate d1).
  { destruct (env ≫= vehicles) as [vs|].
    - apply monitor_traffic_frame in E2. tauto.
    - injection E2 as <-. auto. }
  destruct H2 as (Hb2 & Hr2).
  apply move_frame in Hstep. destruct Hstep as (-> & ->).
  rewrite Hb2, Hr2. auto.
Qed.

Lemma init_battery agent_id start grid_size area rng d rng' :
  init agent_id start grid_size area rng = Ok (d, rng') ->
  battery_drain_rate d = (1 # 2)%Q /\ battery d = 100%Q.
Proof.
  unfold init.
  destruct (_generate_patrol_waypoints _ _ _) as [[w r]| |]; simpl; try discriminate.
  destruct (grid_size <? 0); [discriminate|].
  intros [= <- <-]. auto.
Qed.

Lemma reachable_battery (d : DroneAgent) :
  reachable d -> battery_drain_rate d = (1 # 2)%Q /\ (battery d <= 100)%Q.
Proof.
  induction 1 as [? ? ? ? ? d ? Hinit | d env rng d' rng' _ IH Hstep | d _ IH].
  - apply init_battery in Hinit. destruct Hinit as (-> & ->).
    split; [reflexivity | apply Qle_refl].
  - destruct IH as (Hr & Hb). exact (step_battery _ _ _ _ _ Hstep Hr Hb).
  - exact IH.
Qed.

(** A drone that is RETURNING away from the base stays RETURNING through
    any [step] in which it reports no anomaly. *)
Lemma step_keeps_returning (d d' : DroneAgent) (env : option Env)
    (rng rng' : Random.Rng) :
  step d env rng = Ok (d', rng') ->
  state d = RETURNING ->
  position d <> (0, 0) ->
  detected_anomalies d' = detected_anomalies d ->
  state d' = RETURNING.
Proof.
  intros Hstep Hs Hp Ha. unfold step in Hstep.
  assert (E0 : low_battery (drain d) = drain d).
  { unfold low_battery. change (state (drain d)) with (state d). rewrite Hs.
    rewrite bool_decide_eq_true_2 by reflexivity.
    rewrite andb_false_r. reflexivity. }
  assert (E1 : recharge (drain d) rng = Ok (drain d, rng)).
  { unfold recharge. change (position (drain d)) with (position d).
    apply pos_eqb_neq in Hp. rewrite Hp, andb_false_r. reflexivity. }
  rewrite E0, E1 in Hstep. simpl in Hstep.
  destruct (match env ≫= vehicles with
            | Some vs => _monitor_traffic (drain d) vs
            | None => Ok (drain d)
            end) as [d2| |] eqn:E2; simpl in Hstep; try discriminate.
  apply move_anomalies in Hstep. destruct Hstep as (Ha' & ->).
  destruct (env ≫= vehicles) as [vs|].
  - apply monitor_traffic_frame in E2.
    destruct E2 as (_ & _ & _ & Happ & Hstate).
    rewrite Hstate; [exact Hs|].
    rewrite Ha', Happ in Ha. change (detected_anomalies (drain d))
      with (detected_anomalies d) in Ha.
    rewrite <- (app_nil_r (detected_anomalies d)) in Ha at 2.
    apply app_inv_head in Ha. exact Ha.
  - injection E2 as <-. exact Hs.
Qed.

(** What the battery logic does keep: at every reachable tick the level
    is at most 100, and a drone that is RETURNING away from the base cell
    (0,0) is still RETURNING after any [step] in which it reports no
    anomaly. *)
Lemma battery_at_most_100_and_return_kept (d : DroneAgent) :
  reachable d ->
  (battery d <= 100)%Q
  /\ forall env rng d' rng',
       step d env rng = Ok (d', rng') ->
       state d = RETURNING ->
       position d <> (0, 0) ->
       detected_anomalies d' = detected_anomalies d ->
       state d' = RETURNING.
Proof.
  intros Hd. split.
  - apply reachable_battery, Hd.
  - intros env rng d' rng'. apply step_keeps_returning.
Qed.

(** C3, on the drone [DroneAgent("D-1", (4,4), 5, [(2,2), (4,4)])].

    It patrols for 160 ticks and turns RETURNING at tick 161, at (3,3),
    with the route [(3,3), (0,0)].  A waypoint counts as reached one cell
    away from it, so at tick 163, at (1,1), the base counts as reached: the
    route is used up and a fresh patrol route, which does not contain the
    base, replaces it, while the state stays RETURNING.  The recharge,
    which [step] grants a RETURNING drone on the cell (0,0) only, therefore
    never happens: in none of the first 201 ticks is the drone on (0,0),
    and at tick 201 its battery is -1/2, below 0.

    And a RETURNING drone that reports an anomaly is PATROLLING again:
    stepped at tick 161 among four vehicles, the drone reports a congestion
    and leaves the tick PATROLLING at (2,2), away from the base and with a
    battery of 19. *)
Theorem drone_battery_negative_and_patrol_resumed :
  exists d0 rng0 d161 rng161 d163 rng163 d201 rng201 d162 rng162,
    init "D-1" (4, 4) 5 (Some ((2, 2), (4, 4))) [] = Ok (d0, rng0)
    /\ patrol 161 empty_streets d0 rng0 = Ok (d161, rng161)
    /\ state d161 = RETURNING /\ position d161 = (3, 3)
    /\ waypoints d161 = [(3, 3); (0, 0)]
    /\ patrol 163 empty_streets d0 rng0 = Ok (d163, rng163)
    /\ state d163 = RETURNING /\ position d163 = (1, 1)
    /\ ((0, 0) ∉ waypoints d163)
    /\ forallb (fun n => match patrol n empty_streets d0 rng0 with
                         | Ok (d, _) => negb (pos_eqb (position d) (0, 0))
                         | _ => false
                         end) (seq 0 202) = true
    /\ patrol 201 empty_streets d0 rng0 = Ok (d201, rng201)
    /\ state d201 = RETURNING
    /\ battery d201 = (-1 # 2)%Q
    /\ ~ (0 <= battery d201)%Q
    /\ step d161 (crowd_at (3, 3)) rng161 = Ok (d162, rng162)
    /\ length (detected_anomalies d162) = 1%nat
    /\ state d162 = PATROLLING /\ position d162 = (2, 2)
    /\ battery d162 = 19%Q.
Proof.
  do 10 eexists.
  split; [vm_compute; reflexivity|].
  split; [vm_compute; reflexivity|].
  split; [reflexivity|]. split; [reflexivity|]. split; [reflexivity|].
  split; [vm_compute; reflexivity|].
  split; [reflexivity|]. split; [reflexivity|].
  split; [cbn [waypoints]; intros H;
          repeat (apply elem_of_cons in H as [H|H]; [discriminate|]);
          inversion H|].
  split; [vm_compute; reflexivity|].
  split; [vm_compute; reflexivity|].
  split; [reflexivity|]. split; [reflexivity|].
  split; [vm_compute; intros H; apply H; reflexivity|].
  split; [vm_compute; reflexivity|].
  split; [reflexivity|]. split; [reflexivity|]. split; reflexivity.
Qed.
End DroneFacts.

(** ** The controller *)

Section ControllerFacts.
Import Controller.
Context {Callback : Type}.
Implicit Types (c : @SimulationController Callback) (b : @Bus Callback).

Lemma publish_other_topic b (topic : string) (m : Msg) :
  topic <> "anomaly_detected" ->
  pending_anomalies (publish b topic m) = pending_anomalies b.
Proof.
  intros H. unfold pending_anomalies, publish, Comms.publish, Comms.get_messages.
  simpl. rewrite lookup_insert_ne by exact H. reflexivity.
Qed.

Lemma clear_no_pending b : pending_anomalies (Comms.clear b) = [].
Proof.
  unfold pending_anomalies, Comms.clear, Comms.get_messages. simpl.
  rewrite lookup_fmap. destruct (Comms.messages b !! "anomaly_detected"); reflexivity.
Qed.

Lemma lights_loop_pending vehicles todo :
  forall done b,
    pending_anomalies (lights_loop vehicles todo done b).2 = pending_anomalies b.
Proof.
  induction todo as [|light rest IH]; intros done b; simpl; [reflexivity|].
  rewrite IH. apply publish_other_topic. discriminate.
Qed.

(** While the anomaly topic is empty, every environment handed to a
    vehicle carries an empty congestion list, and the vehicle phase leaves
    the topic empty. *)
Lemma vehicles_loop_congestion lights todo :
  forall done b rng calls,
    pending_anomalies b = [] ->
    Forall (fun call => Vehicle.congestion call.2 = Some []) calls ->
    let '(_, b', _, calls') := vehicles_loop lights todo done b rng calls in
    pending_anomalies b' = []
    /\ Forall (fun call => Vehicle.congestion call.2 = Some []) calls'.
Proof.
  induction todo as [|vehicle rest IH]; intros done b rng calls Hb Hc; simpl.
  - auto.
  - destruct (decide (Vehicle.state vehicle = Vehicle.ARRIVED)).
    + apply IH; assumption.
    + destruct (Vehicle.step vehicle _ rng) as [vehicle' rng'].
      apply IH.
      * rewrite publish_other_topic by discriminate. exact Hb.
      * apply Forall_app. split; [exact Hc|].
        constructor; [|constructor].
        unfold _get_environment_data_for_vehicle. simpl.
        unfold pending_anomalies in Hb. rewrite Hb. reflexivity.
Qed.

(** A tick ends with the anomaly topic cleared. *)
Lemma step_traced_clears c rng c' rng' t :
  step_traced c rng = Ok (c', rng', t) ->
  pending_anomalies (message_bus c') = [].
Proof.
  unfold step_traced.
  destruct (_update_vehicles _ rng) as [[c1 rng1] calls].
  destruct (_update_drones c1 rng1) as [[c2 rng2]| |]; simpl; try discriminate.
  intros [= <- _ _]. unfold _update_statistics.
  destruct (fold_left _ _ _) as [[? ?] ?]. simpl.
  apply clear_no_pending.
Qed.

(** A tick that starts with the anomaly topic empty hands every vehicle an
    empty congestion list. *)
Lemma step_traced_congestion c rng c' rng' t :
  pending_anomalies (message_bus c) = [] ->
  step_traced c rng = Ok (c', rng', t) ->
  Forall (fun call => Vehicle.congestion call.2 = Some []) (vehicle_calls t).
Proof.
  intros Hb. unfold step_traced, _update_vehicles, _update_traffic_lights.
  cbn [vehicles traffic_lights message_bus].
  destruct (lights_loop _ _ _ _) as [lights b1] eqn:EL.
  cbn [vehicles traffic_lights message_bus].
  assert (H1 : pending_anomalies b1 = []).
  { pose proof (lights_loop_pending (vehicles c) (traffic_lights c) [] (message_bus c)) as H.
    rewrite EL in H. simpl in H. rewrite H. exact Hb. }
  pose proof (vehicles_loop_congestion lights (vehicles c) [] b1 rng [] H1 (List.Forall_nil _)) as HV.
  destruct (vehicles_loop lights (vehicles c) [] b1 rng []) as [[[vs b2] rng2] calls].
  destruct HV as (_ & HV).
  destruct (_update_drones _ rng2) as [[c2 rng3]| |]; simpl; try discriminate.
  intros [= _ _ <-]. exact HV.
Qed.

Lemma init_no_pending fuel grid_size num_vehicles num_drones verbose rng c rng' :
  init fuel grid_size num_vehicles num_drones verbose rng = Ok (c, rng') ->
  pending_anomalies (message_bus c) = [].
Proof.
  unfold init.
  destruct (GridM.init grid_size) as [g| |]; simpl; try discriminate.
  destruct (_create_traffic_lights grid_size rng) as [lights rng1].
  destruct (_create_vehicles _ _ _ rng1) as [[vs rng2]| |]; simpl; try discriminate.
  destruct (_create_drones _ _ rng2) as [[ds rng3]| |]; simpl; try discriminate.
  intros [= <- _]. reflexivity.
Qed.

(** In every tick of every run, whatever the drones reported in the tick
    before, each vehicle is handed an empty congestion list. *)
Lemma running_congestion_always_empty c rng c' rng' t :
  running c ->
  step_traced c rng = Ok (c', rng', t) ->
  Forall (fun call => Vehicle.congestion call.2 = Some []) (vehicle_calls t).
Proof.
  intros Hc. apply step_traced_congestion.
  destruct Hc as [? ? ? ? ? ? c ? Hinit | c0 ? c ? ? _ Hstep].
  - eapply init_no_pending, Hinit.
  - eapply step_traced_clears, Hstep.
Qed.

Lemma print_stats_empty_roster c :
  vehicles c = [] -> print_stats c = Raise ZeroDivisionError.
Proof. intros H. unfold print_stats. rewrite H. reflexivity. Qed.
End ControllerFacts.

(** *** Runs with an empty roster *)

Section RosterFacts.
Import Controller.
Context {Callback : Type}.
Implicit Types (c : @SimulationController Callback) (b : @Bus Callback).

Lemma py_range_empty (start stop step : Z) :
  stop <= start -> py_range start stop step = [].
Proof.
  intros H. unfold py_range. destruct (Z.ltb_spec start stop); [lia | reflexivity].
Qed.

Lemma py_range_from_zero (stop : Z) :
  0 < stop -> exists rest, py_range 0 stop 1 = 0 :: rest.
Proof.
  intros H. unfold py_range. destruct (Z.ltb_spec 0 stop); [|lia].
  replace (stop - 0 + 1 - 1) with stop by lia. rewrite Z.div_1_r.
  destruct (Z.to_nat stop) as [|n] eqn:E; [lia|]. simpl. eauto.
Qed.

Lemma create_loop_returns {A} (P : A -> Prop)
    (body : Z -> Random.Rng -> outcome (A * Random.Rng)) (indices : list Z) :
  (forall i rng, exists a rng', body i rng = Ok (a, rng') /\ P a) ->
  forall acc rng,
    Forall P acc ->
    exists l rng', create_loop body indices acc rng = Ok (l, rng') /\ Forall P l.
Proof.
  intros Hbody. induction indices as [|i rest IH]; intros acc rng Hacc; simpl.
  - eauto.
  - destruct (Hbody i rng) as (a & r1 & -> & Ha). simpl.
    apply IH. apply Forall_app. split; [exact Hacc|]. constructor; [exact Ha|constructor].
Qed.

Lemma create_loop_raises {A}
    (body : Z -> Random.Rng -> outcome (A * Random.Rng)) (e : exn) (i : Z)
    (rest : list Z) (acc : list A) (rng : Random.Rng) :
  body i rng = Raise e -> create_loop body (i :: rest) acc rng = Raise e.
Proof. intros H. simpl. rewrite H. reflexivity. Qed.

Lemma create_drone_well_formed (grid_size i : Z) (rng : Random.Rng) :
  2 <= grid_size ->
  exists d rng', create_drone grid_size i rng = Ok (d, rng') /\ well_formed d.
Proof.
  intros Hg. unfold create_drone.
  destruct (randint_range 0 (grid_size - 1) rng ltac:(lia)) as (sx & r1 & -> & Hx).
  simpl.
  destruct (randint_range 0 (grid_size - 1) r1 ltac:(lia)) as (sy & r2 & -> & Hy).
  simpl.
  assert (Hh : 1 <= grid_size / 2 <= grid_size - 1)
    by (Z.div_mod_to_equations; lia).
  apply init_well_formed; simpl; try lia.
  unfold ordered.
  destruct ((i mod 4 =? 0) || (i mod 4 =? 2)), ((i mod 4 =? 0) || (i mod 4 =? 1));
    simpl; lia.
Qed.

Lemma create_agent_on_empty_grid_raises (fuel : nat) (i : Z) (rng : Random.Rng) :
  create_vehicle fuel 0 i rng = Raise ValueError
  /\ create_drone 0 i rng = Raise ValueError.
Proof. split; reflexivity. Qed.

Lemma vehicles_loop_length lights todo :
  forall done b rng calls,
    length (vehicles_loop lights todo done b rng calls).1.1.1
    = (length done + length todo)%nat.
Proof.
  induction todo as [|v rest IH]; intros done b rng calls; simpl; [lia|].
  destruct (decide _).
  - rewrite IH, length_app. simpl. lia.
  - destruct (Vehicle.step v _ rng) as [v' rng'].
    rewrite IH, length_app. simpl. lia.
Qed.

Lemma drones_loop_returns vehicles todo :
  forall done b rng,
    Forall well_formed todo ->
    Forall well_formed done ->
    exists done' b' rng',
      drones_loop vehicles todo done b rng = Ok (done', b', rng')
      /\ Forall well_formed done'.
Proof.
  induction todo as [|d rest IH]; intros done b rng Htodo Hdone; simpl.
  - eauto.
  - apply Forall_cons in Htodo. destruct Htodo as (Wd & Hrest).
    destruct (step_well_formed d (Some (_get_environment_data_for_drone vehicles)) rng Wd)
      as (d' & r' & -> & Wd').
    simpl. apply IH; [exact Hrest|].
    apply Forall_app. split; [exact Hdone|]. constructor; [exact Wd' | constructor].
Qed.

(** A tick over well-formed drones returns; the drones stay well formed
    and the roster keeps its length; the aggregates of an empty roster
    are zero. *)
Lemma step_returns c rng :
  Forall well_formed (drones c) ->
  exists c' rng',
    step c rng = Ok (c', rng')
    /\ Forall well_formed (drones c')
    /\ length (vehicles c') = length (vehicles c)
    /\ (vehicles c = [] ->
        vehicles_arrived (stats c') = 0 /\ total_waiting_time (stats c') = 0
        /\ total_travel_time (stats c') = 0).
Proof.
  intros W. unfold step, step_traced, _update_vehicles, _update_traffic_lights.
  cbn [vehicles traffic_lights message_bus drones].
  destruct (lights_loop _ _ _ _) as [lights b1].
  cbn [vehicles traffic_lights message_bus drones].
  pose proof (vehicles_loop_length lights (vehicles c) [] b1 rng []) as HL.
  destruct (vehicles_loop lights (vehicles c) [] b1 rng []) as [[[vs b2] rng2] calls].
  simpl in HL. unfold _update_drones. cbn [vehicles traffic_lights message_bus drones].
  destruct (drones_loop_returns vs (drones c) [] b2 rng2 W (List.Forall_nil _))
    as (ds & b3 & rng3 & -> & Wds).
  simpl. unfold _update_statistics. simpl.
  destruct (fold_left _ vs (0, 0, 0)) as [[a w] t] eqn:EF. simpl.
  eexists _, _. split; [reflexivity|]. simpl.
  split; [exact Wds|]. split; [exact HL|].
  intros Hv. rewrite Hv in HL. simpl in HL.
  destruct vs; [|discriminate]. simpl in EF. injection EF as <- <- <-. auto.
Qed.

Lemma ticks_return (n : nat) c rng :
  Forall well_formed (drones c) ->
  exists c' rng',
    ticks n c rng = Ok (c', rng')
    /\ Forall well_formed (drones c')
    /\ length (vehicles c') = length (vehicles c).
Proof.
  intros W. induction n as [|n IH]; simpl.
  - eauto.
  - destruct IH as (c1 & r1 & -> & W1 & L1). simpl.
    destruct (step_returns c1 r1 W1) as (c2 & r2 & -> & W2 & L2 & _).
    eexists _, _. split; [reflexivity|]. split; [exact W2 | congruence].
Qed.

Lemma init_empty_roster (fuel : nat) (grid_size num_vehicles num_drones : Z)
    (verbose : bool) (rng : Random.Rng) :
  num_vehicles <= 0 ->
  2 <= grid_size \/ (0 <= grid_size /\ num_drones <= 0) ->
  exists c rng',
    init fuel grid_size num_vehicles num_drones verbose rng = Ok (c, rng')
    /\ vehicles c = []
    /\ Forall well_formed (drones c)
    /\ stats c = mkStats 0 0 0 0 0.
Proof.
  intros Hv Hg. unfold init, GridM.init.
  destruct (Z.ltb_spec grid_size 0); [lia|]. simpl.
  destruct (_create_traffic_lights grid_size rng) as [lights r1].
  unfold _create_vehicles. rewrite (py_range_empty 0 num_vehicles 1 Hv). simpl.
  unfold _create_drones.
  destruct Hg as [Hg|(Hg & Hd)].
  - destruct (create_loop_returns well_formed (create_drone grid_size)
                (py_range 0 num_drones 1)
                (fun i r => create_drone_well_formed grid_size i r Hg)
                [] r1 (List.Forall_nil _)) as (ds & r2 & -> & Wds).
    simpl. eexists _, _. split; [reflexivity|]. simpl. auto.
  - rewrite (py_range_empty 0 num_drones 1 Hd). simpl.
    eexists _, _. split; [reflexivity|]. simpl. auto.
Qed.

Lemma init_empty_grid_raises (fuel : nat) (num_vehicles num_drones : Z)
    (verbose : bool) (rng : Random.Rng) :
  0 < num_vehicles \/ 0 < num_drones ->
  init (Callback := Callback) fuel 0 num_vehicles num_drones verbose rng
  = Raise ValueError.
Proof.
  intros H. unfold init. simpl.
  change (_create_traffic_lights 0 rng) with (@nil TrafficLight.TrafficLightAgent, rng).
  cbv iota beta.
  unfold _create_vehicles, _create_drones.
  destruct (Z.ltb_spec 0 num_vehicles) as [Hv|Hv].
  - destruct (py_range_from_zero num_vehicles Hv) as (rest & ->). reflexivity.
  - rewrite (py_range_empty 0 num_vehicles 1 Hv). simpl.
    destruct H as [H|H]; [lia|].
    destruct (py_range_from_zero num_drones H) as (rest & ->). reflexivity.
Qed.

Lemma ticks_empty_roster (n : nat) c rng :
  vehicles c = [] ->
  Forall well_formed (drones c) ->
  vehicles_arrived (stats c) = 0 /\ total_waiting_time (stats c) = 0
  /\ total_travel_time (stats c) = 0 ->
  exists c' rng',
    ticks n c rng = Ok (c', rng')
    /\ vehicles c' = []
    /\ Forall well_formed (drones c')
    /\ vehicles_arrived (stats c') = 0 /\ total_waiting_time (stats c') = 0
    /\ total_travel_time (stats c') = 0.
Proof.
  intros Hv W Hs. induction n as [|n IH]; simpl.
  - eexists _, _. split; [reflexivity|]. tauto.
  - destruct IH as (c1 & r1 & -> & Hv1 & W1 & _). simpl.
    destruct (step_returns c1 r1 W1) as (c2 & r2 & -> & W2 & L2 & Hz).
    eexists _, _. split; [reflexivity|].
    rewrite Hv1 in L2. simpl in L2.
    split; [destruct (vehicles c2); [reflexivity | discriminate]|].
    split; [exact W2|]. apply Hz, Hv1.
Qed.

(** Construction validates nothing.  With a zero vehicle roster it
    succeeds on every grid of size at least 2, and on a smaller grid, down
    to size 0, when no drone is requested either; every tick then runs, and
    statistics aggregation over the empty roster sums to zero without
    dividing.  A zero-size grid makes construction fail, with the
    ValueError of [random.randint], exactly when at least one vehicle or
    drone is requested. *)
Lemma construction_validates_nothing
    (fuel : nat) (grid_size num_vehicles num_drones : Z) (verbose : bool)
    (rng : Random.Rng) :
  0 <= grid_size ->
  (num_vehicles <= 0 ->
   2 <= grid_size \/ num_drones <= 0 ->
   exists c rng',
     init (Callback := Callback) fuel grid_size num_vehicles num_drones verbose rng
     = Ok (c, rng')
     /\ vehicles c = []
     /\ forall n r,
          exists c' r',
            ticks n c r = Ok (c', r')
            /\ vehicles c' = []
            /\ vehicles_arrived (stats c') = 0
            /\ total_waiting_time (stats c') = 0
            /\ total_travel_time (stats c') = 0)
  /\ (grid_size = 0 ->
      0 < num_vehicles \/ 0 < num_drones ->
      init (Callback := Callback) fuel grid_size num_vehicles num_drones verbose rng
      = Raise ValueError).
Proof.
  intros Hg. split.
  - intros Hv Hd.
    destruct (init_empty_roster fuel grid_size num_vehicles num_drones verbose rng Hv)
      as (c & rng' & Hinit & Hvs & W & Hstats); [lia|].
    exists c, rng'. split; [exact Hinit|]. split; [exact Hvs|].
    intros n r.
    destruct (ticks_empty_roster n c r Hvs W) as (c' & r' & Ht & Hv' & _ & Hz).
    { rewrite Hstats. simpl. auto. }
    exists c', r'. tauto.
  - intros -> H. apply init_empty_grid_raises, H.
Qed.
End RosterFacts.

(** C1, on [SimulationController(grid_size=5, num_vehicles=4, num_drones=1)]
    with the four vehicles starting at (0,0) next to the drone.  In tick 1
    the drone reports a congestion of four vehicles and the controller
    drains that record from the anomaly topic.  In tick 2 each of the four
    vehicles, none of them ARRIVED, is stepped with an empty congestion
    list: the record drained in tick 1 is not in its environment, because
    the bus history was cleared at the end of tick 1. *)
Theorem previous_tick_congestion_never_reaches_vehicles :
  exists c0 rng0 c1 rng1 t1 c2 rng2 t2,
    Controller.init (Callback := unit) 10 5 4 1 false crowded_tape = Ok (c0, rng0)
    /\ Controller.step_traced c0 rng0 = Ok (c1, rng1, t1)
    /\ Controller.drained t1 = [Controller.AnomalyMsg (Drone.Congestion (0, 0) 4 4)]
    /\ omap Controller.congestion_area (Controller.drained t1)
       = [Vehicle.mkArea (0, 0) 4]
    /\ map Vehicle.state (Controller.vehicles c1)
       = [Vehicle.MOVING; Vehicle.MOVING; Vehicle.MOVING; Vehicle.MOVING]
    /\ Controller.step_traced c1 rng1 = Ok (c2, rng2, t2)
    /\ map (fun call => (call.1, Vehicle.congestion call.2)) (Controller.vehicle_calls t2)
       = [("V-1", Some []); ("V-2", Some []); ("V-3", Some []); ("V-4", Some [])].
Proof.
  do 8 eexists.
  split; [vm_compute; reflexivity|].
  split; [vm_compute; reflexivity|].
  split; [reflexivity|]. split; [reflexivity|]. split; [reflexivity|].
  split; [vm_compute; reflexivity|].
  reflexivity.
Qed.

(** C9, on [SimulationController(grid_size=5, num_vehicles=0, num_drones=2)].
    The zero vehicle roster is not rejected: construction succeeds with an
    empty roster, a tick runs and aggregates the statistics to zero without
    dividing, and [print_stats] then raises ZeroDivisionError on
    [vehicles_arrived / len(self.vehicles)], a division it does not guard,
    although it guards the two averages below it with
    [len(self.vehicles) > 0].  The zero-size simulation
    [SimulationController(grid_size=0, num_vehicles=0, num_drones=0)] is
    accepted as well and ends in the same way. *)
Theorem empty_roster_accepted_then_division_by_zero :
  (exists c0 rng0 c1 rng1,
     Controller.init (Callback := unit) 0 5 0 2 false [] = Ok (c0, rng0)
     /\ Controller.vehicles c0 = []
     /\ Controller.step c0 rng0 = Ok (c1, rng1)
     /\ Controller.current_step c1 = 1
     /\ Controller.vehicles c1 = []
     /\ Controller.stats c1 = Controller.mkStats 0 0 0 0 0
     /\ Controller.print_stats c1 = Raise ZeroDivisionError)
  /\ (exists c0 rng0 c1 rng1,
        Controller.init (Callback := unit) 0 0 0 0 false [] = Ok (c0, rng0)
        /\ GridM.size (Controller.grid c0) = 0
        /\ Controller.step c0 rng0 = Ok (c1, rng1)
        /\ Controller.print_stats c1 = Raise ZeroDivisionError)
  /\ (forall c : @Controller.SimulationController unit,
        Controller.vehicles c = [] ->
        Controller.print_stats c = Raise ZeroDivisionError).
Proof.
  split; [|split].
  - do 4 eexists.
    split; [vm_compute; reflexivity|].
    split; [reflexivity|].
    split; [vm_compute; reflexivity|].
    split; [reflexivity|]. split; [reflexivity|]. split; reflexivity.
  - do 4 eexists.
    split; [vm_compute; reflexivity|].
    split; [reflexivity|].
    split; [vm_compute; reflexivity|].
    reflexivity.
  - intros c. apply print_stats_empty_roster.
Qed.

(** * Further properties *)

(** ** The message bus *)

Section BusFurther.
Import Comms.
Context {Msg Callback : Type}.
Implicit Types (b : MessageBus Msg Callback) (topic : string).

(** X1. Unsubscribing with the handle [subscribe] has just returned
    removes the new callback again: the topic's subscriber list is what it
    was before, other topics' lists and every message history are
    untouched. *)
Theorem subscribe_then_unsubscribe_restores b topic (cb : Callback) :
  exists b',
    unsubscribe (subscribe b topic cb).1 topic (subscribe b topic cb).2 = Ok b'
    /\ subscribers_of b' topic = subscribers_of b topic
    /\ (forall t, t <> topic -> subscribers_of b' t = subscribers_of b t)
    /\ messages b' = messages b
    /\ max_history b' = max_history b.
Proof.
  unfold unsubscribe, subscribe. cbn [fst snd subscribers messages max_history].
  rewrite lookup_insert_eq.
  set (subs := dd_get (subscribers b) topic).
  rewrite length_app. simpl.
  destruct (Z.ltb_spec (Z.of_nat (length subs + 1) - 1) (Z.of_nat (length subs + 1)));
    [|lia].
  replace (Z.of_nat (length subs + 1) - 1) with (Z.of_nat (length subs)) by lia.
  rewrite (list_pop_middle subs [] cb). simpl.
  eexists. split; [reflexivity|].
  unfold subscribers_of, dd_get. simpl.
  rewrite lookup_insert_eq, app_nil_r. repeat split.
  intros t Ht. rewrite !lookup_insert_ne by congruence. reflexivity.
Qed.

Lemma get_messages_publish b topic (m : Msg) :
  get_messages (publish b topic m).1 topic None
  = deque_append (max_history b) (get_messages b topic None) m.
Proof.
  unfold get_messages, publish, dd_get. simpl. rewrite lookup_insert_eq.
  destruct (messages b !! topic); reflexivity.
Qed.

Lemma drop_overflow {A} (l ms : list A) (cap : nat) :
  drop (length (drop (length l - cap) l ++ ms) - cap) (drop (length l - cap) l ++ ms)
  = drop (length (l ++ ms) - cap) (l ++ ms).
Proof.
  rewrite <- (drop_app_le l ms) by lia.
  rewrite drop_drop, !length_drop, !length_app. f_equal. lia.
Qed.

(** X2. Publishing a batch of messages on a topic whose history is within
    capacity leaves exactly the newest [max_history] of the old history
    followed by the batch, oldest first; the history never exceeds
    [max_history]. *)
Theorem publish_all_keeps_newest b topic (ms : list Msg) :
  (length (get_messages b topic None) <= max_history b)%nat ->
  let history := get_messages b topic None ++ ms in
  get_messages (publish_all b topic ms) topic None
  = drop (length history - max_history b) history
  /\ (length (get_messages (publish_all b topic ms) topic None) <= max_history b)%nat.
Proof.
  revert b. induction ms as [|m ms IH]; intros b Hb; cbv zeta.
  - change (publish_all b topic []) with b. rewrite app_nil_r.
    replace (length (get_messages b topic None) - max_history b)%nat with 0%nat by lia.
    split; [reflexivity | exact Hb].
  - change (publish_all b topic (m :: ms))
      with (publish_all (publish b topic m).1 topic ms).
    specialize (IH (publish b topic m).1).
    rewrite get_messages_publish in IH. cbv zeta in IH.
    change (max_history (publish b topic m).1) with (max_history b) in IH.
    unfold deque_append in IH.
    destruct IH as (IH1 & IH2).
    { rewrite length_drop, length_app. simpl. lia. }
    split; [|exact IH2].
    rewrite IH1, drop_overflow, <- app_assoc. reflexivity.
Qed.

Lemma slice_last_positive {A} (q : list A) (n : nat) :
  slice_last q (Z.of_nat (S n)) = drop (length q - S n) q.
Proof.
  unfold slice_last. destruct (Z.ltb_spec 0 (Z.of_nat (S n))); [|lia].
  f_equal. lia.
Qed.

Lemma slice_last_zero {A} (q : list A) : slice_last q 0 = q.
Proof.
  unfold slice_last. change (0 <? 0) with false. cbv iota.
  rewrite Z.min_r by lia. reflexivity.
Qed.

Lemma slice_last_negative {A} (q : list A) (n : nat) :
  slice_last q (- Z.of_nat n) = drop n q.
Proof.
  unfold slice_last. destruct (Z.ltb_spec 0 (- Z.of_nat n)); [lia|].
  rewrite Z.opp_involutive.
  destruct (Z.min_spec (Z.of_nat (length q)) (Z.of_nat n)) as [[? ->]|[? ->]].
  - rewrite Nat2Z.id, !drop_ge by lia. reflexivity.
  - rewrite Nat2Z.id. reflexivity.
Qed.

(** X3. [get_messages(topic, count)]: a positive [count] returns the
    newest [count] retained messages, oldest first; [count = 0] returns the
    whole history (Python's [messages[-0:]]), not the empty list; a
    negative [count = -n] skips the [n] oldest messages.  A topic never
    published to yields the empty list. *)
Theorem get_messages_count b topic (n : nat) :
  let all := get_messages b topic None in
  get_messages b topic (Some (Z.of_nat (S n))) = drop (length all - S n) all
  /\ get_messages b topic (Some 0) = all
  /\ get_messages b topic (Some (- Z.of_nat n)) = drop n all
  /\ (messages b !! topic = None ->
      forall count, get_messages b topic count = []).
Proof.
  unfold get_messages. destruct (messages b !! topic) as [q|]; cbv zeta.
  - rewrite slice_last_positive, slice_last_zero, slice_last_negative.
    repeat split. discriminate.
  - rewrite !drop_nil. repeat split.
Qed.

(** X4. A negative handle is a position counted from the end: on a topic
    with subscribers [subs], [unsubscribe(topic, -k)] for [1 <= k <= len]
    removes the callback at position [len - k] (so [-1] drops the newest
    subscriber), and for [k > len] raises IndexError. *)
Theorem unsubscribe_negative_handle b topic (subs : list Callback) (k : Z) :
  subscribers b !! topic = Some subs ->
  1 <= k ->
  (k <= Z.of_nat (length subs) ->
   exists b',
     unsubscribe b topic (- k) = Ok b'
     /\ subscribers_of b' topic = delete (length subs - Z.to_nat k)%nat subs
     /\ length (subscribers_of b' topic) = (length subs - 1)%nat)
  /\ (Z.of_nat (length subs) < k -> unsubscribe b topic (- k) = Raise IndexError).
Proof.
  intros Hs Hk. unfold unsubscribe. rewrite Hs.
  destruct (Z.ltb_spec (- k) (Z.of_nat (length subs))); [|lia].
  unfold list_pop. destruct (Z.ltb_spec (- k) 0); [|lia].
  split; intros Hlen.
  - destruct (Z.ltb_spec (- k + Z.of_nat (length subs)) 0); [lia|].
    destruct (Z.leb_spec (Z.of_nat (length subs)) (- k + Z.of_nat (length subs)));
      [lia|]. simpl.
    eexists. split; [reflexivity|].
    unfold subscribers_of, dd_get. simpl. rewrite lookup_insert_eq. simpl.
    replace (Z.to_nat (- k + Z.of_nat (length subs)))
      with (length subs - Z.to_nat k)%nat by lia.
    split; [reflexivity|].
    apply length_delete. apply lookup_lt_is_Some_2. lia.
  - destruct (Z.ltb_spec (- k + Z.of_nat (length subs)) 0); [|lia]. reflexivity.
Qed.

(** X5. [clear()] empties the history of every topic, for any [count],
    but forgets no topic and no subscriber: [get_topic_list] lists the same
    topics and every subscriber list is as before. *)
Theorem clear_empties_histories_only b :
  (forall topic count, get_messages (clear b) topic count = [])
  /\ (forall topic, topic ∈ get_topic_list (clear b) <-> topic ∈ get_topic_list b)
  /\ subscribers (clear b) = subscribers b
  /\ max_history (clear b) = max_history b.
Proof.
  split; [|split; [|split; reflexivity]].
  - intros topic count. unfold get_messages, clear. simpl. rewrite lookup_fmap.
    destruct (messages b !! topic); simpl; [|reflexivity].
    destruct count as [c|]; [|reflexivity].
    unfold slice_last. apply drop_nil.
  - intros topic. unfold get_topic_list, clear. simpl.
    rewrite !list_elem_of_fmap. split.
    + intros ([t q] & -> & Hin). apply elem_of_map_to_list in Hin.
      rewrite lookup_fmap in Hin.
      destruct (messages b !! t) as [q'|] eqn:E; [|discriminate].
      exists (t, q'). split; [reflexivity|]. apply elem_of_map_to_list. exact E.
    + intros ([t q] & -> & Hin). apply elem_of_map_to_list in Hin.
      exists (t, []). split; [reflexivity|]. apply elem_of_map_to_list.
      rewrite lookup_fmap, Hin. reflexivity.
Qed.

(** X6. [publish] calls the topic's subscribers in the order they
    subscribed, each with the published message; it creates an unknown
    topic (the topic is listed afterwards and holds the message when the
    capacity is positive) and touches the history of no other topic. *)
Theorem publish_delivers_in_subscription_order b topic (A B : Callback) (m : Msg) :
  let b2 := (subscribe (subscribe b topic A).1 topic B).1 in
  (publish b2 topic m).2
  = map (fun cb => (cb, m)) (subscribers_of b topic ++ [A; B])
  /\ topic ∈ get_topic_list (publish b2 topic m).1
  /\ (messages b !! topic = None -> (0 < max_history b)%nat ->
      get_messages (publish b2 topic m).1 topic None = [m])
  /\ (forall t count, t <> topic ->
        get_messages (publish b2 topic m).1 t count = get_messages b t count).
Proof.
  cbv zeta. split; [|split; [|split]].
  - unfold publish. cbn [snd]. f_equal.
    change (dd_get (subscribers ?x) topic) with (subscribers_of x topic).
    rewrite !subscribers_of_subscribe, <- app_assoc. reflexivity.
  - unfold get_topic_list. apply list_elem_of_fmap.
    eexists (topic, _). split; [reflexivity|].
    apply elem_of_map_to_list. unfold publish. simpl. apply lookup_insert_eq.
  - intros Hnone Hcap. rewrite get_messages_publish.
    unfold get_messages at 1. simpl. rewrite Hnone.
    unfold deque_append. simpl.
    replace (1 - max_history b)%nat with 0%nat by lia. reflexivity.
  - intros t count Ht. unfold get_messages, publish. simpl.
    rewrite lookup_insert_ne by congruence. reflexivity.
Qed.
End BusFurther.

Lemma publish_all_keeps_newest_witness :
  let b : Comms.MessageBus nat unit := Comms.init 3 in
  (length (Comms.get_messages b "t" None) <= Comms.max_history b)%nat
  /\ Comms.get_messages (publish_all b "t" [1; 2; 3; 4; 5]%nat) "t" None = [3; 4; 5]%nat.
Proof.
  intros b.
  assert (H : (length (Comms.get_messages b "t" None) <= Comms.max_history b)%nat)
    by (vm_compute; lia).
  split; [exact H|].
  exact (proj1 (publish_all_keeps_newest b "t" [1; 2; 3; 4; 5]%nat H)).
Defined.

Lemma unsubscribe_negative_handle_witness :
  let b : Comms.MessageBus unit string :=
    (Comms.subscribe (Comms.subscribe (Comms.init 100) "t" "A").1 "t" "B").1 in
  Comms.subscribers b !! "t" = Some ["A"; "B"]
  /\ 1 <= 1
  /\ exists b', Comms.unsubscribe b "t" (- 1) = Ok b'
                /\ Comms.subscribers_of b' "t" = ["A"].
Proof.
  intros b.
  assert (Hs : Comms.subscribers b !! "t" = Some ["A"; "B"]) by (vm_compute; reflexivity).
  assert (Hk : 1 <= 1) by lia.
  split; [exact Hs|]. split; [exact Hk|].
  destruct (proj1 (unsubscribe_negative_handle b "t" ["A"; "B"] 1 Hs Hk))
    as (b' & Hu & Hl & _); [simpl; lia|].
  exists b'. split; [exact Hu | exact Hl].
Defined.

(** ** The grid *)

Section GridFurther.
Import GridM.

Lemma in_bounds_true (g : Grid) (p : Pos) :
  in_bounds g p = true <-> in_grid g p.
Proof.
  unfold in_bounds, in_grid.
  rewrite !andb_true_iff, !Z.leb_le, !Z.ltb_lt. tauto.
Qed.

Lemma empty_cells_ok (n : Z) :
  0 <= n -> grid_ok (mkGrid n (empty_cells n) ∅).
Proof.
  intros H. split; [exact H|]. simpl. unfold empty_cells. split.
  - apply length_replicate.
  - apply Forall_forall. intros row Hin. apply elem_of_replicate in Hin.
    destruct Hin as (-> & _). apply length_replicate.
Qed.

Lemma empty_cells_lookup (n : Z) (p : Pos) :
  get_agents_at (mkGrid n (empty_cells n) ∅) p = [].
Proof.
  unfold get_agents_at. destruct p as [x y].
  destruct (in_bounds _ _) eqn:E; [|reflexivity].
  apply in_bounds_true in E. destruct E as (Hx & Hy). simpl in *.
  unfold empty_cells.
  rewrite lookup_replicate_2 by lia. simpl.
  rewrite lookup_replicate_2 by lia. reflexivity.
Qed.

Lemma add_agent_ok (g : Grid) agent_id (p : Pos) agent_type state :
  grid_ok g -> grid_ok (add_agent g agent_id p agent_type state).
Proof.
  intros (H0 & Hl & Hrows). unfold add_agent. destruct p as [x y].
  destruct (in_bounds g (x, y)); [|repeat split; assumption].
  split; [exact H0|]. simpl. split.
  - rewrite length_alter. exact Hl.
  - apply Forall_forall. intros row Hin.
    apply list_elem_of_lookup in Hin. destruct Hin as (i & Hi).
    rewrite list_lookup_alter in Hi. destruct (decide (Z.to_nat y = i)) as [<-|].
    + destruct (grid g !! Z.to_nat y) as [row0|] eqn:E; simpl in Hi; [|discriminate].
      injection Hi as <-. rewrite length_alter.
      exact (Forall_lookup_1 _ _ _ _ Hrows E).
    + exact (Forall_lookup_1 _ _ _ _ Hrows Hi).
Qed.

(** What [add_agent] does to the occupants of each cell. *)
Lemma get_agents_at_add (g : Grid) agent_id (p q : Pos) agent_type state :
  grid_ok g -> in_grid g p ->
  get_agents_at (add_agent g agent_id p agent_type state) q
  = if decide (q = p)
    then get_agents_at g p ++ [mkInfo agent_id agent_type state]
    else get_agents_at g q.
Proof.
  intros (H0 & Hl & Hrows) Hp.
  pose proof Hp as Hb. apply in_bounds_true in Hb.
  destruct p as [x y], q as [x' y']. destruct Hp as (Hx & Hy). simpl in Hx, Hy.
  unfold add_agent. rewrite Hb. unfold get_agents_at.
  change (in_bounds (mkGrid (size g) ?c ?a) ?r) with (in_bounds g r).
  rewrite Hb. cbn [grid].
  destruct (lookup_lt_is_Some_2 (grid g) (Z.to_nat y)) as [row Hrow]; [lia|].
  pose proof (Forall_lookup_1 _ _ _ _ Hrows Hrow) as Hlen. simpl in Hlen.
  destruct (lookup_lt_is_Some_2 row (Z.to_nat x)) as [cell Hcell]; [lia|].
  case_decide as Hne.
  - injection Hne as -> ->. rewrite Hb, list_lookup_alter_eq, Hrow. simpl.
    rewrite list_lookup_alter_eq, Hcell. reflexivity.
  - destruct (in_bounds g (x', y')) eqn:Eq; [|reflexivity].
    apply in_bounds_true in Eq. destruct Eq as (Hx' & Hy'). simpl in Hx', Hy'.
    rewrite list_lookup_alter.
    destruct (decide (Z.to_nat y = Z.to_nat y')) as [Ey|Ey].
    + assert (y = y') by lia. subst y'. rewrite Hrow. simpl.
      rewrite list_lookup_alter_ne; [reflexivity|].
      intros E. apply Hne. f_equal. lia.
    + reflexivity.
Qed.

(** What [add_agent] does inside the grid, to the cells and to the id
    index. *)
Lemma add_agent_cells (g : Grid) agent_id (p : Pos) agent_type state :
  grid_ok g -> in_grid g p ->
  let g' := add_agent g agent_id p agent_type state in
  get_agents_at g' p = get_agents_at g p ++ [mkInfo agent_id agent_type state]
  /\ (forall q, q <> p -> get_agents_at g' q = get_agents_at g q)
  /\ agents g' !! agent_id = Some (p, agent_type, state)
  /\ (forall i, i <> agent_id -> agents g' !! i = agents g !! i)
  /\ grid_ok g'.
Proof.
  intros Hg Hp g'. subst g'. split; [|split; [|split; [|split]]].
  - rewrite get_agents_at_add by assumption. rewrite decide_True; reflexivity.
  - intros q Hq. rewrite get_agents_at_add by assumption.
    rewrite decide_False; [reflexivity | exact Hq].
  - unfold add_agent. destruct p as [x y].
    apply in_bounds_true in Hp. rewrite Hp. simpl. apply lookup_insert_eq.
  - intros i Hi. unfold add_agent. destruct p as [x y].
    apply in_bounds_true in Hp. rewrite Hp. simpl.
    apply lookup_insert_ne. congruence.
  - apply add_agent_ok, Hg.
Qed.

(** X7. On a grid of the right shape, [add_agent] at a position inside
    the grid appends the new entry to that cell's occupant list, leaves
    every other cell as it was, and records the agent under its id. *)
Theorem add_agent_in_grid (g : Grid) agent_id (p : Pos) agent_type state :
  grid_ok g -> in_grid g p ->
  let g' := add_agent g agent_id p agent_type state in
  get_agents_at g' p = get_agents_at g p ++ [mkInfo agent_id agent_type state]
  /\ (forall q, q <> p -> get_agents_at g' q = get_agents_at g q)
  /\ agents g' !! agent_id = Some (p, agent_type, state)
  /\ (forall i, i <> agent_id -> agents g' !! i = agents g !! i)
  /\ grid_ok g'.
Proof.
  exact (add_agent_cells g agent_id p agent_type state).
Qed.

Lemma pop_first_fresh agent_id (cell : list AgentInfo) (a : AgentInfo) :
  Forall (fun e => info_id e <> agent_id) cell ->
  info_id a = agent_id ->
  pop_first agent_id (cell ++ [a]) = cell.
Proof.
  intros Hc Ha. induction cell as [|e cell IH]; simpl.
  - rewrite bool_decide_eq_true_2 by exact Ha. reflexivity.
  - apply Forall_cons in Hc. destruct Hc as (He & Hc).
    rewrite bool_decide_eq_false_2 by exact He. f_equal. apply IH, Hc.
Qed.

Lemma axis_index_in_range (n : nat) (i : Z) :
  0 <= i < Z.of_nat n -> axis_index n i = Ok (Z.to_nat i).
Proof.
  intros H. unfold axis_index.
  destruct (Z.ltb_spec i 0); [lia|].
  destruct (Z.ltb_spec i 0); [lia|].
  destruct (Z.leb_spec (Z.of_nat n) i); [lia|]. reflexivity.
Qed.

(** X8. Adding an agent whose id is new to the grid and then removing it
    by that id gives back the grid exactly as it was: cells and id index.
    Removing an id the index does not hold changes nothing. *)
Theorem add_then_remove_agent (g : Grid) agent_id (p : Pos) agent_type state :
  grid_ok g -> in_grid g p ->
  agents g !! agent_id = None ->
  Forall (fun e => info_id e <> agent_id) (get_agents_at g p) ->
  remove_agent (add_agent g agent_id p agent_type state) agent_id = Ok g
  /\ remove_agent g agent_id = Ok g.
Proof.
  intros (H0 & Hl & Hrows) Hp Hfresh Hcell.
  unfold Pos in *.
  split; [|unfold remove_agent; unfold Pos; rewrite Hfresh; reflexivity].
  pose proof Hp as Hb. apply in_bounds_true in Hb.
  destruct p as [x y]. destruct Hp as (Hx & Hy). simpl in Hx, Hy.
  unfold get_agents_at in Hcell. rewrite Hb in Hcell.
  unfold add_agent. rewrite Hb. unfold remove_agent. cbn [agents grid size].
  rewrite lookup_insert_eq. rewrite length_alter.
  rewrite axis_index_in_range by lia. simpl.
  destruct (lookup_lt_is_Some_2 (grid g) (Z.to_nat y)) as [row Hrow]; [lia|].
  pose proof (Forall_lookup_1 _ _ _ _ Hrows Hrow) as Hlen. simpl in Hlen.
  destruct (lookup_lt_is_Some_2 row (Z.to_nat x)) as [cell Hc]; [lia|].
  rewrite Hrow in Hcell. simpl in Hcell. rewrite Hc in Hcell. simpl in Hcell.
  rewrite list_lookup_alter_eq, Hrow. simpl.
  rewrite length_alter, axis_index_in_range by lia. simpl.
  destruct g as [n rows idx]. simpl in *. f_equal. f_equal.
  - rewrite list_alter_alter_eq.
    rewrite list_insert_alter, list_alter_alter_eq.
    set (put := fun cell : list AgentInfo => cell ++ [mkInfo agent_id agent_type state]).
    assert (Hv : alter (pop_first agent_id ∘ put) (Z.to_nat x) row = row).
    { transitivity (alter (fun c => c) (Z.to_nat x) row);
        [|apply list_alter_id; reflexivity].
      apply list_alter_ext; [|reflexivity].
      intros c Hc'. rewrite Hc in Hc'. injection Hc' as <-.
      apply pop_first_fresh; [exact Hcell | reflexivity]. }
    rewrite Hv.
    transitivity (alter (fun r => r) (Z.to_nat y) rows);
      [|apply list_alter_id; reflexivity].
    apply list_alter_ext; [|reflexivity].
    intros r Hr. rewrite Hrow in Hr. injection Hr as <-. reflexivity.
  - apply delete_insert_id, Hfresh.
Qed.

(** The occupants after one cell's list has been rewritten by [f]. *)
Lemma get_agents_at_alter (g : Grid) (f : list AgentInfo -> list AgentInfo)
    (p q : Pos) (idx : gmap string (Pos * string * string)) :
  grid_ok g -> in_grid g p ->
  get_agents_at
    (mkGrid (size g) (alter (alter f (Z.to_nat p.1)) (Z.to_nat p.2) (grid g)) idx) q
  = if decide (q = p) then f (get_agents_at g p) else get_agents_at g q.
Proof.
  intros (H0 & Hl & Hrows) Hp.
  pose proof Hp as Hb. apply in_bounds_true in Hb.
  destruct p as [x y], q as [x' y']. destruct Hp as (Hx & Hy). simpl in Hx, Hy.
  unfold get_agents_at. cbn [fst snd].
  change (in_bounds (mkGrid (size g) ?c ?a) ?r) with (in_bounds g r).
  cbn [grid].
  destruct (lookup_lt_is_Some_2 (grid g) (Z.to_nat y)) as [row Hrow]; [lia|].
  pose proof (Forall_lookup_1 _ _ _ _ Hrows Hrow) as Hlen. simpl in Hlen.
  destruct (lookup_lt_is_Some_2 row (Z.to_nat x)) as [cell Hcell]; [lia|].
  case_decide as Hne.
  - injection Hne as -> ->. rewrite Hb, list_lookup_alter_eq, Hrow. simpl.
    rewrite list_lookup_alter_eq, Hcell. reflexivity.
  - destruct (in_bounds g (x', y')) eqn:Eq; [|reflexivity].
    apply in_bounds_true in Eq. destruct Eq as (Hx' & Hy'). simpl in Hx', Hy'.
    rewrite list_lookup_alter.
    destruct (decide (Z.to_nat y = Z.to_nat y')) as [Ey|Ey].
    + assert (y = y') by lia. subst y'. rewrite Hrow. simpl.
      rewrite list_lookup_alter_ne; [reflexivity|].
      intros E. apply Hne. f_equal. lia.
    + reflexivity.
Qed.

(** What [remove_agent] does for an id the index holds. *)
Lemma remove_agent_known (g : Grid) agent_id (p : Pos) (t s : string) :
  grid_ok g -> in_grid g p ->
  agents g !! agent_id = Some (p, t, s) ->
  exists g',
    remove_agent g agent_id = Ok g'
    /\ (forall q, get_agents_at g' q
                  = if decide (q = p) then pop_first agent_id (get_agents_at g p)
                    else get_agents_at g q)
    /\ agents g' = delete agent_id (agents g).
Proof.
  intros Hg Hp Hidx. pose proof Hg as (H0 & Hl & Hrows).
  destruct p as [x y]. pose proof Hp as (Hx & Hy). simpl in Hx, Hy.
  destruct (lookup_lt_is_Some_2 (grid g) (Z.to_nat y)) as [row Hrow]; [lia|].
  pose proof (Forall_lookup_1 _ _ _ _ Hrows Hrow) as Hlen. simpl in Hlen.
  assert (R : remove_agent g agent_id
              = Ok (mkGrid (size g)
                      (alter (alter (pop_first agent_id) (Z.to_nat x)) (Z.to_nat y)
                             (grid g))
                      (delete agent_id (agents g)))).
  { unfold Pos in *. unfold remove_agent. unfold Pos. rewrite Hidx.
    rewrite axis_index_in_range by lia. simpl.
    rewrite Hrow. rewrite axis_index_in_range by lia. simpl.
    do 2 f_equal.
    rewrite list_insert_alter. apply list_alter_ext; [|reflexivity].
    intros r Hr. rewrite Hrow in Hr. injection Hr as <-. reflexivity. }
  eexists. split; [exact R|]. split; [|reflexivity].
  intros q.
  exact (get_agents_at_alter g (pop_first agent_id) (x, y) q
           (delete agent_id (agents g)) Hg Hp).
Qed.

(** X9. Re-adding an id at a second position does not move the agent: the
    entry at the first position stays in its cell, and [remove_agent] then
    takes out the second entry only, so the first cell still shows an
    agent that the id index no longer knows. *)
Theorem readded_agent_leaves_stale_entry
    (g : Grid) agent_id (p1 p2 : Pos) (t1 s1 t2 s2 : string) :
  grid_ok g -> in_grid g p1 -> in_grid g p2 -> p1 <> p2 ->
  Forall (fun e => info_id e <> agent_id) (get_agents_at g p2) ->
  let g2 := add_agent (add_agent g agent_id p1 t1 s1) agent_id p2 t2 s2 in
  exists g3,
    remove_agent g2 agent_id = Ok g3
    /\ get_agents_at g3 p1 = get_agents_at g p1 ++ [mkInfo agent_id t1 s1]
    /\ get_agents_at g3 p2 = get_agents_at g p2
    /\ agents g3 !! agent_id = None.
Proof.
  intros Hg Hp1 Hp2 Hne Hfresh g2.
  set (g1 := add_agent g agent_id p1 t1 s1) in *.
  assert (Hg1 : grid_ok g1) by apply add_agent_ok, Hg.
  assert (Hp1' : in_grid g1 p1)
    by (unfold in_grid, g1, add_agent in *; destruct p1;
        destruct (in_bounds g _); exact Hp1).
  assert (Hp2' : in_grid g1 p2)
    by (unfold in_grid, g1, add_agent in *; destruct p1;
        destruct (in_bounds g _); exact Hp2).
  destruct (add_agent_cells g1 agent_id p2 t2 s2 Hg1 Hp2')
    as (Hat2 & Hother2 & Hidx2 & _ & Hg2).
  fold g2 in Hat2, Hother2, Hidx2, Hg2.
  assert (Hp2'' : in_grid g2 p2)
    by (unfold in_grid, g2, add_agent in *; destruct p2;
        destruct (in_bounds g1 _); exact Hp2').
  destruct (remove_agent_known g2 agent_id p2 t2 s2 Hg2 Hp2'' Hidx2)
    as (g3 & Hrem & Hcells & Hidx3).
  exists g3. split; [exact Hrem|].
  destruct (add_agent_cells g agent_id p1 t1 s1 Hg Hp1) as (Hat1 & Hother1 & _).
  fold g1 in Hat1, Hother1.
  split; [|split].
  - rewrite Hcells, decide_False by exact Hne.
    rewrite Hother2 by exact Hne. exact Hat1.
  - rewrite Hcells, decide_True by reflexivity.
    rewrite Hat2, Hother1 by congruence.
    apply pop_first_fresh; [exact Hfresh | reflexivity].
  - rewrite Hidx3. apply lookup_delete_eq.
Qed.
End GridFurther.

Lemma add_agent_in_grid_witness :
  let g := GridM.mkGrid 3 (GridM.empty_cells 3) ∅ in
  grid_ok g /\ in_grid g (1, 2)
  /\ GridM.get_agents_at (GridM.add_agent g "V-1" (1, 2) "vehicle" "MOVING") (1, 2)
     = [GridM.mkInfo "V-1" "vehicle" "MOVING"].
Proof.
  intros g.
  assert (Hg : grid_ok g) by (apply empty_cells_ok; lia).
  assert (Hp : in_grid g (1, 2)) by (unfold in_grid; simpl; lia).
  split; [exact Hg|]. split; [exact Hp|].
  exact (proj1 (add_agent_in_grid g "V-1" (1, 2) "vehicle" "MOVING" Hg Hp)).
Defined.

Lemma add_then_remove_agent_witness :
  let g := GridM.add_agent (GridM.mkGrid 3 (GridM.empty_cells 3) ∅)
             "TL-1" (1, 2) "traffic_light" "RED" in
  grid_ok g /\ in_grid g (1, 2)
  /\ GridM.agents g !! "V-1" = None
  /\ Forall (fun e => GridM.info_id e <> "V-1") (GridM.get_agents_at g (1, 2))
  /\ GridM.remove_agent (GridM.add_agent g "V-1" (1, 2) "vehicle" "MOVING") "V-1" = Ok g.
Proof.
  intros g.
  assert (Hg : grid_ok g) by (apply add_agent_ok, empty_cells_ok; lia).
  assert (Hp : in_grid g (1, 2)) by (unfold in_grid; simpl; lia).
  assert (Hi : GridM.agents g !! "V-1" = None) by (vm_compute; reflexivity).
  assert (Hc : Forall (fun e => GridM.info_id e <> "V-1") (GridM.get_agents_at g (1, 2))).
  { vm_compute. constructor; [discriminate | constructor]. }
  split; [exact Hg|]. split; [exact Hp|]. split; [exact Hi|]. split; [exact Hc|].
  exact (proj1 (add_then_remove_agent g "V-1" (1, 2) "vehicle" "MOVING" Hg Hp Hi Hc)).
Defined.

Lemma readded_agent_leaves_stale_entry_witness :
  let g := GridM.mkGrid 3 (GridM.empty_cells 3) ∅ in
  grid_ok g /\ in_grid g (0, 0) /\ in_grid g (1, 2) /\ ((0, 0) : Pos) <> (1, 2)
  /\ Forall (fun e => GridM.info_id e <> "V-1") (GridM.get_agents_at g (1, 2))
  /\ exists g3,
       GridM.remove_agent
         (GridM.add_agent (GridM.add_agent g "V-1" (0, 0) "vehicle" "MOVING")
                          "V-1" (1, 2) "vehicle" "WAITING") "V-1" = Ok g3
       /\ GridM.get_agents_at g3 (0, 0) = [GridM.mkInfo "V-1" "vehicle" "MOVING"]
       /\ GridM.agents g3 !! "V-1" = None.
Proof.
  intros g.
  assert (Hg : grid_ok g) by (apply empty_cells_ok; lia).
  assert (Hp1 : in_grid g (0, 0)) by (unfold in_grid; simpl; lia).
  assert (Hp2 : in_grid g (1, 2)) by (unfold in_grid; simpl; lia).
  assert (Hne : ((0, 0) : Pos) <> (1, 2)) by discriminate.
  assert (Hc : Forall (fun e => GridM.info_id e <> "V-1") (GridM.get_agents_at g (1, 2)))
    by (vm_compute; constructor).
  split; [exact Hg|]. split; [exact Hp1|]. split; [exact Hp2|].
  split; [exact Hne|]. split; [exact Hc|].
  destruct (readded_agent_leaves_stale_entry g "V-1" (0, 0) (1, 2)
              "vehicle" "MOVING" "vehicle" "WAITING" Hg Hp1 Hp2 Hne Hc)
    as (g3 & Hr & H1 & _ & H3).
  exists g3. split; [exact Hr|]. split; [exact H1 | exact H3].
Defined.

(** ** Traffic lights *)

Section LightFurther.
Import TrafficLight.

Lemma analyze_traffic_green (l : TrafficLightAgent) (e : Env) :
  let l' := _analyze_traffic l e in
  (green_duration l' = Z.max 15 (green_duration l - 5)
   \/ green_duration l' = Z.min 45 (green_duration l + 1))
  /\ red_duration l' = red_duration l /\ yellow_duration l' = yellow_duration l
  /\ timer l' = timer l /\ state l' = state l /\ direction l' = direction l.
Proof.
  unfold _analyze_traffic.
  destruct (_ && _); [simpl; tauto|].
  destruct (_ && _); simpl; tauto.
Qed.

Lemma phase_machine_green (l2 : TrafficLightAgent) :
  green_duration
    match state l2 with
    | RED => if red_duration l2 <=? timer l2
             then with_direction (1 - direction l2) (switch_to GREEN l2)
             else l2
    | YELLOW => if yellow_duration l2 <=? timer l2 then switch_to RED l2 else l2
    | GREEN => if green_duration l2 <=? timer l2 then switch_to YELLOW l2 else l2
    end = green_duration l2.
Proof.
  destruct (state l2);
    match goal with |- context [?a <=? ?b] => destruct (a <=? b) end; reflexivity.
Qed.

Lemma step_green (l : TrafficLightAgent) (env : option Env) :
  green_duration (step l env) = green_duration l
  \/ green_duration (step l env) = Z.max 15 (green_duration l - 5)
  \/ green_duration (step l env) = Z.min 45 (green_duration l + 1).
Proof.
  destruct (truthy env) as [e|] eqn:Et.
  - unfold step. rewrite Et.
    pose proof (analyze_traffic_green (with_timer (timer l + 1) l) e) as (H & _).
    cbv zeta in H.
    change (green_duration (with_timer (timer l + 1) l)) with (green_duration l) in H.
    rewrite phase_machine_green. tauto.
  - left. apply step_untuned_green, Et.
Qed.

(** X10. Adaptive tuning keeps the green duration clamped: a light whose
    green duration lies in [15, 45] still has it there after any run of
    ticks, whatever vehicle counts it is shown, and its red and yellow
    durations never change. *)
Theorem green_duration_stays_clamped (l : TrafficLightAgent) (envs : list (option Env)) :
  15 <= green_duration l <= 45 ->
  15 <= green_duration (run_light envs l) <= 45
  /\ red_duration (run_light envs l) = red_duration l
  /\ yellow_duration (run_light envs l) = yellow_duration l.
Proof.
  revert l. induction envs as [|env envs IH]; intros l Hg.
  - simpl. auto.
  - change (run_light (env :: envs) l) with (run_light envs (step l env)).
    destruct (step_transition l env) as (Hr & Hy & _).
    destruct (IH (step l env)) as (H1 & H2 & H3).
    { destruct (step_green l env) as [->| [->| ->]]; lia. }
    split; [exact H1|]. split; congruence.
Qed.

Lemma truthy_counts (a b : Z) : truthy (counts a b) = counts a b.
Proof.
  unfold truthy, counts. destruct (decide _) as [E|]; [|reflexivity].
  apply (f_equal (fun m => m !! "vehicles_ns")) in E. cbv beta in E.
  unfold Env in *. rewrite lookup_insert_eq, lookup_empty in E. discriminate.
Qed.

(** X11. How a light reads its environment: an empty dict is no
    environment at all (no tuning runs), while any non-empty dict is read
    through the two counts alone, a missing count standing for 0; so a
    dict holding neither count still tunes, as balanced traffic. *)
Theorem light_environment_reading (l : TrafficLightAgent) (e : Env) :
  step l (Some ∅) = step l None
  /\ (e <> ∅ ->
      step l (Some e)
      = step l (counts (default 0 (e !! "vehicles_ns")) (default 0 (e !! "vehicles_ew"))))
  /\ (e <> ∅ -> e !! "vehicles_ns" = None -> e !! "vehicles_ew" = None ->
      green_duration (step l (Some e)) = Z.min 45 (green_duration l + 1)).
Proof.
  assert (H0 : step l (Some ∅) = step l None).
  { unfold step, truthy. rewrite decide_True by reflexivity. reflexivity. }
  assert (H1 : e <> ∅ ->
      step l (Some e)
      = step l (counts (default 0 (e !! "vehicles_ns")) (default 0 (e !! "vehicles_ew")))).
  { intros He. unfold step. rewrite truthy_counts.
    unfold truthy. rewrite decide_False by exact He.
    unfold counts, _analyze_traffic. unfold Env in *.
    rewrite lookup_insert_eq, lookup_insert_ne by discriminate.
    rewrite lookup_insert_eq. reflexivity. }
  split; [exact H0|]. split; [exact H1|].
  intros He Hns Hew. rewrite (H1 He), Hns, Hew. cbn [default].
  unfold step. rewrite truthy_counts. unfold counts, _analyze_traffic.
  unfold Env in *.
  rewrite lookup_insert_eq, lookup_insert_ne by discriminate.
  rewrite lookup_insert_eq. cbn [default].
  change (3 * 0 <? 2 * 0) with false. cbn [andb].
  rewrite phase_machine_green. reflexivity.
Qed.

Lemma step_light_ok (l : TrafficLightAgent) (env : option Env) :
  light_ok l ->
  light_ok (step l env)
  /\ timer (step l env) < phase_duration (step l env) (state (step l env)).
Proof.
  intros (Ht & Hr & Hy & Hg & Hd).
  destruct (step_transition l env) as (Er & Ey & H).
  assert (Hg' : 1 <= green_duration (step l env))
    by (destruct (step_green l env) as [->| [->| ->]]; lia).
  cbv zeta in H.
  destruct (phase_duration (step l env) (state l) <=? timer l + 1) eqn:E.
  - destruct H as (Hs & Htm & Hdir).
    split.
    + unfold light_ok. rewrite Htm, Er, Ey, Hdir.
      repeat split; try lia; destruct (state l); simpl; lia.
    + rewrite Htm, Hs. destruct (state l); simpl; lia.
  - destruct H as (Hs & Htm & Hdir). apply Z.leb_gt in E.
    split.
    + unfold light_ok. rewrite Htm, Er, Ey, Hdir. repeat split; try lia; exact Hd.
    + rewrite Htm, Hs. exact E.
Qed.

(** X12. A light in a sound configuration stays in one through any run
    (timer not negative, durations at least one tick, direction flag 0 or
    1), and after every tick its timer is strictly below the duration of
    the phase it is in: a phase is never overdue at the end of a tick. *)
Theorem light_timer_below_duration (l : TrafficLightAgent)
    (envs : list (option Env)) (env : option Env) :
  light_ok l ->
  let l' := run_light (envs ++ [env]) l in
  light_ok l' /\ 0 <= timer l' < phase_duration l' (state l').
Proof.
  intros Hl. cbv zeta. unfold run_light. rewrite fold_left_app. simpl.
  assert (H : light_ok (fold_left step envs l)).
  { clear env. revert l Hl. induction envs as [|e envs IH]; intros l Hl; simpl.
    - exact Hl.
    - apply IH. apply step_light_ok, Hl. }
  destruct (step_light_ok _ env H) as (H1 & H2).
  split; [exact H1|]. split; [apply H1 | exact H2].
Qed.
End LightFurther.

Lemma green_duration_stays_clamped_witness :
  let l := (TrafficLight.init "TL-1" (1, 1) (Some TrafficLight.GREEN) []).1 in
  15 <= TrafficLight.green_duration l <= 45
  /\ 15 <= TrafficLight.green_duration (run_light (replicate 10 (counts 0 9)) l) <= 45.
Proof.
  intros l.
  assert (H : 15 <= TrafficLight.green_duration l <= 45) by (simpl; lia).
  split; [exact H|].
  exact (proj1 (green_duration_stays_clamped l (replicate 10 (counts 0 9)) H)).
Defined.

Lemma light_timer_below_duration_witness :
  let l := (TrafficLight.init "TL-1" (1, 1) (Some TrafficLight.RED) []).1 in
  light_ok l
  /\ light_ok (run_light (replicate 29 (counts 0 0) ++ [counts 0 0]) l).
Proof.
  intros l.
  assert (H : light_ok l) by (unfold light_ok; simpl; lia).
  split; [exact H|].
  exact (proj1 (light_timer_below_duration l (replicate 29 (counts 0 0)) (counts 0 0) H)).
Defined.

(** ** Vehicles *)

Section VehicleFurther.
Import Vehicle.

(** The cells of the L-shaped path, by index. *)
Lemma l_shaped_path_lookup (o d : Pos) (i : nat) :
  let a := Z.abs_nat (d.1 - o.1) in
  let b := Z.abs_nat (d.2 - o.2) in
  let sx := if o.1 <? d.1 then 1 else -1 in
  let sy := if o.2 <? d.2 then 1 else -1 in
  l_shaped_path o d !! i
  = if decide (i < a)%nat then Some (o.1 + sx * Z.of_nat (S i), o.2)
    else if decide (i < a + b)%nat then Some (d.1, o.2 + sy * Z.of_nat (S (i - a)))
    else None.
Proof.
  cbv zeta. unfold l_shaped_path.
  set (a := Z.abs_nat (d.1 - o.1)). set (b := Z.abs_nat (d.2 - o.2)).
  rewrite lookup_app, !list_lookup_fmap, !length_map, !length_seq.
  destruct (decide (i < a)%nat) as [Hi|Hi].
  - rewrite lookup_seq_lt by exact Hi. reflexivity.
  - rewrite lookup_seq_ge by lia. simpl.
    destruct (decide (i < a + b)%nat) as [Hj|Hj].
    + rewrite lookup_seq_lt by lia. simpl. repeat f_equal; lia.
    + rewrite lookup_seq_ge by lia. reflexivity.
Qed.

Lemma l_shaped_path_length (o d : Pos) :
  Z.of_nat (length (l_shaped_path o d)) = manhattan o d.
Proof.
  unfold l_shaped_path, manhattan.
  rewrite length_app, !length_map, !length_seq. lia.
Qed.

(** Every cell of the L-shaped path lies in the bounding box of its ends. *)
Lemma l_shaped_path_box (o d : Pos) :
  Forall (fun c => Z.min o.1 d.1 <= c.1 <= Z.max o.1 d.1
                   /\ Z.min o.2 d.2 <= c.2 <= Z.max o.2 d.2)
         (l_shaped_path o d).
Proof.
  destruct o as [ox oy], d as [dx dy].
  apply Forall_forall. intros c Hin.
  apply list_elem_of_lookup in Hin. destruct Hin as (i & Hi).
  rewrite l_shaped_path_lookup in Hi. simpl in Hi.
  destruct (decide _) as [H1|H1];
    [|destruct (decide _) as [H2|H2]; [|discriminate]];
    injection Hi as <-; simpl;
    destruct (Z.ltb_spec ox dx), (Z.ltb_spec oy dy); lia.
Qed.

(** X13. The precomputed path has as many cells as the Manhattan distance
    from origin to destination; it is empty when they coincide and ends at
    the destination otherwise; every cell lies in the bounding box of the
    two ends (so inside the grid when both ends are); and every cell is one
    unit step away from the cell before it, the first one from the
    origin. *)
Theorem simple_path_shape (fuel : nat) (origin destination : Pos) :
  (Z.abs_nat (destination.1 - origin.1) <= fuel)%nat ->
  (Z.abs_nat (destination.2 - origin.2) <= fuel)%nat ->
  exists path,
    _calculate_simple_path fuel origin destination = Ok path
    /\ Z.of_nat (length path) = manhattan origin destination
    /\ (origin = destination -> path = [])
    /\ (origin <> destination -> last path = Some destination)
    /\ Forall (fun c =>
                 Z.min origin.1 destination.1 <= c.1 <= Z.max origin.1 destination.1
                 /\ Z.min origin.2 destination.2 <= c.2 <= Z.max origin.2 destination.2)
              path
    /\ (forall i c c',
          (origin :: path) !! i = Some c -> path !! i = Some c' ->
          manhattan c c' = 1).
Proof.
  intros Hx Hy. exists (l_shaped_path origin destination).
  split; [apply calculate_simple_path_l_shaped; assumption|].
  split; [apply l_shaped_path_length|].
  destruct origin as [ox oy], destination as [dx dy]. simpl in *.
  split; [|split; [|split]].
  - intros [= -> ->]. unfold l_shaped_path. simpl.
    rewrite !Z.sub_diag. reflexivity.
  - intros Hne. rewrite last_lookup.
    pose proof (l_shaped_path_length (ox, oy) (dx, dy)) as HL.
    unfold manhattan in HL. simpl in HL.
    rewrite l_shaped_path_lookup. simpl.
    assert (Hpos : (0 < length (l_shaped_path (ox, oy) (dx, dy)))%nat).
    { destruct (decide (ox = dx)), (decide (oy = dy)); subst; try congruence; lia. }
    destruct (decide _) as [Hi|Hi].
    + f_equal. f_equal; destruct (Z.ltb_spec ox dx); lia.
    + destruct (decide _) as [Hj|Hj]; [|lia].
      f_equal. f_equal. destruct (Z.ltb_spec oy dy); lia.
  - exact (l_shaped_path_box (ox, oy) (dx, dy)).
  - intros i c c' Hc Hc'.
    rewrite l_shaped_path_lookup in Hc'. simpl in Hc'.
    destruct i as [|i].
    + injection Hc as <-. unfold manhattan.
      destruct (decide _) as [H1|H1];
        [|destruct (decide _) as [H2|H2]; [|discriminate]];
        injection Hc' as <-; simpl;
        destruct (Z.ltb_spec ox dx), (Z.ltb_spec oy dy); lia.
    + simpl in Hc. rewrite l_shaped_path_lookup in Hc. simpl in Hc.
      unfold manhattan.
      repeat (destruct (decide _) in Hc, Hc'); try discriminate; try lia;
        injection Hc as <-; injection Hc' as <-; simpl;
        destruct (Z.ltb_spec ox dx), (Z.ltb_spec oy dy); lia.
Qed.

(** Only the last cell of the path is the destination. *)
Lemma l_shaped_path_destination (o d c : Pos) (k : nat) :
  l_shaped_path o d !! k = Some c ->
  (c = d <-> S k = length (l_shaped_path o d)).
Proof.
  intros Hk.
  pose proof (l_shaped_path_length o d) as HL.
  destruct o as [ox oy], d as [dx dy].
  rewrite l_shaped_path_lookup in Hk. unfold manhattan in HL. simpl in Hk, HL.
  destruct (decide _) as [H1|H1];
    [|destruct (decide _) as [H2|H2]; [|discriminate]];
    injection Hk as <-; split.
  - intros [= E1 E2]. destruct (Z.ltb_spec ox dx); lia.
  - intros E. f_equal; destruct (Z.ltb_spec ox dx); lia.
  - intros [= E2]. destruct (Z.ltb_spec oy dy); lia.
  - intros E. f_equal. destruct (Z.ltb_spec oy dy); lia.
Qed.

Lemma drive_en_route (agent_id : string) (origin destination : Pos) (grid_size : Z)
    (rng : Random.Rng) (k : nat) :
  origin <> destination ->
  let route := l_shaped_path origin destination in
  (k <= length route)%nat ->
  drive k (en_route agent_id origin destination grid_size route 0) rng
  = (en_route agent_id origin destination grid_size route k, rng).
Proof.
  intros Hne route. induction k as [|k IH]; intros Hk; [reflexivity|].
  change (drive (S k) ?v rng) with (let '(v1, r1) := drive k v rng in step v1 open_road r1).
  rewrite IH by lia. clear IH.
  destruct (lookup_lt_is_Some_2 route k) as [c Hc]; [lia|].
  pose proof (l_shaped_path_destination origin destination c k Hc) as Hdest.
  fold route in Hdest.
  assert (Hstep : forall v, state v <> ARRIVED ->
            step v open_road rng
            = (advance (with_total_travel_time (total_travel_time v + 1) v), rng)).
  { intros v Hv. unfold step. cbv zeta.
    destruct (decide _) as [E|_]; [destruct v; simpl in *; contradiction|].
    reflexivity. }
  clearbody route.
  rewrite Hstep.
  2:{ unfold en_route. simpl.
      destruct (Nat.ltb_spec k (length route)); [discriminate | lia]. }
  unfold en_route, advance. simpl.
  destruct (Nat.ltb_spec k (length route)); [|lia].
  simpl. rewrite Hc. simpl.
  replace (k + 1)%nat with (S k) by lia.
  replace (Z.of_nat k + 1) with (Z.of_nat (S k)) by lia.
  destruct (pos_eqb c destination) eqn:E.
  - apply pos_eqb_eq in E. apply Hdest in E.
    destruct (Nat.ltb_spec (S k) (length route)); [lia|]. reflexivity.
  - apply pos_eqb_neq in E.
    destruct (Nat.ltb_spec (S k) (length route)); [reflexivity|].
    exfalso. apply E, Hdest. lia.
Qed.

(** X14. On an open road (no light and no congestion record in any
    tick) a vehicle created for a destination other than its origin is
    MOVING for the first [n - 1] ticks and ARRIVED at its destination after
    exactly [n] ticks, [n] being the Manhattan distance; it then shows a
    travel time of [n], no stop and no waiting, and has drawn no random
    number. *)
Theorem open_road_arrival (fuel : nat) (agent_id : string)
    (origin destination : Pos) (grid_size : Z) (rng : Random.Rng) :
  (Z.abs_nat (destination.1 - origin.1) <= fuel)%nat ->
  (Z.abs_nat (destination.2 - origin.2) <= fuel)%nat ->
  origin <> destination ->
  exists v0,
    init fuel agent_id origin destination grid_size = Ok v0
    /\ let n := Z.to_nat (manhattan origin destination) in
       (forall k, (k < n)%nat ->
          state (drive k v0 rng).1 = MOVING
          /\ path_index (drive k v0 rng).1 = k)
       /\ state (drive n v0 rng).1 = ARRIVED
       /\ position (drive n v0 rng).1 = destination
       /\ total_travel_time (drive n v0 rng).1 = manhattan origin destination
       /\ stops (drive n v0 rng).1 = 0
       /\ waiting_time (drive n v0 rng).1 = 0
       /\ (drive n v0 rng).2 = rng.
Proof.
  intros Hx Hy Hne.
  set (route := l_shaped_path origin destination).
  pose proof (l_shaped_path_length origin destination) as HL. fold route in HL.
  assert (Hpos : (0 < length route)%nat).
  { assert (length route <> 0%nat); [|lia].
    intros E. apply Hne. destruct origin, destination. unfold manhattan in HL.
    simpl in HL. f_equal; lia. }
  exists (en_route agent_id origin destination grid_size route 0).
  split.
  { unfold init. rewrite calculate_simple_path_l_shaped by assumption.
    fold route. unfold en_route.
    destruct (Nat.ltb_spec 0 (length route)); [reflexivity | lia]. }
  cbv zeta.
  replace (Z.to_nat (manhattan origin destination)) with (length route) by lia.
  split.
  - intros k Hk.
    pose proof (drive_en_route agent_id origin destination grid_size rng k Hne) as D.
    cbv zeta in D. fold route in D. rewrite D by lia. simpl. destruct (Nat.ltb_spec k (length route)); [auto | lia].
  - pose proof (drive_en_route agent_id origin destination grid_size rng
                  (length route) Hne) as D.
    cbv zeta in D. fold route in D. rewrite D by lia. simpl. rewrite Nat.ltb_irrefl.
    repeat split; try lia.
    destruct (lookup_lt_is_Some_2 route (length route - 1)) as [c Hc]; [lia|].
    pose proof (l_shaped_path_destination origin destination c _ Hc) as Hd.
    fold route in Hd. clearbody route.
    destruct (length route) as [|m] eqn:Em; [lia|].
    replace (S m - 1)%nat with m in * by lia.
    change ((origin :: route) !! S m) with (route !! m).
    rewrite Hc. simpl. apply Hd. reflexivity.
Qed.
End VehicleFurther.

Lemma simple_path_shape_witness :
  let origin : Pos := (3, 1) in
  let destination : Pos := (0, 2) in
  (Z.abs_nat (destination.1 - origin.1) <= 3)%nat
  /\ (Z.abs_nat (destination.2 - origin.2) <= 3)%nat
  /\ exists path,
       Vehicle._calculate_simple_path 3 origin destination = Ok path
       /\ Z.of_nat (length path) = manhattan origin destination.
Proof.
  intros origin destination.
  assert (Hx : (Z.abs_nat (destination.1 - origin.1) <= 3)%nat) by (vm_compute; lia).
  assert (Hy : (Z.abs_nat (destination.2 - origin.2) <= 3)%nat) by (vm_compute; lia).
  split; [exact Hx|]. split; [exact Hy|].
  destruct (simple_path_shape 3 origin destination Hx Hy) as (path & Hp & Hl & _).
  exists path. split; [exact Hp | exact Hl].
Defined.

Lemma open_road_arrival_witness :
  let origin : Pos := (3, 1) in
  let destination : Pos := (0, 2) in
  (Z.abs_nat (destination.1 - origin.1) <= 3)%nat
  /\ (Z.abs_nat (destination.2 - origin.2) <= 3)%nat
  /\ origin <> destination
  /\ exists v0,
       Vehicle.init 3 "V-1" origin destination 5 = Ok v0
       /\ Vehicle.state (drive 4 v0 []).1 = Vehicle.ARRIVED.
Proof.
  intros origin destination.
  assert (Hx : (Z.abs_nat (destination.1 - origin.1) <= 3)%nat) by (vm_compute; lia).
  assert (Hy : (Z.abs_nat (destination.2 - origin.2) <= 3)%nat) by (vm_compute; lia).
  assert (Hne : origin <> destination) by discriminate.
  split; [exact Hx|]. split; [exact Hy|]. split; [exact Hne|].
  destruct (open_road_arrival 3 "V-1" origin destination 5 [] Hx Hy Hne)
    as (v0 & Hinit & _ & Harr & _).
  exists v0. split; [exact Hinit | exact Harr].
Defined.

Section VehicleRerouting.
Import Vehicle.

Lemma choice_ne_elem {A} (x : A) (l : list A) (r : Random.Rng) :
  (Random.choice_ne x l r).1 ∈ x :: l.
Proof.
  unfold Random.choice_ne.
  destruct (Random.randbelow _ r) as [k r'] eqn:E. cbn [fst].
  destruct ((x :: l) !! Z.to_nat k) as [a|] eqn:El; cbn [default].
  - eapply list_elem_of_lookup_2; eauto.
  - left.
Qed.

Lemma try_detour_neighbour (attempts : nat) (grid_size : Z) (current detour : Pos)
    (rng rng' : Random.Rng) :
  try_detour attempts grid_size current rng = (Some detour, rng') ->
  cell_in_grid grid_size detour = true /\ manhattan current detour = 1.
Proof.
  revert rng. induction attempts as [|n IH]; intros rng H; [discriminate|].
  cbn [try_detour] in H.
  pose proof (choice_ne_elem ((0, 1) : Z * Z) [(1, 0); (0, -1); (-1, 0)] rng) as Hin.
  destruct (Random.choice_ne _ _ rng) as [[dx dy] r1]. cbn [fst] in Hin.
  destruct (cell_in_grid grid_size (current.1 + dx, current.2 + dy)) eqn:Hc.
  - injection H as <- <-. split; [exact Hc|].
    destruct current as [cx cy]. unfold manhattan. cbn [fst snd].
    repeat (apply elem_of_cons in Hin as [Hin|Hin]; [injection Hin as -> ->; lia|]).
    inversion Hin.
  - eauto.
Qed.

Lemma detour_loop_spec (grid_size : Z) (remaining : list Pos) :
  forall (current : Pos) (new_path : list Pos) (rng : Random.Rng),
  exists added,
    (detour_loop grid_size remaining current new_path rng).1 = new_path ++ added
    /\ sublist remaining added
    /\ (length added <= 2 * length remaining)%nat
    /\ last added = last remaining
    /\ Forall (fun c => c ∈ remaining \/ cell_in_grid grid_size c = true) added.
Proof.
  induction remaining as [|next rest IH]; intros current new_path rng.
  - exists []. cbn. rewrite app_nil_r. repeat split; auto.
  - cbn [detour_loop].
    destruct (Random.random rng) as [u r1].
    assert (Hwiden : forall added,
               Forall (fun c => c ∈ rest \/ cell_in_grid grid_size c = true) added ->
               Forall (fun c => c ∈ next :: rest \/ cell_in_grid grid_size c = true) added).
    { intros added Hadded. eapply Forall_impl; [exact Hadded|].
      intros c [Hc|Hc]; [left; right; exact Hc | right; exact Hc]. }
    destruct (Random.Qltb u (2 # 10)).
    + destruct (try_detour 3 grid_size current r1) as [[detour|] r2] eqn:Ed.
      * destruct (IH next ((new_path ++ [detour]) ++ [next]) r2)
          as (added & -> & Hs & Hl & Hlast & Hall).
        exists (detour :: next :: added). repeat split.
        -- rewrite <- !app_assoc. reflexivity.
        -- apply sublist_cons, sublist_skip, Hs.
        -- cbn [length]. lia.
        -- rewrite (last_cons detour), !(last_cons next), Hlast.
           destruct (last rest); reflexivity.
        -- constructor; [right; eapply try_detour_neighbour; eauto|].
           constructor; [left; left | auto].
      * destruct (IH next (new_path ++ [next]) r2) as (added & -> & Hs & Hl & Hlast & Hall).
        exists (next :: added). repeat split.
        -- rewrite <- !app_assoc. reflexivity.
        -- apply sublist_skip, Hs.
        -- cbn [length]. lia.
        -- rewrite !(last_cons next), Hlast. reflexivity.
        -- constructor; [left; left | auto].
    + destruct (IH next (new_path ++ [next]) r1) as (added & -> & Hs & Hl & Hlast & Hall).
      exists (next :: added). repeat split.
      -- rewrite <- !app_assoc. reflexivity.
      -- apply sublist_skip, Hs.
      -- cbn [length]. lia.
      -- rewrite !(last_cons next), Hlast. reflexivity.
      -- constructor; [left; left | auto].
Qed.

Lemma recalculate_path_route (v : VehicleAgent) (rng : Random.Rng) :
  let v' := (_recalculate_path v rng).1 in
  v' = with_path (path v') v
  /\ take (path_index v) (path v') = take (path_index v) (path v)
  /\ sublist (drop (path_index v) (path v)) (drop (path_index v) (path v'))
  /\ (length (path v) <= length (path v')
      <= length (path v) + (length (path v) - path_index v))%nat
  /\ last (path v') = last (path v)
  /\ Forall (fun c => c ∈ path v \/ cell_in_grid (grid_size v) c = true) (path v').
Proof.
  unfold _recalculate_path.
  destruct (detour_loop_spec (grid_size v) (drop (path_index v) (path v))
              (position v) [] rng) as (added & Ha & Hs & Hl & Hlast & Hall).
  destruct (detour_loop _ _ _ _ rng) as [new_path r1]. cbn [fst] in Ha. subst new_path.
  cbn [app fst]. destruct v as [a p d g s pth i w t st sp]. cbn [path path_index grid_size with_path] in *.
  assert (Hnil : drop i pth = [] -> added = []).
  { intros E. rewrite E in Hl. destruct added; [reflexivity | simpl in Hl; lia]. }
  rewrite length_drop in Hl.
  pose proof (sublist_length _ _ Hs) as Hlen. rewrite length_drop in Hlen.
  destruct (decide (i <= length pth)%nat) as [Hi|Hi].
  - assert (Htake : length (take i pth) = i) by (rewrite length_take; lia).
    split; [reflexivity|]. split.
    { rewrite take_app_length'; auto. }
    split.
    { rewrite drop_app_length'; auto. }
    split.
    { rewrite length_app, Htake. lia. }
    split.
    { rewrite <- (take_drop i pth) at 2.
      destruct (drop i pth) as [|c rest] eqn:Erest.
      - rewrite Hnil by reflexivity. reflexivity.
      - destruct added as [|c' added]; [inversion Hs|].
        rewrite !last_app, Hlast. reflexivity. }
    apply Forall_app. split.
    + apply Forall_forall. intros c Hc. left. exact (subseteq_take i pth c Hc).
    + eapply Forall_impl; [exact Hall|]. intros c [Hc|Hc]; [left | right; exact Hc].
      exact (subseteq_drop i pth c Hc).
  - assert (Hd : drop i pth = []) by (apply drop_ge; lia).
    rewrite (Hnil Hd). rewrite Hd in *.
    rewrite app_nil_r, take_ge by lia.
    split; [reflexivity|]. split; [rewrite take_ge by lia; reflexivity|].
    split; [rewrite Hd; constructor|].
    split; [lia|]. split; [reflexivity|].
    apply Forall_forall. intros c Hc. left. exact Hc.
Qed.

Lemma detour_loop_detours (grid_size : Z) (remaining : list Pos) :
  forall (current : Pos) (new_path : list Pos) (rng : Random.Rng),
  exists detours,
    length detours = length remaining
    /\ (detour_loop grid_size remaining current new_path rng).1
       = new_path ++ with_detours detours remaining
    /\ forall k d,
         detours !! k = Some (Some d) ->
         exists before,
           (current :: remaining) !! k = Some before
           /\ manhattan before d = 1
           /\ cell_in_grid grid_size d = true.
Proof.
  induction remaining as [|next rest IH]; intros current new_path rng.
  - exists []. cbn. rewrite app_nil_r. repeat split; auto.
    intros k d H. rewrite lookup_nil in H. discriminate.
  - cbn [detour_loop].
    destruct (Random.random rng) as [u r1].
    assert (Hkeep : forall acc r,
              exists detours,
                length detours = length (next :: rest)
                /\ (detour_loop grid_size rest next (acc ++ [next]) r).1
                   = acc ++ with_detours detours (next :: rest)
                /\ forall k d,
                     detours !! k = Some (Some d) ->
                     exists before,
                       (current :: next :: rest) !! k = Some before
                       /\ manhattan before d = 1
                       /\ cell_in_grid grid_size d = true).
    { intros acc r. destruct (IH next (acc ++ [next]) r) as (detours & Hl & -> & Hd).
      exists (None :: detours). cbn [length]. split; [lia|].
      split; [unfold with_detours; cbn; rewrite <- app_assoc; reflexivity|].
      intros [|k] d H; [discriminate|]. exact (Hd k d H). }
    destruct (Random.Qltb u (2 # 10)); [|apply Hkeep].
    destruct (try_detour 3 grid_size current r1) as [[detour|] r2] eqn:Ed;
      [|apply Hkeep].
    destruct (IH next ((new_path ++ [detour]) ++ [next]) r2) as (detours & Hl & -> & Hd).
    exists (Some detour :: detours). cbn [length]. split; [lia|].
    split; [unfold with_detours; cbn; rewrite <- !app_assoc; reflexivity|].
    intros [|k] d H.
    + injection H as <-. exists current. split; [reflexivity|].
      destruct (try_detour_neighbour _ _ _ _ _ _ Ed) as (Hg & Hm). auto.
    + exact (Hd k d H).
Qed.

(** X15. Rerouting changes nothing but the path, and of the path only the
    part not yet driven: the cells already consumed stay as they are, and
    the cells still to be visited are kept in their order with at most one
    cell inserted before each of them.  An inserted cell lies in the grid,
    one unit step from the cell the vehicle is on when it gets there (its
    position for the first remaining cell, the remaining cell before
    otherwise).  So the path still ends in the same cell and grows by at
    most the number of remaining cells. *)
Theorem recalculate_path_keeps_route (v : VehicleAgent) (rng : Random.Rng) :
  let v' := (_recalculate_path v rng).1 in
  let remaining := drop (path_index v) (path v) in
  v' = with_path (path v') v
  /\ (exists detours,
        length detours = length remaining
        /\ path v' = take (path_index v) (path v) ++ with_detours detours remaining
        /\ forall k d,
             detours !! k = Some (Some d) ->
             exists before,
               (position v :: remaining) !! k = Some before
               /\ manhattan before d = 1
               /\ cell_in_grid (grid_size v) d = true)
  /\ take (path_index v) (path v') = take (path_index v) (path v)
  /\ sublist remaining (drop (path_index v) (path v'))
  /\ (length (path v) <= length (path v') <= length (path v) + length remaining)%nat
  /\ last (path v') = last (path v).
Proof.
  cbv zeta.
  destruct (recalculate_path_route v rng) as (H1 & H2 & H3 & H4 & H5 & _).
  split; [exact H1|]. split; [|split; [exact H2|split; [exact H3|split; [|exact H5]]]].
  - unfold _recalculate_path.
    destruct (detour_loop_detours (grid_size v) (drop (path_index v) (path v))
                (position v) [] rng) as (detours & Hl & Hp & Hd).
    destruct (detour_loop _ _ _ _ rng) as [new_path r1]. cbn [fst app] in *.
    exists detours. subst new_path. destruct v; cbn in *. auto.
  - rewrite length_drop. exact H4.
Qed.
End VehicleRerouting.

Section VehicleTicks.
Import Vehicle.

Lemma lights_loop_blocked (v : VehicleAgent) (lights : list TrafficLight.View) :
  lights_loop v lights
  = if existsb (blocks v) lights
    then Some (with_waiting_time (waiting_time v + 1) (with_state WAITING v))
    else None.
Proof.
  induction lights as [|light rest IH]; [reflexivity|].
  cbn [lights_loop existsb]. fold (blocks v light).
  destruct (blocks v light); [reflexivity | exact IH].
Qed.

Lemma existsb_true_elem {A} (f : A -> bool) (l : list A) (x : A) :
  x ∈ l -> f x = true -> existsb f l = true.
Proof.
  intros Hin Hf. apply existsb_exists. exists x. split; [|exact Hf].
  apply list_elem_of_In. exact Hin.
Qed.

Lemma existsb_false_all {A} (f : A -> bool) (l : list A) :
  (forall x, x ∈ l -> f x = false) -> existsb f l = false.
Proof.
  intros H. induction l as [|a l IH]; [reflexivity|].
  cbn [existsb]. rewrite (H a) by left. apply IH. intros x Hx. apply H. right. exact Hx.
Qed.

Lemma blocks_travel_time (v : VehicleAgent) (t : Z) (light : TrafficLight.View) :
  blocks (with_total_travel_time t v) light = blocks v light.
Proof. destruct v. reflexivity. Qed.

Lemma congestion_loop_clear (areas : list CongestionArea) (v : VehicleAgent)
    (rng : Random.Rng) :
  (forall area, area ∈ areas -> severe v area = false) ->
  congestion_loop v areas rng = (false, v, rng).
Proof.
  induction areas as [|area rest IH]; intros H; [reflexivity|].
  cbn [congestion_loop]. fold (severe v area). rewrite (H area) by left.
  apply IH. intros a Ha. apply H. right. exact Ha.
Qed.

(** X16. A vehicle under way that finds, anywhere in the list of lights,
    a light on its own cell that is red for it does not move in this tick:
    it becomes WAITING, its waiting time and travel time grow by one, its
    position, path and path index stay, and no random number is drawn,
    whatever the congestion records say. *)
Theorem blocking_light_stops_vehicle (v : VehicleAgent) (env : option Env)
    (rng : Random.Rng) (light : TrafficLight.View) :
  state v <> ARRIVED ->
  light ∈ lights_of env ->
  blocks v light = true ->
  step v env rng
  = (with_waiting_time (waiting_time v + 1)
       (with_state WAITING (with_total_travel_time (total_travel_time v + 1) v)),
     rng).
Proof.
  intros Hs Hin Hb. unfold step. cbv zeta.
  destruct (decide _) as [E|_]; [destruct v; simpl in *; contradiction|].
  rewrite lights_loop_blocked.
  fold (lights_of env).
  rewrite (existsb_true_elem _ _ light Hin) by (rewrite blocks_travel_time; exact Hb).
  destruct v; reflexivity.
Qed.

Lemma step_clear_road (v : VehicleAgent) (env : option Env) (rng : Random.Rng) :
  state v <> ARRIVED ->
  (forall light, light ∈ lights_of env -> blocks v light = false) ->
  (forall area, area ∈ areas_of env -> severe v area = false) ->
  step v env rng
  = (advance (with_total_travel_time (total_travel_time v + 1) v), rng).
Proof.
  intros Hs Hl Ha. unfold step. cbv zeta.
  destruct (decide _) as [E|_]; [destruct v; simpl in *; contradiction|].
  rewrite lights_loop_blocked. fold (lights_of env) (areas_of env).
  rewrite existsb_false_all by (intros l Hin; rewrite blocks_travel_time; auto).
  rewrite congestion_loop_clear; [reflexivity|].
  intros a Hin. destruct v. apply (Ha a Hin).
Qed.

(** X17. A vehicle that has not ARRIVED and finds no blocking light on its
    cell and no congestion record above level 7 on its cell draws no
    random number in this tick, and congestion of level 7 or less, or
    elsewhere, has no effect.  If its path holds a cell at the path index,
    the vehicle moves onto that cell and the index grows by one; it is then
    ARRIVED if that cell is its destination and MOVING otherwise.  If the
    path is exhausted, the vehicle becomes ARRIVED where it stands.  In both
    cases the travel time grows by one, the waiting time stays, and a stop
    is counted exactly when the vehicle was WAITING. *)
Theorem clear_road_advances_vehicle (v : VehicleAgent) (env : option Env)
    (rng : Random.Rng) :
  state v <> ARRIVED ->
  (forall light, light ∈ lights_of env -> blocks v light = false) ->
  (forall area, area ∈ areas_of env -> severe v area = false) ->
  step v env rng
  = (match path v !! path_index v with
     | Some next =>
         mkVehicle (agent_id v) next (destination v) (grid_size v)
                   (if pos_eqb next (destination v) then ARRIVED else MOVING)
                   (path v) (path_index v + 1) (waiting_time v)
                   (total_travel_time v + 1)
                   (if decide (state v = WAITING) then stops v + 1 else stops v)
                   (speed v)
     | None =>
         mkVehicle (agent_id v) (position v) (destination v) (grid_size v)
                   ARRIVED (path v) (path_index v) (waiting_time v)
                   (total_travel_time v + 1)
                   (if decide (state v = WAITING) then stops v + 1 else stops v)
                   (speed v)
     end, rng).
Proof.
  intros Hs Hl Ha. rewrite (step_clear_road v env rng Hs Hl Ha). f_equal.
  destruct v as [a p d g s pth i w t st sp]. unfold advance. cbn.
  destruct (decide (s = WAITING)); cbn;
    (destruct (pth !! i) as [next|]; cbn; [destruct (pos_eqb next d)|]; reflexivity).
Qed.

Lemma congestion_loop_ticked (areas : list CongestionArea) :
  forall (v : VehicleAgent) (rng : Random.Rng),
  exists waited v' rng',
    congestion_loop v areas rng = (waited, v', rng') /\ ticked waited v v'.
Proof.
  induction areas as [|area rest IH]; intros v rng.
  - exists false, v, rng. split; [reflexivity|].
    unfold ticked. repeat split; auto; try lia.
    apply Forall_forall. intros c Hc. left. exact Hc.
  - cbn [congestion_loop].
    destruct (pos_eqb (area_position area) (position v) && (7 <? area_level area)).
    2:{ apply IH. }
    destruct (Random.random rng) as [u r1].
    destruct (Random.Qltb u (3 # 10)).
    + pose proof (recalculate_path_route (with_state REROUTING v) r1) as R.
      destruct (_recalculate_path (with_state REROUTING v) r1) as [v1 r2].
      cbn [fst] in R. destruct R as (Rv & Rt & _ & Rl & _ & Rall).
      destruct (IH (with_state MOVING v1) r2) as (waited & v' & rng' & -> & T).
      exists waited, v', rng'. split; [reflexivity|].
      rewrite Rv in T. clear Rv. destruct v as [a p d g s pth i w t st sp].
      unfold ticked in *. cbn in *.
      destruct T as (T1 & T2 & T3 & T4 & T5 & T6 & T7 & T8 & T9 & T10 & T11 & T12 & T13).
      repeat split; auto; try lia.
      * rewrite <- Rt, <- T10. reflexivity.
      * apply Forall_forall. intros c Hc.
        rewrite Forall_forall in T12, Rall.
        destruct (T12 c Hc) as [Hc1|Hc1]; [apply (Rall c Hc1) | right; exact Hc1].
      * destruct T13 as [->|[E|E]]; auto.
    + exists true, (with_waiting_time (waiting_time v + 1) v), r1.
      split; [reflexivity|]. destruct v. unfold ticked. cbn.
      repeat split; auto; try lia.
      apply Forall_forall. intros c Hc. left. exact Hc.
Qed.

Lemma advance_spec (v : VehicleAgent) :
  let v' := advance v in
  agent_id v' = agent_id v
  /\ destination v' = destination v
  /\ grid_size v' = grid_size v
  /\ speed v' = speed v
  /\ path v' = path v
  /\ waiting_time v' = waiting_time v
  /\ total_travel_time v' = total_travel_time v
  /\ stops v <= stops v' <= stops v + 1
  /\ (path v !! path_index v = Some (position v') /\ path_index v' = S (path_index v)
      \/ path v !! path_index v = None /\ position v' = position v
         /\ path_index v' = path_index v /\ state v' = ARRIVED).
Proof.
  destruct v as [a p d g s pth i w t st sp]. unfold advance. cbn.
  destruct (decide (s = WAITING)); cbn;
    (destruct (pth !! i) as [next|] eqn:E; cbn;
     [destruct (pos_eqb next d); cbn;
      repeat split; try lia; left; (split; [reflexivity | lia])
     | repeat split; try lia; right; auto]).
Qed.

Lemma step_cases (v : VehicleAgent) (env : option Env) (rng : Random.Rng) :
  let v0 := with_total_travel_time (total_travel_time v + 1) v in
  let v' := (step v env rng).1 in
  v' = v0
  \/ v' = with_waiting_time (waiting_time v0 + 1) (with_state WAITING v0)
  \/ (exists waited v1, ticked waited v0 v1
        /\ (waited = true /\ v' = v1 \/ waited = false /\ v' = advance v1)).
Proof.
  cbv zeta. unfold step. cbv zeta.
  set (v0 := with_total_travel_time (total_travel_time v + 1) v).
  destruct (decide _) as [E|_]; [left; reflexivity|].
  destruct (lights_loop v0 _) as [w|] eqn:El.
  - right; left. rewrite lights_loop_blocked in El.
    destruct (existsb _ _); [|discriminate]. injection El as <-. reflexivity.
  - right; right.
    destruct (congestion_loop_ticked (default [] (env ≫= congestion)) v0 rng)
      as (waited & v1 & rng' & -> & T).
    exists waited, v1. split; [exact T|].
    destruct waited; [left | right]; split; reflexivity.
Qed.

(** X18. What a tick can do to a vehicle, whatever the environment and
    the random draws: identifier, destination, grid size and speed stay; the
    path index, the waiting time and the stop counter each stay or grow by
    one; the part of the path already driven is never rewritten and the path
    never shrinks; and either the vehicle stays on its cell with its path
    index, or it has moved to the cell its (possibly rerouted) path holds at
    the old index, without having waited. *)
Theorem step_progress (v : VehicleAgent) (env : option Env) (rng : Random.Rng) :
  let v' := (step v env rng).1 in
  agent_id v' = agent_id v
  /\ destination v' = destination v
  /\ grid_size v' = grid_size v
  /\ speed v' = speed v
  /\ (path_index v <= path_index v' <= path_index v + 1)%nat
  /\ waiting_time v <= waiting_time v' <= waiting_time v + 1
  /\ stops v <= stops v' <= stops v + 1
  /\ take (path_index v) (path v') = take (path_index v) (path v)
  /\ (length (path v) <= length (path v'))%nat
  /\ (position v' = position v /\ path_index v' = path_index v
      \/ path v' !! path_index v = Some (position v')
         /\ path_index v' = S (path_index v)
         /\ waiting_time v' = waiting_time v).
Proof.
  cbv zeta.
  destruct (step_cases v env rng) as [->|[->|(waited & v1 & T & Hv)]].
  - destruct v; cbn. repeat split; try lia. left. auto.
  - destruct v; cbn. repeat split; try lia. left. auto.
  - unfold ticked in T.
    destruct T as (T1 & T2 & T3 & T4 & T5 & T6 & T7 & T8 & T9 & T10 & T11 & T12 & T13).
    destruct Hv as [[-> ->]|[-> ->]].
    + destruct v; cbn in *.
      repeat split; try congruence; try lia.
      left. auto.
    + destruct (advance_spec v1) as (A1 & A2 & A3 & A4 & A5 & A6 & A7 & A8 & A9).
      destruct v as [a p d g s pth i w t st sp]; cbn in *.
      rewrite A1, A2, A3, A4, A5, A6.
      assert (Hi : (i <= path_index (advance v1) <= i + 1)%nat).
      { destruct A9 as [[_ ->]|(_ & _ & -> & _)]; lia. }
      repeat split; try congruence; try lia.
      destruct A9 as [[Hc Hi']|(_ & Hp & Hi' & _)].
      * right. rewrite T6 in Hc. repeat split; [exact Hc | lia | lia].
      * left. split; congruence.
Qed.

Lemma ticked_on_grid (waited : bool) (v v' : VehicleAgent) :
  ticked waited v v' -> on_grid v -> on_grid v'.
Proof.
  unfold ticked, on_grid.
  intros (T1 & T2 & T3 & T4 & T5 & T6 & T7 & T8 & T9 & T10 & T11 & T12 & T13) [Hp Hpath].
  rewrite T3, T5. split; [exact Hp|].
  apply Forall_forall. intros c Hc.
  rewrite Forall_forall in T12, Hpath.
  destruct (T12 c Hc) as [H|H]; [apply Hpath, H | exact H].
Qed.

Lemma advance_on_grid (v : VehicleAgent) : on_grid v -> on_grid (advance v).
Proof.
  unfold on_grid. intros [Hp Hpath].
  destruct (advance_spec v) as (A1 & A2 & A3 & A4 & A5 & A6 & A7 & A8 & A9).
  rewrite A3, A5. split; [|exact Hpath].
  destruct A9 as [[Hc _]|(_ & -> & _)]; [|exact Hp].
  rewrite Forall_forall in Hpath. apply Hpath.
  eapply list_elem_of_lookup_2. exact Hc.
Qed.

Lemma step_on_grid (v : VehicleAgent) (env : option Env) (rng : Random.Rng) :
  on_grid v -> on_grid (step v env rng).1.
Proof.
  intros H.
  assert (H0 : on_grid (with_total_travel_time (total_travel_time v + 1) v))
    by (destruct v; exact H).
  destruct (step_cases v env rng) as [->|[->|(waited & v1 & T & Hv)]].
  - exact H0.
  - destruct v; exact H.
  - pose proof (ticked_on_grid _ _ _ T H0) as H1.
    destruct Hv as [[_ ->]|[_ ->]]; [exact H1 | apply advance_on_grid, H1].
Qed.

Lemma travel_on_grid (envs : list (option Env)) :
  forall (v : VehicleAgent) (rng : Random.Rng),
  on_grid v -> on_grid (travel envs v rng).1.
Proof.
  induction envs as [|env envs IH]; intros v rng H; [exact H|].
  unfold travel. cbn [fold_left].
  pose proof (step_on_grid v env rng H) as H1.
  destruct (step v env rng) as [v1 r1]. apply IH. exact H1.
Qed.

(** X19. A vehicle created with its start and its destination inside the
    grid never leaves the grid: after any number of ticks, in any
    environments and with any random draws, its position and every cell of
    its path, detours included, lie in the grid. *)
Theorem vehicle_stays_on_grid (fuel : nat) (agent_id : string)
    (origin destination : Pos) (grid_size : Z) :
  (Z.abs_nat (destination.1 - origin.1) <= fuel)%nat ->
  (Z.abs_nat (destination.2 - origin.2) <= fuel)%nat ->
  cell_in_grid grid_size origin = true ->
  cell_in_grid grid_size destination = true ->
  exists v0,
    init fuel agent_id origin destination grid_size = Ok v0
    /\ forall envs rng, on_grid (travel envs v0 rng).1.
Proof.
  intros Hx Hy Ho Hd. unfold init.
  rewrite calculate_simple_path_l_shaped by assumption.
  eexists. split; [reflexivity|].
  intros envs rng. apply travel_on_grid. split; [exact Ho|]. cbn.
  eapply Forall_impl; [apply l_shaped_path_box|].
  intros c [H1 H2]. unfold cell_in_grid in *.
  destruct origin as [ox oy], destination as [dx dy], c as [cx cy]. cbn in *.
  repeat (apply andb_prop in Ho as [Ho ?]). repeat (apply andb_prop in Hd as [Hd ?]).
  repeat (apply andb_true_intro; split); lia.
Qed.
End VehicleTicks.

Lemma blocking_light_stops_vehicle_witness :
  let light := TrafficLight.mkView "TL-1" (1, 1) TrafficLight.RED
                 TrafficLight.North_South 3 0 in
  let env := Some (Vehicle.mkEnv (Some [light]) (Some [Vehicle.mkArea (1, 1) 9])) in
  Vehicle.state sample_vehicle <> Vehicle.ARRIVED
  /\ light ∈ lights_of env
  /\ blocks sample_vehicle light = true
  /\ Vehicle.state (Vehicle.step sample_vehicle env [5%N]).1 = Vehicle.WAITING.
Proof.
  intros light env.
  assert (H1 : Vehicle.state sample_vehicle <> Vehicle.ARRIVED) by discriminate.
  assert (H2 : light ∈ lights_of env) by left.
  assert (H3 : blocks sample_vehicle light = true) by reflexivity.
  split; [exact H1|]. split; [exact H2|]. split; [exact H3|].
  rewrite (blocking_light_stops_vehicle sample_vehicle env [5%N] light H1 H2 H3).
  reflexivity.
Defined.

Lemma clear_road_advances_vehicle_witness :
  let light := TrafficLight.mkView "TL-1" (1, 1) TrafficLight.GREEN
                 TrafficLight.East_West 3 0 in
  let env := Some (Vehicle.mkEnv (Some [light]) (Some [Vehicle.mkArea (1, 1) 7])) in
  Vehicle.state sample_vehicle <> Vehicle.ARRIVED
  /\ (forall l, l ∈ lights_of env -> blocks sample_vehicle l = false)
  /\ (forall a, a ∈ areas_of env -> severe sample_vehicle a = false)
  /\ Vehicle.step sample_vehicle env [5%N]
     = (Vehicle.mkVehicle "V-1" (2, 1) (3, 1) 5 Vehicle.MOVING [(2, 1); (3, 1)]
                          1 0 1 0 1, [5%N]).
Proof.
  intros light env.
  assert (H1 : Vehicle.state sample_vehicle <> Vehicle.ARRIVED) by discriminate.
  assert (H2 : forall l, l ∈ lights_of env -> blocks sample_vehicle l = false).
  { intros l Hl. apply list_elem_of_singleton in Hl. subst l. reflexivity. }
  assert (H3 : forall a, a ∈ areas_of env -> severe sample_vehicle a = false).
  { intros a Ha. apply list_elem_of_singleton in Ha. subst a. reflexivity. }
  split; [exact H1|]. split; [exact H2|]. split; [exact H3|].
  rewrite (clear_road_advances_vehicle sample_vehicle env [5%N] H1 H2 H3).
  reflexivity.
Defined.

Lemma vehicle_stays_on_grid_witness :
  let origin : Pos := (3, 1) in
  let destination : Pos := (0, 2) in
  (Z.abs_nat (destination.1 - origin.1) <= 3)%nat
  /\ (Z.abs_nat (destination.2 - origin.2) <= 3)%nat
  /\ Vehicle.cell_in_grid 5 origin = true
  /\ Vehicle.cell_in_grid 5 destination = true
  /\ exists v0,
       Vehicle.init 3 "V-1" origin destination 5 = Ok v0
       /\ forall envs rng, on_grid (travel envs v0 rng).1.
Proof.
  intros origin destination.
  assert (Hx : (Z.abs_nat (destination.1 - origin.1) <= 3)%nat) by (vm_compute; lia).
  assert (Hy : (Z.abs_nat (destination.2 - origin.2) <= 3)%nat) by (vm_compute; lia).
  assert (Ho : Vehicle.cell_in_grid 5 origin = true) by reflexivity.
  assert (Hd : Vehicle.cell_in_grid 5 destination = true) by reflexivity.
  split; [exact Hx|]. split; [exact Hy|]. split; [exact Ho|]. split; [exact Hd|].
  exact (vehicle_stays_on_grid 3 "V-1" origin destination 5 Hx Hy Ho Hd).
Defined.

(** ** Drones *)

Section DroneRoutes.
Import Drone.

Lemma swap_Permutation {A} (i j : nat) (l : list A) : Random.swap i j l ≡ₚ l.
Proof.
  unfold Random.swap.
  destruct (l !! i) as [a|] eqn:Hi; [|reflexivity].
  destruct (l !! j) as [b|] eqn:Hj; [|reflexivity].
  apply Permutation_insert_swap; assumption.
Qed.

Lemma shuffle_Permutation {A} (l : list A) (r : Random.Rng) :
  (Random.shuffle l r).1 ≡ₚ l.
Proof.
  unfold Random.shuffle.
  generalize (rev (seq 1 (length l - 1))) as idxs.
  intros idxs. revert l r.
  induction idxs as [|i idxs IH]; intros x r; [reflexivity|].
  cbn [fold_left].
  destruct (Random.randbelow (Z.of_nat i + 1) r) as [j r'].
  rewrite IH. apply swap_Permutation.
Qed.

Lemma random_points_spec (n : nat) (x_min y_min x_max y_max : Z) :
  x_min <= x_max -> y_min <= y_max ->
  forall waypoints rng,
    exists points rng',
      random_points n x_min y_min x_max y_max waypoints rng
      = Ok (waypoints ++ points, rng')
      /\ length points = n
      /\ Forall (in_box ((x_min, y_min), (x_max, y_max))) points.
Proof.
  intros Hx Hy. induction n as [|n IH]; intros waypoints rng; cbn [random_points].
  - exists [], rng. rewrite app_nil_r. auto.
  - destruct (randint_range x_min x_max rng Hx) as (x & r1 & -> & Hxr). cbn.
    destruct (randint_range y_min y_max r1 Hy) as (y & r2 & -> & Hyr). cbn.
    destruct (IH (waypoints ++ [(x, y)]) r2) as (points & r3 & -> & Hl & Hall).
    exists ((x, y) :: points), r3. rewrite <- app_assoc. cbn.
    split; [reflexivity|]. split; [lia|].
    constructor; [|exact Hall]. split; cbn; lia.
Qed.

(** X20. For a patrol box with ordered corners [_generate_patrol_waypoints]
    returns a route made of a shuffle of the box's four corners and of three
    to six further cells of the box, followed by the drone's own position as
    the last waypoint. *)
Theorem patrol_waypoints_shape (area : Pos * Pos) (p : Pos) (rng : Random.Rng) :
  ordered area ->
  exists route points rng',
    _generate_patrol_waypoints area p rng = Ok (route ++ [p], rng')
    /\ route ≡ₚ corners area ++ points
    /\ (3 <= length points <= 6)%nat
    /\ Forall (in_box area) points.
Proof.
  destruct area as [[x_min y_min] [x_max y_max]]. intros (Hx & Hy). cbn in Hx, Hy.
  unfold _generate_patrol_waypoints.
  destruct (randint_range 3 6 rng ltac:(lia)) as (k & r1 & -> & Hk). cbn.
  destruct (random_points_spec (Z.to_nat k) x_min y_min x_max y_max Hx Hy
              [(x_min, y_min); (x_max, y_min); (x_max, y_max); (x_min, y_max)] r1)
    as (points & r2 & -> & Hl & Hall).
  change (corners ((x_min, y_min), (x_max, y_max)))
    with [(x_min, y_min); (x_max, y_min); (x_max, y_max); (x_min, y_max)].
  cbn [mbind outcome_bind].
  match goal with
  | |- context [Random.shuffle ?w0 r2] =>
      pose proof (shuffle_Permutation w0 r2) as Hperm;
      destruct (Random.shuffle w0 r2) as [w r3]
  end.
  cbn [fst] in Hperm.
  exists w, points, r3. split; [reflexivity|]. split; [exact Hperm|].
  split; [lia | exact Hall].
Qed.

Lemma unit_move_sign (d o : Z) :
  (0 < d -> 0 <= unit_move d o <= 1)
  /\ (d < 0 -> -1 <= unit_move d o <= 0)
  /\ (d = 0 -> unit_move d o = 0).
Proof.
  unfold unit_move. destruct (Z.ltb_spec (o * o) (3 * d * d)); repeat split; try lia; nia.
Qed.

Lemma unit_move_progress (dx dy : Z) :
  (dx, dy) <> (0, 0) -> unit_move dx dy <> 0 \/ unit_move dy dx <> 0.
Proof.
  intros Hne. unfold unit_move.
  destruct (Z.ltb_spec (dy * dy) (3 * dx * dx)) as [H1|H1];
    [left; nia|].
  destruct (Z.ltb_spec (dx * dx) (3 * dy * dy)) as [H2|H2];
    [right; nia|].
  exfalso. apply Hne. f_equal; nia.
Qed.

(** The position after [move], as the code computes it. *)
Lemma move_position (d d' : DroneAgent) (rng rng' : Random.Rng) :
  move d rng = Ok (d', rng') ->
  position d'
  = match waypoints d !! current_waypoint_index d with
    | Some target =>
        (clamp (grid_size d)
           ((position d).1 + unit_move (target.1 - (position d).1)
                                       (target.2 - (position d).2)),
         clamp (grid_size d)
           ((position d).2 + unit_move (target.2 - (position d).2)
                                       (target.1 - (position d).1)))
    | None => position d
    end.
Proof.
  unfold move. destruct (waypoints d !! current_waypoint_index d) as [target|];
    [|intros [= <- <-]; reflexivity].
  cbv zeta. destruct (_ && _); [|intros [= <- <-]; reflexivity].
  destruct (_ <=? _)%nat; [|intros [= <- <-]; reflexivity].
  destruct (_generate_patrol_waypoints _ _ _) as [[w r']| |]; cbn;
    intros [= <- <-] || discriminate; reflexivity.
Qed.

(** X21. A drone inside its grid heading for a waypoint inside the grid
    other than its own cell gets strictly closer to it with every [move],
    by at most one cell along each axis. *)
Theorem move_approaches_waypoint (d : DroneAgent) (rng : Random.Rng) (target : Pos) :
  well_formed d ->
  waypoints d !! current_waypoint_index d = Some target ->
  0 <= target.1 < grid_size d -> 0 <= target.2 < grid_size d ->
  position d <> target ->
  exists d' rng',
    move d rng = Ok (d', rng')
    /\ manhattan (position d') target < manhattan (position d) target
    /\ Z.abs ((position d').1 - (position d).1) <= 1
    /\ Z.abs ((position d').2 - (position d).2) <= 1.
Proof.
  intros W Ht Hx Hy Hne.
  destruct (move_well_formed d rng W) as (d' & rng' & Hm & _).
  exists d', rng'. split; [exact Hm|].
  pose proof (move_position _ _ _ _ Hm) as Hpos.
  unfold Pos in *. rewrite Ht in Hpos. rewrite Hpos. clear Hpos Hm Ht.
  destruct W as (Hg & (Hpx & Hpy) & _).
  destruct (position d) as [px py], target as [tx ty].
  cbn [fst snd] in *.
  assert (Hp : unit_move (tx - px) (ty - py) <> 0 \/ unit_move (ty - py) (tx - px) <> 0).
  { apply unit_move_progress. intros [= E1 E2]. apply Hne. f_equal; lia. }
  destruct (unit_move_sign (tx - px) (ty - py)) as (X1 & X2 & X3).
  destruct (unit_move_sign (ty - py) (tx - px)) as (Y1 & Y2 & Y3).
  revert Hp X1 X2 X3 Y1 Y2 Y3.
  generalize (unit_move (tx - px) (ty - py)) as mx.
  generalize (unit_move (ty - py) (tx - px)) as my.
  revert Hg Hpx Hpy Hx Hy. generalize (grid_size d) as g. clear.
  intros g Hg Hpx Hpy Hx Hy my mx Hp X1 X2 X3 Y1 Y2 Y3.
  unfold manhattan, clamp. cbn [fst snd].
  assert (Bx : 0 <= px + mx < g /\ Z.abs (mx) <= 1
               /\ Z.abs (px + mx - tx) = Z.abs (px - tx) - Z.abs mx).
  { destruct (Z.lt_trichotomy (tx - px) 0) as [H|[H|H]];
      [pose proof (X2 H) as K | pose proof (X3 H) as K | pose proof (X1 H) as K];
      clear X1 X2 X3 Y1 Y2 Y3 Hp; lia. }
  assert (By : 0 <= py + my < g /\ Z.abs (my) <= 1
               /\ Z.abs (py + my - ty) = Z.abs (py - ty) - Z.abs my).
  { destruct (Z.lt_trichotomy (ty - py) 0) as [H|[H|H]];
      [pose proof (Y2 H) as K | pose proof (Y3 H) as K | pose proof (Y1 H) as K];
      clear X1 X2 X3 Y1 Y2 Y3 Hp; lia. }
  clear X1 X2 X3 Y1 Y2 Y3.
  destruct Bx as (Bx1 & Bx2 & Bx3), By as (By1 & By2 & By3).
  rewrite (Z.min_r (g - 1) (px + mx)) by lia.
  rewrite (Z.min_r (g - 1) (py + my)) by lia.
  rewrite (Z.max_r 0 (px + mx)) by lia.
  rewrite (Z.max_r 0 (py + my)) by lia.
  rewrite Bx3, By3.
  replace (px + mx - px) with mx by lia.
  replace (py + my - py) with my by lia.
  split; [|split; assumption].
  assert (0 < Z.abs mx \/ 0 < Z.abs my) by (clear - Hp; lia).
  clear - H. lia.
Qed.
End DroneRoutes.


Section DroneTicks.
Import Drone.

Lemma step_stages (d d' : DroneAgent) (env : option Env) (rng rng' : Random.Rng) :
  step d env rng = Ok (d', rng') ->
  exists d1 r1 d2,
    recharge (low_battery (drain d)) rng = Ok (d1, r1)
    /\ match env ≫= vehicles with
       | Some vs => _monitor_traffic d1 vs
       | None => Ok d1
       end = Ok d2
    /\ move d2 r1 = Ok (d', rng').
Proof.
  unfold step. cbv zeta.
  destruct (recharge (low_battery (drain d)) rng) as [[d1 r1]| |];
    cbn [mbind outcome_bind]; try discriminate.
  destruct (match env ≫= vehicles with
            | Some vs => _monitor_traffic d1 vs
            | None => Ok d1
            end) as [d2| |] eqn:E2; cbn [mbind outcome_bind]; try discriminate.
  intros H. exists d1, r1, d2. auto.
Qed.

Lemma incident_loop_state (near : list Vehicle.View) :
  forall d : DroneAgent,
    state (incident_loop near d) = state d
    \/ state (incident_loop near d) = PATROLLING.
Proof.
  induction near as [|v rest IH]; intros d; cbn [incident_loop]; [auto|].
  destruct (_ && _); [|apply IH].
  destruct (IH (report (Incident (Vehicle.view_position v) (Vehicle.view_id v)
                                 (Vehicle.view_waiting_time v)) d)) as [->| ->]; auto.
Qed.

Lemma monitor_traffic_state (d d' : DroneAgent) (vehicles : list Vehicle.View) :
  _monitor_traffic d vehicles = Ok d' ->
  state d' = state d \/ state d' = PATROLLING.
Proof.
  unfold _monitor_traffic. destruct (position d) as [x y].
  destruct (np_update _ y x _) as [m0| |]; cbn [mbind outcome_bind]; try discriminate.
  destruct (nearby_loop x y vehicles [] m0) as [[near m1]| |];
    cbn [mbind outcome_bind]; try discriminate.
  intros [= <-].
  match goal with |- context [incident_loop near ?d1] =>
    destruct (incident_loop_state near d1) as [->| ->]; [|auto];
    destruct (3 <? _); cbn; auto
  end.
Qed.

Lemma monitoring_stage (d1 d2 : DroneAgent) (env : option Env) :
  match env ≫= vehicles with
  | Some vs => _monitor_traffic d1 vs
  | None => Ok d1
  end = Ok d2 ->
  battery d2 = battery d1
  /\ position d2 = position d1
  /\ (state d2 = state d1 \/ state d2 = PATROLLING).
Proof.
  destruct (env ≫= vehicles) as [vs|].
  - intros H. pose proof (monitor_traffic_state _ _ _ H) as Hs.
    apply monitor_traffic_frame in H. destruct H as (Hb & _ & Hp & _). auto.
  - intros [= <-]. auto.
Qed.

Lemma low_battery_state (d : DroneAgent) :
  bool_decide (state (low_battery (drain d)) = RETURNING) = homing d
  /\ (homing d = false -> state (low_battery (drain d)) = state d).
Proof.
  unfold low_battery, homing.
  change (state (drain d)) with (state d).
  change (battery (drain d)) with (Qred (battery d - battery_drain_rate d)).
  destruct (bool_decide (state d = RETURNING)) eqn:Es; cbn [negb orb].
  - rewrite andb_false_r. cbn [orb]. split; [exact Es | discriminate].
  - destruct (Random.Qltb _ 20); cbn [andb].
    + split; [reflexivity | discriminate].
    + split; [exact Es | reflexivity].
Qed.

Lemma before_moving_grid_size (d d1 d2 : DroneAgent) (env : option Env)
    (rng r1 : Random.Rng) :
  recharge (low_battery (drain d)) rng = Ok (d1, r1) ->
  match env ≫= vehicles with
  | Some vs => _monitor_traffic d1 vs
  | None => Ok d1
  end = Ok d2 ->
  grid_size d2 = grid_size d.
Proof.
  intros H1 H2.
  assert (E1 : grid_size d1 = grid_size d).
  { revert H1. unfold recharge, low_battery.
    destruct (_ && _); destruct (_ && _);
      try (destruct (_generate_patrol_waypoints _ _ _) as [[w r']| |];
           cbn [mbind outcome_bind]; try discriminate);
      intros [= <- <-]; reflexivity. }
  rewrite <- E1. clear H1 E1.
  destruct (env ≫= vehicles) as [vs|]; [|injection H2 as <-; reflexivity].
  revert H2. unfold _monitor_traffic. destruct (position d1) as [x y].
  destruct (np_update _ y x _) as [m0| |]; cbn [mbind outcome_bind]; try discriminate.
  destruct (nearby_loop x y vs [] m0) as [[near m1]| |];
    cbn [mbind outcome_bind]; try discriminate.
  intros [= <-].
  match goal with |- context [incident_loop near ?d0] =>
    destruct (incident_loop_shape near d0) as (-> & _)
  end.
  destruct (3 <? _); reflexivity.
Qed.

(** X22. One tick of a drone that is inside its grid never raises: it
    returns a drone that is again inside the same grid, at most one cell
    away along each axis. *)
Theorem drone_step_stays_in_grid (d : DroneAgent) (env : option Env)
    (rng : Random.Rng) :
  well_formed d ->
  exists d' rng',
    step d env rng = Ok (d', rng')
    /\ well_formed d'
    /\ Z.abs ((position d').1 - (position d).1) <= 1
    /\ Z.abs ((position d').2 - (position d).2) <= 1.
Proof.
  intros W. destruct (step_well_formed d env rng W) as (d' & rng' & Hs & W').
  exists d', rng'. split; [exact Hs|]. split; [exact W'|].
  destruct (step_stages _ _ _ _ _ Hs) as (d1 & r1 & d2 & H1 & H2 & H3).
  pose proof (before_moving_grid_size _ _ _ _ _ _ H1 H2) as G.
  apply before_monitoring_frame in H1. destruct H1 as (P1 & _).
  apply monitoring_stage in H2. destruct H2 as (_ & P2 & _).
  pose proof (move_position _ _ _ _ H3) as P3.
  destruct W as (Hg & (Hpx & Hpy) & _).
  rewrite P2, P1, G in P3. rewrite P3. clear P3.
  destruct (waypoints d2 !! current_waypoint_index d2) as [target|].
  2:{ rewrite !Z.sub_diag. cbn. lia. }
  destruct (unit_move_sign (target.1 - (position d).1) (target.2 - (position d).2))
    as (X1 & X2 & X3).
  destruct (unit_move_sign (target.2 - (position d).2) (target.1 - (position d).1))
    as (Y1 & Y2 & Y3).
  assert (Bx : -1 <= unit_move (target.1 - (position d).1) (target.2 - (position d).2) <= 1).
  { destruct (Z.lt_trichotomy (target.1 - (position d).1) 0) as [H|[H|H]];
      [pose proof (X2 H) | pose proof (X3 H) | pose proof (X1 H)]; lia. }
  assert (By : -1 <= unit_move (target.2 - (position d).2) (target.1 - (position d).1) <= 1).
  { destruct (Z.lt_trichotomy (target.2 - (position d).2) 0) as [H|[H|H]];
      [pose proof (Y2 H) | pose proof (Y3 H) | pose proof (Y1 H)]; lia. }
  clear X1 X2 X3 Y1 Y2 Y3. revert Bx By.
  generalize (unit_move (target.1 - (position d).1) (target.2 - (position d).2)) as mx.
  generalize (unit_move (target.2 - (position d).2) (target.1 - (position d).1)) as my.
  intros my mx Bx By. unfold clamp. cbn [fst snd].
  revert Hg Hpx Hpy.
  generalize (grid_size d) as g, (position d).1 as px, (position d).2 as py.
  intros g px py Hg Hpx Hpy. clear - Bx By Hg Hpx Hpy. split; lia.
Qed.

(** One tick of a well-formed drone, stage by stage. *)
Lemma step_outcome (d : DroneAgent) (env : option Env) (rng : Random.Rng) :
  well_formed d ->
  exists d' rng',
    step d env rng = Ok (d', rng')
    /\ well_formed d'
    /\ battery_drain_rate d' = battery_drain_rate d
    /\ (if homing d && pos_eqb (position d) (0, 0)
        then battery d' = 100%Q /\ state d' = PATROLLING
        else battery d' = Qred (battery d - battery_drain_rate d)
             /\ (state d' = PATROLLING
                 \/ state d' = if homing d then RETURNING else state d)
             /\ (detected_anomalies d' = detected_anomalies d ->
                 state d' = if homing d then RETURNING else state d)).
Proof.
  intros W. destruct (step_well_formed d env rng W) as (d' & rng' & Hs & W').
  exists d', rng'. split; [exact Hs|]. split; [exact W'|].
  destruct (step_stages _ _ _ _ _ Hs) as (d1 & r1 & d2 & H1 & H2 & H3).
  destruct (before_monitoring_frame _ _ _ _ H1) as (_ & A1 & _).
  destruct (recharge_frame _ _ _ _ H1) as (_ & _ & _ & R1).
  destruct (low_battery_frame (drain d)) as (Ep & _ & _ & Eb & R0).
  assert (A2 : battery d2 = battery d1
               /\ battery_drain_rate d2 = battery_drain_rate d1
               /\ (state d2 = state d1 \/ state d2 = PATROLLING)
               /\ (detected_anomalies d2 = detected_anomalies d1 -> state d2 = state d1)).
  { destruct (env ≫= vehicles) as [vs|]; [|injection H2 as <-; auto].
    pose proof (monitor_traffic_state _ _ _ H2) as Hst.
    apply monitor_traffic_frame in H2.
    destruct H2 as (Hb & Hr & _ & Happ & Hquiet).
    repeat split; auto. intros E. apply Hquiet.
    rewrite Happ in E. rewrite <- (app_nil_r (detected_anomalies d1)) in E at 2.
    apply app_inv_head in E. exact E. }
  destruct A2 as (B2 & R2 & S2 & Q2).
  destruct (move_frame _ _ _ _ H3) as (B3 & R3).
  destruct (move_anomalies _ _ _ _ H3) as (A3 & S3).
  rewrite B3, B2, S3, R3, R2, R1, R0, A3. clear H3 B3 S3 Hs R3 R2 R1 R0 A3.
  split; [reflexivity|].
  destruct (low_battery_state d) as (Eh & Es).
  unfold recharge in H1. rewrite Eh, Ep in H1.
  change (position (drain d)) with (position d) in H1.
  destruct (homing d && pos_eqb (position d) (0, 0)) eqn:Ebase.
  - destruct (_generate_patrol_waypoints _ _ _) as [[w r']| |];
      cbn [mbind outcome_bind] in H1; try discriminate.
    injection H1 as <- <-. cbn [battery with_route with_state with_battery state] in *.
    split; [reflexivity|]. destruct S2 as [->| ->]; reflexivity.
  - injection H1 as <- <-. rewrite Eb.
    assert (Est : state (low_battery (drain d))
                  = if homing d then RETURNING else state d).
    { destruct (homing d); [|apply Es; reflexivity].
      exact (proj1 (bool_decide_eq_true _) Eh). }
    rewrite <- Est. split; [reflexivity|]. split.
    + destruct S2 as [->| ->]; auto.
    + intros E. apply Q2. rewrite E, A1. reflexivity.
Qed.

(** X23. The battery after one tick: a drone that is on its way home
    (RETURNING already, or with less than 20 left after this tick's drain)
    and stands on the base cell (0,0) leaves the tick PATROLLING with a
    battery of exactly 100; every other drone leaves it with its battery
    lowered by the drain rate, whatever it sees and wherever it moves, and
    is RETURNING when it is on its way home and reported nothing. *)
Theorem drone_battery_law (d : DroneAgent) (env : option Env) (rng : Random.Rng) :
  well_formed d ->
  exists d' rng',
    step d env rng = Ok (d', rng')
    /\ (if homing d && pos_eqb (position d) (0, 0)
        then battery d' = 100%Q /\ state d' = PATROLLING
        else battery d' = Qred (battery d - battery_drain_rate d)
             /\ (detected_anomalies d' = detected_anomalies d ->
                 state d' = if homing d then RETURNING else state d)).
Proof.
  intros W. destruct (step_outcome d env rng W) as (d' & rng' & Hs & _ & _ & H).
  exists d', rng'. split; [exact Hs|].
  destruct (homing d && pos_eqb (position d) (0, 0)); [exact H|].
  destruct H as (Hb & _ & Hq). auto.
Qed.

Lemma fly_fresh (envs : list (option Env)) :
  forall (d : DroneAgent) (k : nat) (rng : Random.Rng),
    well_formed d ->
    state d = PATROLLING ->
    battery_drain_rate d = (1 # 2)%Q ->
    (battery d == (200 - Z.of_nat k) # 2)%Q ->
    (k + length envs <= 160)%nat ->
    exists d' rng',
      fly envs d rng = Ok (d', rng')
      /\ state d' = PATROLLING
      /\ (battery d' == (200 - Z.of_nat (k + length envs)) # 2)%Q.
Proof.
  induction envs as [|env envs IH]; intros d k rng W St R B Hk.
  - exists d, rng. rewrite Nat.add_0_r. auto.
  - cbn [length] in Hk. cbn [fly].
    destruct (step_outcome d env rng W) as (d1 & r1 & -> & W1 & R1 & H).
    cbn [mbind outcome_bind].
    assert (Eq : (Qred (battery d - battery_drain_rate d)
                  == (200 - Z.of_nat (S k)) # 2)%Q).
    { rewrite Qred_correct, R, B. unfold Qeq, Qminus, Qplus, Qopp. cbn. lia. }
    assert (Hh : homing d = false).
    { unfold homing. rewrite St.
      rewrite bool_decide_eq_false_2 by discriminate. cbn [orb].
      unfold Random.Qltb. apply negb_false_iff. apply Qle_bool_iff.
      rewrite Eq. unfold Qle. cbn. lia. }
    rewrite Hh in H. cbn [andb] in H. destruct H as (Hb & Hst & _).
    assert (St1 : state d1 = PATROLLING)
      by (destruct Hst as [->| ->]; [reflexivity | exact St]).
    assert (B1 : (battery d1 == (200 - Z.of_nat (S k)) # 2)%Q)
      by (rewrite Hb; exact Eq).
    destruct (IH d1 (S k) r1 W1 St1 ltac:(congruence) B1 ltac:(lia))
      as (d' & rng' & Hf & St' & B').
    exists d', rng'. split; [exact Hf|]. split; [exact St'|].
    rewrite B'. cbn [length]. replace (S k + length envs)%nat
      with (k + S (length envs))%nat by lia. reflexivity.
Qed.

(** X24. A drone as the constructor builds it (inside its grid, ordered
    patrol box) patrols for its first 160 ticks, whatever environment each
    tick brings and whatever is drawn: after any run of [k <= 160] ticks,
    each with an environment of its own, it is PATROLLING with a battery
    of [100 - k/2], so it never heads for the base before tick 161. *)
Theorem fresh_drone_patrols_160_ticks (agent_id : string) (start : Pos)
    (grid_size : Z) (area : Pos * Pos) (rng0 : Random.Rng)
    (envs : list (option Env)) (rng : Random.Rng) :
  1 <= grid_size ->
  0 <= start.1 < grid_size -> 0 <= start.2 < grid_size ->
  ordered area ->
  (length envs <= 160)%nat ->
  exists d0 rng1 d rng',
    init agent_id start grid_size (Some area) rng0 = Ok (d0, rng1)
    /\ fly envs d0 rng = Ok (d, rng')
    /\ state d = PATROLLING
    /\ (battery d == 100 - inject_Z (Z.of_nat (length envs)) / 2)%Q.
Proof.
  intros Hg Hx Hy Ho Hk.
  destruct (init_well_formed agent_id start grid_size area rng0 Hg Hx Hy Ho)
    as (d0 & rng1 & Hi & W0).
  assert (S0 : state d0 = PATROLLING /\ battery d0 = 100%Q
               /\ battery_drain_rate d0 = (1 # 2)%Q).
  { destruct (init_battery _ _ _ _ _ _ _ Hi) as (HR & HB).
    split; [|auto]. revert Hi. unfold init.
    destruct (_generate_patrol_waypoints _ _ _) as [[w r]| |];
      cbn [mbind outcome_bind]; try discriminate.
    destruct (grid_size <? 0); [discriminate|]. intros [= <- <-]. reflexivity. }
  destruct S0 as (S0 & B0 & R0).
  destruct (fly_fresh envs d0 0 rng W0 S0 R0) as (d & r' & Hp & St & B).
  { rewrite B0. reflexivity. }
  { exact Hk. }
  exists d0, rng1, d, r'. split; [exact Hi|]. split; [exact Hp|].
  split; [exact St|]. rewrite B. cbn [Nat.add].
  unfold Qeq, Qminus, Qplus, Qopp, Qdiv, Qmult, Qinv, inject_Z. cbn. lia.
Qed.

(** *** The density map *)

Lemma np_index_nonneg (n : nat) (i : Z) (r : nat) :
  0 <= i -> np_index n i = Ok r -> r = Z.to_nat i /\ (r < n)%nat.
Proof.
  intros Hi. unfold np_index.
  destruct (Z.ltb_spec i 0); [lia|].
  destruct (Z.ltb_spec i 0); [lia|].
  destruct (Z.leb_spec (Z.of_nat n) i); cbn [orb]; [discriminate|].
  intros [= <-]. split; [reflexivity | lia].
Qed.

Lemma np_update_cell (m m' : list (list Z)) (y x : Z) (f : Z -> Z) :
  0 <= y -> 0 <= x ->
  np_update m y x f = Ok m' ->
  forall r c,
    cell m' r c
    = if decide (r = Z.to_nat y /\ c = Z.to_nat x) then f <$> cell m r c
      else cell m r c.
Proof.
  intros Hy Hx. unfold np_update.
  destruct (np_index (length m) y) as [r0| |] eqn:Er; cbn [mbind outcome_bind];
    try discriminate.
  destruct (np_index_nonneg _ _ _ Hy Er) as (-> & Hlt).
  destruct (m !! Z.to_nat y) as [row|] eqn:Hrow; [|discriminate].
  destruct (np_index (length row) x) as [c0| |] eqn:Ec; cbn [mbind outcome_bind];
    try discriminate.
  destruct (np_index_nonneg _ _ _ Hx Ec) as (-> & Hltc).
  intros [= <-] r c. unfold cell.
  destruct (decide (r = Z.to_nat y)) as [->|Hr].
  - rewrite list_lookup_insert_eq by exact Hlt. rewrite Hrow. cbn [mbind option_bind].
    destruct (decide (c = Z.to_nat x)) as [->|Hc].
    + rewrite decide_True by auto. rewrite list_lookup_alter_eq. reflexivity.
    + rewrite decide_False by tauto. rewrite list_lookup_alter_ne by auto. reflexivity.
  - rewrite decide_False by tauto. rewrite list_lookup_insert_ne by auto. reflexivity.
Qed.

Lemma nearby_loop_cell (x y : Z) (vehicles : list Vehicle.View) :
  0 <= y -> 0 <= x ->
  forall near near' m m',
    nearby_loop x y vehicles near m = Ok (near', m') ->
    forall r c,
      cell m' r c
      = if decide (r = Z.to_nat y /\ c = Z.to_nat x)
        then (fun v => v + Z.of_nat (length near' - length near)) <$> cell m r c
        else cell m r c.
Proof.
  intros Hy Hx. induction vehicles as [|v rest IH]; intros near near' m m';
    cbn [nearby_loop].
  - intros [= <- <-] r c. rewrite Nat.sub_diag.
    destruct (decide _); [|reflexivity].
    destruct (cell m r c); cbn; [f_equal; lia | reflexivity].
  - destruct (Vehicle.view_position v) as [v_x v_y].
    destruct (Z.abs (x - v_x) + Z.abs (y - v_y) <=? 2); [|apply IH].
    destruct (np_update m y x _) as [m1| |] eqn:E; cbn [mbind outcome_bind];
      try discriminate.
    intros H r c.
    pose proof (nearby_loop_result _ _ _ _ _ _ _ H) as Hn.
    rewrite (IH _ _ _ _ H r c), (np_update_cell _ _ _ _ _ Hy Hx E r c).
    destruct (decide _); [|reflexivity].
    rewrite Hn, !length_app. cbn [length].
    destruct (cell m r c); cbn; [f_equal; lia | reflexivity].
Qed.

(** X25. [_monitor_traffic] on a drone inside its grid rewrites one cell
    of the density map and no other: the cell of the drone's own position
    then holds the number of vehicles within Manhattan distance 2, whatever
    it held before. *)
Theorem monitor_traffic_density (d : DroneAgent) (vehicles : list Vehicle.View) :
  well_formed d ->
  exists d',
    _monitor_traffic d vehicles = Ok d'
    /\ cell (traffic_density_map d')
            (Z.to_nat (position d).2) (Z.to_nat (position d).1)
       = Some (Z.of_nat (length (List.filter (proximate (position d)) vehicles)))
    /\ forall r c,
         (r, c) <> (Z.to_nat (position d).2, Z.to_nat (position d).1) ->
         cell (traffic_density_map d') r c = cell (traffic_density_map d) r c.
Proof.
  intros W.
  destruct (monitor_traffic_well_formed d vehicles W) as (d' & Hm & _).
  exists d'. split; [exact Hm|].
  pose proof (well_formed_has_cell d W) as (r0 & c0 & row & Hr & Hrow & Hc).
  destruct W as (_ & (Hpx & Hpy) & _).
  revert Hm. unfold _monitor_traffic.
  destruct (position d) as [x y]. cbn [fst snd] in *.
  destruct (np_index_nonneg _ _ _ (proj1 Hpy) Hr) as (-> & _).
  destruct (np_index_nonneg _ _ _ (proj1 Hpx) Hc) as (-> & Hcl).
  destruct (lookup_lt_is_Some_2 row (Z.to_nat x) Hcl) as [v0 Hv0].
  destruct (np_update _ y x _) as [m0| |] eqn:E0; cbn [mbind outcome_bind];
    try discriminate.
  destruct (nearby_loop x y vehicles [] m0) as [[near m1]| |] eqn:E1;
    cbn [mbind outcome_bind]; try discriminate.
  intros [= <-].
  match goal with |- context [incident_loop near ?d0] =>
    destruct (incident_loop_shape near d0) as (_ & _ & -> & _);
    assert (Em : traffic_density_map d0 = m1) by (destruct (3 <? _); reflexivity)
  end.
  rewrite Em. clear Em.
  pose proof (nearby_loop_result _ _ _ _ _ _ _ E1) as Hn. cbn [app] in Hn. subst near.
  pose proof (nearby_loop_cell x y vehicles (proj1 Hpy) (proj1 Hpx) _ _ _ _ E1) as C1.
  pose proof (np_update_cell _ _ _ _ _ (proj1 Hpy) (proj1 Hpx) E0) as C0.
  split.
  - rewrite C1, C0. rewrite !decide_True by auto.
    unfold cell. rewrite Hrow. cbn [mbind option_bind]. rewrite Hv0. cbn.
    f_equal. lia.
  - intros r c Hne. rewrite C1, C0.
    rewrite !decide_False; [reflexivity | |]; intros [-> ->]; apply Hne; reflexivity.
Qed.
End DroneTicks.

Lemma patrol_waypoints_shape_witness :
  ordered ((2, 2), (4, 4))
  /\ exists route points rng',
       Drone._generate_patrol_waypoints ((2, 2), (4, 4)) (4, 4) [] = Ok (route ++ [(4, 4)], rng')
       /\ route ≡ₚ corners ((2, 2), (4, 4)) ++ points.
Proof.
  assert (H : ordered ((2, 2), (4, 4))) by (unfold ordered; cbn; lia).
  split; [exact H|].
  destruct (patrol_waypoints_shape ((2, 2), (4, 4)) (4, 4) [] H)
    as (route & points & rng' & E & P & _).
  exists route, points, rng'. split; [exact E | exact P].
Defined.

Lemma sample_drone_well_formed : well_formed sample_drone.
Proof.
  split; [cbn; lia|]. split; [cbn; lia|]. split; [|split; cbn; lia].
  split; [reflexivity|]. cbn. repeat constructor.
Qed.

Lemma move_approaches_waypoint_witness :
  well_formed sample_drone
  /\ Drone.waypoints sample_drone !! Drone.current_waypoint_index sample_drone
     = Some (4, 2)
  /\ 0 <= 4 < Drone.grid_size sample_drone
  /\ 0 <= 2 < Drone.grid_size sample_drone
  /\ Drone.position sample_drone <> (4, 2)
  /\ exists d' rng',
       Drone.move sample_drone [] = Ok (d', rng')
       /\ manhattan (Drone.position d') (4, 2)
          < manhattan (Drone.position sample_drone) (4, 2).
Proof.
  assert (H1 : Drone.waypoints sample_drone !! Drone.current_waypoint_index sample_drone
               = Some ((4, 2) : Pos)) by reflexivity.
  assert (H2 : 0 <= ((4, 2) : Pos).1 < Drone.grid_size sample_drone) by (cbn; lia).
  assert (H3 : 0 <= ((4, 2) : Pos).2 < Drone.grid_size sample_drone) by (cbn; lia).
  assert (H4 : Drone.position sample_drone <> (4, 2)) by discriminate.
  split; [exact sample_drone_well_formed|]. split; [exact H1|].
  split; [exact H2|]. split; [exact H3|]. split; [exact H4|].
  destruct (move_approaches_waypoint sample_drone [] (4, 2)
              sample_drone_well_formed H1 H2 H3 H4) as (d' & rng' & E & Hlt & _).
  exists d', rng'. split; [exact E | exact Hlt].
Defined.

Lemma drone_step_stays_in_grid_witness :
  well_formed sample_drone
  /\ exists d' rng',
       Drone.step sample_drone (crowd_at (4, 4)) [] = Ok (d', rng')
       /\ well_formed d'.
Proof.
  split; [exact sample_drone_well_formed|].
  destruct (drone_step_stays_in_grid sample_drone (crowd_at (4, 4)) []
              sample_drone_well_formed) as (d' & rng' & E & W & _).
  exists d', rng'. split; [exact E | exact W].
Defined.

Lemma drone_battery_law_witness :
  well_formed sample_drone
  /\ exists d' rng',
       Drone.step sample_drone empty_streets [] = Ok (d', rng')
       /\ Drone.battery d' = (199 # 2)%Q.
Proof.
  split; [exact sample_drone_well_formed|].
  destruct (drone_battery_law sample_drone empty_streets [] sample_drone_well_formed)
    as (d' & rng' & E & H).
  exists d', rng'. split; [exact E|].
  change (homing sample_drone && pos_eqb (Drone.position sample_drone) (0, 0))
    with false in H.
  exact (proj1 H).
Defined.

Lemma fresh_drone_patrols_160_ticks_witness :
  let envs := replicate 80 empty_streets ++ replicate 80 (crowd_at (4, 4)) in
  1 <= 5
  /\ 0 <= ((4, 4) : Pos).1 < 5 /\ 0 <= ((4, 4) : Pos).2 < 5
  /\ ordered ((2, 2), (4, 4))
  /\ (length envs <= 160)%nat
  /\ exists d0 rng1 d rng',
       Drone.init "D-1" (4, 4) 5 (Some ((2, 2), (4, 4))) [] = Ok (d0, rng1)
       /\ fly envs d0 [] = Ok (d, rng')
       /\ Drone.state d = Drone.PATROLLING.
Proof.
  intros envs.
  assert (H1 : 1 <= 5) by lia.
  assert (H2 : 0 <= ((4, 4) : Pos).1 < 5) by (cbn; lia).
  assert (H3 : 0 <= ((4, 4) : Pos).2 < 5) by (cbn; lia).
  assert (H4 : ordered ((2, 2), (4, 4))) by (unfold ordered; cbn; lia).
  assert (H5 : (length envs <= 160)%nat)
    by (unfold envs; rewrite length_app, !length_replicate; lia).
  split; [exact H1|]. split; [exact H2|]. split; [exact H3|].
  split; [exact H4|]. split; [exact H5|].
  destruct (fresh_drone_patrols_160_ticks "D-1" (4, 4) 5 ((2, 2), (4, 4)) []
              envs [] H1 H2 H3 H4 H5)
    as (d0 & rng1 & d & rng' & Hi & Hp & Hs & _).
  exists d0, rng1, d, rng'. split; [exact Hi|]. split; [exact Hp | exact Hs].
Defined.

Lemma monitor_traffic_density_witness :
  well_formed sample_drone
  /\ exists d',
       Drone._monitor_traffic sample_drone
         [Vehicle.mkView "V-1" (4, 3) (0, 0) Vehicle.MOVING 0 1 0;
          Vehicle.mkView "V-2" (0, 0) (4, 4) Vehicle.MOVING 0 1 0] = Ok d'
       /\ cell (Drone.traffic_density_map d') 4 4 = Some 1.
Proof.
  split; [exact sample_drone_well_formed|].
  destruct (monitor_traffic_density sample_drone
              [Vehicle.mkView "V-1" (4, 3) (0, 0) Vehicle.MOVING 0 1 0;
               Vehicle.mkView "V-2" (0, 0) (4, 4) Vehicle.MOVING 0 1 0]
              sample_drone_well_formed) as (d' & E & C & _).
  exists d'. split; [exact E | exact C].
Defined.

(** ** The controller *)

Section ControllerConstruction.
Import Controller.
Context {Callback : Type}.
Implicit Types (c : @SimulationController Callback) (b : @Bus Callback).

Lemma randint_point (a : Z) (r : Random.Rng) :
  Random.randint a a r = Ok (a, (Random.draw r).2).
Proof.
  unfold Random.randint, Random.randbelow. rewrite Z.ltb_irrefl.
  destruct (Random.draw r) as [k r']. cbn [snd].
  replace (a - a + 1) with 1 by lia. rewrite Z.mod_1_r.
  do 2 f_equal. lia.
Qed.

Lemma randint_result (a b k : Z) (r r' : Random.Rng) :
  Random.randint a b r = Ok (k, r') -> a <= k <= b.
Proof.
  unfold Random.randint. destruct (Z.ltb_spec b a); [discriminate|].
  pose proof (randbelow_range (b - a + 1) r ltac:(lia)) as Hk.
  destruct (Random.randbelow (b - a + 1) r) as [j r1]. cbn [fst] in Hk.
  intros [= <- <-]. lia.
Qed.

Lemma pick_destination_stuck (fuel : nat) (rng : Random.Rng) :
  pick_destination fuel 1 (0, 0) (0, 0) rng = OutOfFuel.
Proof.
  revert rng. induction fuel as [|fuel IH]; intros rng; [reflexivity|].
  cbn [pick_destination]. change (pos_eqb (0, 0) (0, 0)) with true. cbv iota.
  change (1 - 1) with 0. rewrite randint_point. cbn [mbind outcome_bind].
  rewrite randint_point. cbn [mbind outcome_bind]. apply IH.
Qed.

(** X26. A one-cell grid with at least one vehicle never finishes
    construction: the only cell is both start and destination, so the loop
    that redraws the destination until it differs from the start runs out
    of every fuel, whatever the random draws. *)
Theorem one_cell_grid_never_constructs (fuel : nat) (num_vehicles num_drones : Z)
    (verbose : bool) (rng : Random.Rng) :
  1 <= num_vehicles ->
  init (Callback := Callback) fuel 1 num_vehicles num_drones verbose rng = OutOfFuel.
Proof.
  intros Hn. unfold init.
  change (GridM.init 1) with (Ok (GridM.mkGrid 1 (GridM.empty_cells 1) ∅)).
  cbn [mbind outcome_bind].
  destruct (_create_traffic_lights 1 rng) as [lights r1].
  unfold _create_vehicles.
  destruct (py_range_from_zero num_vehicles ltac:(lia)) as (rest & ->).
  cbn [create_loop]. unfold create_vehicle.
  change (1 - 1) with 0. rewrite randint_point. cbn [mbind outcome_bind].
  rewrite randint_point. cbn [mbind outcome_bind].
  rewrite pick_destination_stuck. reflexivity.
Qed.

Lemma pick_destination_result (fuel : nat) (grid_size : Z) (start : Pos) :
  forall (destination destination' : Pos) (rng rng' : Random.Rng),
    pick_destination fuel grid_size start destination rng = Ok (destination', rng') ->
    destination' <> start
    /\ (destination' = destination
        \/ Vehicle.cell_in_grid grid_size destination' = true).
Proof.
  induction fuel as [|fuel IH]; intros destination destination' rng rng';
    cbn [pick_destination]; destruct (pos_eqb destination start) eqn:E;
    try discriminate;
    try (intros [= <- <-]; apply pos_eqb_neq in E; auto).
  destruct (Random.randint 0 (grid_size - 1) rng) as [[x r1]| |] eqn:Ex;
    cbn [mbind outcome_bind]; try discriminate.
  destruct (Random.randint 0 (grid_size - 1) r1) as [[y r2]| |] eqn:Ey;
    cbn [mbind outcome_bind]; try discriminate.
  intros H. apply IH in H. destruct H as (Hne & [->|Hin]); split; auto.
  right. apply randint_result in Ex, Ey. unfold Vehicle.cell_in_grid. cbn [fst snd].
  repeat (apply andb_true_intro; split); lia.
Qed.

Lemma walk_x_result (fuel : nat) (dir : Z) (destination : Pos) :
  forall (current : Pos) (path : list Pos) r,
    Vehicle.walk_x fuel dir destination current path = Ok r ->
    exists n, (n <= fuel)%nat /\ destination.1 = current.1 + dir * Z.of_nat n.
Proof.
  induction fuel as [|fuel IH]; intros current path r; cbn [Vehicle.walk_x];
    destruct (Z.eqb_spec current.1 destination.1) as [E|E];
    try discriminate; try (intros _; exists 0%nat; split; lia).
  intros H. apply IH in H. destruct H as (n & Hn & Hd). cbn [fst] in Hd.
  exists (S n). split; lia.
Qed.

Lemma walk_y_result (fuel : nat) (dir : Z) (destination : Pos) :
  forall (current : Pos) (path : list Pos) r,
    Vehicle.walk_y fuel dir destination current path = Ok r ->
    exists n, (n <= fuel)%nat /\ destination.2 = current.2 + dir * Z.of_nat n.
Proof.
  induction fuel as [|fuel IH]; intros current path r; cbn [Vehicle.walk_y];
    destruct (Z.eqb_spec current.2 destination.2) as [E|E];
    try discriminate; try (intros _; exists 0%nat; split; lia).
  intros H. apply IH in H. destruct H as (n & Hn & Hd). cbn [snd] in Hd.
  exists (S n). split; lia.
Qed.

(** Whenever [_calculate_simple_path] returns, it returns the L-shaped
    path. *)
Lemma calculate_simple_path_result (fuel : nat) (origin destination : Pos)
    (path : list Pos) :
  Vehicle._calculate_simple_path fuel origin destination = Ok path ->
  path = l_shaped_path origin destination.
Proof.
  intros H.
  assert (Hf : (Z.abs_nat (destination.1 - origin.1) <= fuel)%nat
               /\ (Z.abs_nat (destination.2 - origin.2) <= fuel)%nat).
  { revert H. unfold Vehicle._calculate_simple_path. cbv zeta.
    destruct (Vehicle.walk_x fuel _ destination origin []) as [[c1 p1]| |] eqn:Ex;
      cbn [mbind outcome_bind]; try discriminate.
    destruct (Vehicle.walk_y fuel _ destination c1 p1) as [[c2 p2]| |] eqn:Ey;
      cbn [mbind outcome_bind]; try discriminate.
    intros _.
    pose proof (walk_x_result _ _ _ _ _ _ Ex) as (n & Hn & Hd).
    pose proof (walk_y_result _ _ _ _ _ _ Ey) as (m & Hm & He).
    assert (Hc1 : c1.2 = origin.2).
    { destruct (Z.ltb_spec origin.1 destination.1);
        rewrite (walk_x_steps n) in Ex by (auto; lia);
        injection Ex as <- _; reflexivity. }
    rewrite Hc1 in He.
    split.
    - destruct (origin.1 <? destination.1); lia.
    - destruct (origin.2 <? destination.2); lia. }
  destruct Hf as (Hx & Hy).
  rewrite (calculate_simple_path_l_shaped fuel origin destination Hx Hy) in H.
  injection H as <-. reflexivity.
Qed.

(** X27. Every vehicle the controller manages to create starts MOVING on
    a cell of the grid, with a destination in the grid that differs from
    its start and the L-shaped path between the two, all of it in the
    grid. *)
Theorem created_vehicle_in_grid (fuel : nat) (grid_size i : Z)
    (rng rng' : Random.Rng) (v : Vehicle.VehicleAgent) :
  create_vehicle fuel grid_size i rng = Ok (v, rng') ->
  Vehicle.agent_id v = "V-" +:+ pretty (i + 1)
  /\ Vehicle.state v = Vehicle.MOVING
  /\ Vehicle.grid_size v = grid_size
  /\ Vehicle.destination v <> Vehicle.position v
  /\ Vehicle.cell_in_grid grid_size (Vehicle.destination v) = true
  /\ Vehicle.path v = l_shaped_path (Vehicle.position v) (Vehicle.destination v)
  /\ Vehicle.path_index v = 0%nat
  /\ on_grid v.
Proof.
  unfold create_vehicle.
  destruct (Random.randint 0 (grid_size - 1) rng) as [[sx r1]| |] eqn:Ex;
    cbn [mbind outcome_bind]; try discriminate.
  destruct (Random.randint 0 (grid_size - 1) r1) as [[sy r2]| |] eqn:Ey;
    cbn [mbind outcome_bind]; try discriminate.
  destruct (pick_destination fuel grid_size (sx, sy) (sx, sy) r2)
    as [[destination r3]| |] eqn:Ed; cbn [mbind outcome_bind]; try discriminate.
  unfold Vehicle.init.
  destruct (Vehicle._calculate_simple_path fuel (sx, sy) destination)
    as [path| |] eqn:Ep; cbn [mbind outcome_bind]; try discriminate.
  intros [= <- <-]. cbn.
  apply calculate_simple_path_result in Ep. subst path.
  apply pick_destination_result in Ed. destruct Ed as (Hne & Hd).
  destruct Hd as [Hd|Hd]; [contradiction|].
  apply randint_result in Ex, Ey.
  assert (Hs : Vehicle.cell_in_grid grid_size (sx, sy) = true).
  { unfold Vehicle.cell_in_grid. cbn [fst snd].
    repeat (apply andb_true_intro; split); lia. }
  repeat split; auto.
  eapply Forall_impl; [apply l_shaped_path_box|].
  intros c [H1 H2]. unfold Vehicle.cell_in_grid in *.
  destruct destination as [dx dy], c as [cx cy].
  cbn [fst snd Vehicle.grid_size] in *.
  repeat (apply andb_prop in Hd as [Hd ?]).
  repeat (apply andb_true_intro; split); lia.
Qed.
End ControllerConstruction.


Section ControllerTicks.
Import Controller.
Context {Callback : Type}.
Implicit Types (c : @SimulationController Callback) (b : @Bus Callback).

Lemma lights_loop_map vs todo :
  forall done b,
    (lights_loop vs todo done b).1
    = done ++ map (fun l => TrafficLight.step l
                              (Some (_get_environment_data_for_light vs l))) todo.
Proof.
  induction todo as [|l rest IH]; intros done b; cbn [lights_loop map].
  - rewrite app_nil_r. reflexivity.
  - rewrite IH, <- app_assoc. reflexivity.
Qed.

Lemma vehicles_loop_ticked lights todo :
  forall done b rng calls,
    exists vs',
      (vehicles_loop lights todo done b rng calls).1.1.1 = done ++ vs'
      /\ Forall2 (vehicle_ticked (Callback := Callback) lights) todo vs'.
Proof.
  induction todo as [|v rest IH]; intros done b rng calls; cbn [vehicles_loop].
  - exists []. rewrite app_nil_r. split; [reflexivity | constructor].
  - destruct (decide (Vehicle.state v = Vehicle.ARRIVED)) as [E|E].
    + destruct (IH (done ++ [v]) b rng calls) as (vs' & -> & H).
      exists (v :: vs'). rewrite <- app_assoc. split; [reflexivity|].
      constructor; [|exact H]. unfold vehicle_ticked. rewrite decide_True by exact E.
      reflexivity.
    + destruct (Vehicle.step v _ rng) as [v' rng'] eqn:Es.
      destruct (IH (done ++ [v'])
                  (publish b "vehicle_update"
                     (VehicleUpdate (Vehicle.agent_id v') (Vehicle.get_state v')))
                  rng' (calls ++ [(Vehicle.agent_id v,
                                   _get_environment_data_for_vehicle lights b v)]))
        as (vs' & -> & H).
      exists (v' :: vs'). rewrite <- app_assoc. split; [reflexivity|].
      constructor; [|exact H]. unfold vehicle_ticked. rewrite decide_False by exact E.
      exists b, rng. rewrite Es. reflexivity.
Qed.

Lemma drones_loop_ticked vs todo :
  forall done b rng done' b' rng',
    drones_loop vs todo done b rng = Ok (done', b', rng') ->
    exists ds', done' = done ++ ds' /\ Forall2 (drone_ticked vs) todo ds'.
Proof.
  induction todo as [|d rest IH]; intros done b rng done' b' rng'; cbn [drones_loop].
  - intros [= <- _ _]. exists []. rewrite app_nil_r. split; [reflexivity | constructor].
  - destruct (Drone.step d _ rng) as [[d1 r1]| |] eqn:Es; cbn [mbind outcome_bind];
      try discriminate.
    intros H. apply IH in H. destruct H as (ds' & -> & H).
    exists (Drone.with_detected_anomalies [] d1 :: ds'). rewrite <- app_assoc.
    split; [reflexivity|]. constructor; [|exact H].
    exists rng, d1, r1. split; [exact Es | reflexivity].
Qed.

Lemma update_statistics_fold (vs : list Vehicle.VehicleAgent) :
  forall a w t,
    fold_left
      (fun '(arrived_count, waiting_time, travel_time) vehicle =>
         (if decide (Vehicle.state vehicle = Vehicle.ARRIVED)
          then arrived_count + 1 else arrived_count,
          waiting_time + Vehicle.waiting_time vehicle,
          travel_time + Vehicle.total_travel_time vehicle))
      vs (a, w, t)
    = (a + Z.of_nat (length (filter (fun v => Vehicle.state v = Vehicle.ARRIVED) vs)),
       w + total Vehicle.waiting_time vs,
       t + total Vehicle.total_travel_time vs).
Proof.
  unfold total.
  induction vs as [|v vs IH]; intros a w t; cbn [fold_left].
  - cbn. f_equal; [f_equal|]; lia.
  - rewrite IH. rewrite filter_cons. cbn [foldr].
    destruct (decide (Vehicle.state v = Vehicle.ARRIVED)); cbn [length];
      (f_equal; [f_equal|]; lia).
Qed.

Lemma count_anomaly_fold (msgs : list Msg) :
  forall s,
    fold_left count_anomaly msgs s
    = mkStats (vehicles_arrived s) (total_waiting_time s) (total_travel_time s)
              (anomalies_detected s + Z.of_nat (length (List.filter is_incident msgs)))
              (congestion_events s + Z.of_nat (length (List.filter is_congestion msgs))).
Proof.
  induction msgs as [|m msgs IH]; intros s; cbn [fold_left List.filter].
  - destruct s. cbn. f_equal; lia.
  - rewrite IH. destruct m as [| | |[]]; cbn; f_equal; lia.
Qed.

(** The stages of a tick. *)
Lemma step_traced_stages c rng c' rng' t :
  step_traced c rng = Ok (c', rng', t) ->
  exists lights b1 vs b2 r2 calls ds b3,
    lights_loop (vehicles c) (traffic_lights c) [] (message_bus c) = (lights, b1)
    /\ vehicles_loop lights (vehicles c) [] b1 rng [] = (vs, b2, r2, calls)
    /\ drones_loop vs (drones c) [] b2 r2 = Ok (ds, b3, rng')
    /\ t = mkTrace calls (Comms.get_messages b3 "anomaly_detected" None)
    /\ traffic_lights c' = lights /\ vehicles c' = vs /\ drones c' = ds
    /\ current_step c' = current_step c + 1
    /\ message_bus c' = Comms.clear b3
    /\ stats c'
       = stats (_update_statistics
                  (mkController (grid c) b3 (verbose c) (current_step c + 1) lights vs ds
                     (fold_left count_anomaly
                        (Comms.get_messages b3 "anomaly_detected" None) (stats c))))
    /\ grid c'
       = grid (_update_grid
                 (mkController (grid c) b3 (verbose c) (current_step c + 1)
                    lights vs ds (stats c))).
Proof.
  unfold step_traced, _update_vehicles, _update_traffic_lights.
  cbn [vehicles traffic_lights message_bus drones].
  destruct (lights_loop _ _ _ _) as [lights b1] eqn:EL.
  cbn [vehicles traffic_lights message_bus drones].
  destruct (vehicles_loop lights (vehicles c) [] b1 rng []) as [[[vs b2] r2] calls] eqn:EV.
  unfold _update_drones. cbn [vehicles traffic_lights message_bus drones].
  destruct (drones_loop vs (drones c) [] b2 r2) as [[[ds b3] r3]| |] eqn:ED;
    cbn [mbind outcome_bind]; try discriminate.
  unfold _process_communications, _update_statistics, _update_grid, with_bus, with_stats.
  cbn [vehicles traffic_lights message_bus drones stats grid verbose current_step].
  destruct (fold_left _ vs (0, 0, 0)) as [[a w] tt] eqn:EF.
  intros [= <- <- <-].
  exists lights, b1, vs, b2, r2, calls, ds, b3.
  cbn [vehicles traffic_lights message_bus drones stats grid verbose current_step].
  repeat split; try assumption; try reflexivity.
  unfold _update_statistics, with_stats.
  cbn [vehicles traffic_lights message_bus drones stats grid verbose current_step].
  rewrite EF. reflexivity.
Qed.

(** X28. After every tick the statistics are the aggregates of the roster
    as the tick leaves it: the number of ARRIVED vehicles and the sums of
    the waiting and travel times; the congestion and incident counters have
    grown by the number of CONGESTION and INCIDENT records drained from the
    bus in this tick; and the step counter has grown by one. *)
Theorem step_statistics c rng c' rng' t :
  step_traced c rng = Ok (c', rng', t) ->
  current_step c' = current_step c + 1
  /\ vehicles_arrived (stats c')
     = Z.of_nat (length (filter (fun v => Vehicle.state v = Vehicle.ARRIVED)
                                (vehicles c')))
  /\ total_waiting_time (stats c') = total Vehicle.waiting_time (vehicles c')
  /\ total_travel_time (stats c') = total Vehicle.total_travel_time (vehicles c')
  /\ congestion_events (stats c')
     = congestion_events (stats c)
       + Z.of_nat (length (List.filter is_congestion (drained t)))
  /\ anomalies_detected (stats c')
     = anomalies_detected (stats c)
       + Z.of_nat (length (List.filter is_incident (drained t))).
Proof.
  intros H. apply step_traced_stages in H.
  destruct H as (lights & b1 & vs & b2 & r2 & calls & ds & b3
                 & _ & _ & _ & -> & _ & -> & _ & Hs & _ & -> & _).
  split; [exact Hs|]. unfold _update_statistics, with_stats.
  cbn [vehicles stats drained].
  rewrite update_statistics_fold, count_anomaly_fold. cbn.
  repeat split; reflexivity.
Qed.

(** X29. The order of the phases of a tick.  Every light is stepped once,
    on counts taken from the vehicles as the previous tick left them; every
    vehicle that has not ARRIVED is stepped once, seeing the lights as this
    tick has just set them, and an ARRIVED vehicle is left exactly as it is;
    every drone is stepped once on the vehicles as this tick has just moved
    them, and leaves the tick with an empty anomaly queue.  The rosters keep
    their order. *)
Theorem step_updates_rosters c rng c' rng' t :
  step_traced c rng = Ok (c', rng', t) ->
  traffic_lights c'
  = map (fun l => TrafficLight.step l
                    (Some (_get_environment_data_for_light (vehicles c) l)))
        (traffic_lights c)
  /\ Forall2 (vehicle_ticked (Callback := Callback) (traffic_lights c'))
             (vehicles c) (vehicles c')
  /\ Forall2 (drone_ticked (vehicles c')) (drones c) (drones c').
Proof.
  intros H. apply step_traced_stages in H.
  destruct H as (lights & b1 & vs & b2 & r2 & calls & ds & b3
                 & EL & EV & ED & _ & -> & -> & -> & _).
  split; [|split].
  - pose proof (lights_loop_map (vehicles c) (traffic_lights c) [] (message_bus c)) as H.
    rewrite EL in H. exact H.
  - destruct (vehicles_loop_ticked lights (vehicles c) [] b1 rng []) as (vs' & E & H).
    rewrite EV in E. cbn in E. subst vs'. exact H.
  - destruct (drones_loop_ticked _ _ _ _ _ _ _ _ ED) as (ds' & -> & H). exact H.
Qed.
End ControllerTicks.


Section ControllerGrid.
Import Controller.
Context {Callback : Type}.
Implicit Types (c : @SimulationController Callback).

Lemma add_agent_size (g : GridM.Grid) agent_id (p : Pos) agent_type state :
  GridM.size (GridM.add_agent g agent_id p agent_type state) = GridM.size g.
Proof.
  unfold GridM.add_agent. destruct p as [x y].
  destruct (GridM.in_bounds g (x, y)); reflexivity.
Qed.

Lemma get_agents_at_add_any (g : GridM.Grid) agent_id (p q : Pos) agent_type state :
  grid_ok g -> in_grid g q ->
  GridM.get_agents_at (GridM.add_agent g agent_id p agent_type state) q
  = GridM.get_agents_at g q
    ++ (if decide (p = q) then [GridM.mkInfo agent_id agent_type state] else []).
Proof.
  intros Hg Hq. destruct (GridM.in_bounds g p) eqn:E.
  - apply in_bounds_true in E. rewrite get_agents_at_add by assumption.
    destruct (decide (q = p)) as [->|Hne].
    + rewrite decide_True by reflexivity. reflexivity.
    + rewrite decide_False by congruence. rewrite app_nil_r. reflexivity.
  - assert (Hne : p <> q).
    { intros ->. apply in_bounds_true in Hq. congruence. }
    rewrite decide_False by exact Hne. rewrite app_nil_r.
    unfold GridM.add_agent. destruct p as [x y]. rewrite E. reflexivity.
Qed.

(** A loop of [add_agent] calls appends, cell by cell, what each element
    contributes. *)
Lemma fold_add_agents {A} (add : GridM.Grid -> A -> GridM.Grid)
    (entry : A -> list GridM.AgentInfo) (q : Pos) (l : list A) :
  (forall g a, grid_ok g -> in_grid g q ->
     grid_ok (add g a) /\ GridM.size (add g a) = GridM.size g
     /\ GridM.get_agents_at (add g a) q = GridM.get_agents_at g q ++ entry a) ->
  forall g, grid_ok g -> in_grid g q ->
    grid_ok (fold_left add l g)
    /\ GridM.size (fold_left add l g) = GridM.size g
    /\ GridM.get_agents_at (fold_left add l g) q
       = GridM.get_agents_at g q ++ concat (map entry l).
Proof.
  intros Hadd. induction l as [|a l IH]; intros g Hg Hq; cbn [fold_left map concat].
  - rewrite app_nil_r. auto.
  - destruct (Hadd g a Hg Hq) as (Hg1 & Hs1 & Ha1).
    assert (Hq1 : in_grid (add g a) q) by (unfold in_grid in *; rewrite Hs1; exact Hq).
    destruct (IH (add g a) Hg1 Hq1) as (Hg2 & Hs2 & Ha2).
    split; [exact Hg2|]. split; [congruence|].
    rewrite Ha2, Ha1, <- app_assoc. reflexivity.
Qed.

Lemma concat_map_filter {A B} (P : A -> Prop) `{forall a, Decision (P a)}
    (f : A -> B) (l : list A) :
  concat (map (fun a => if decide (P a) then [f a] else []) l) = map f (filter P l).
Proof.
  induction l as [|a l IH]; [reflexivity|].
  cbn [map concat]. rewrite filter_cons, IH.
  destruct (decide (P a)); reflexivity.
Qed.

(** X30. After [_update_grid] a cell of the grid lists exactly the agents
    standing on it, in the order lights, vehicles, drones, and within each
    kind in roster order; a vehicle that has ARRIVED is listed nowhere, and
    nothing is left of what the grid held before. *)
Theorem update_grid_cells c (q : Pos) :
  in_grid (grid c) q ->
  GridM.get_agents_at (grid (_update_grid c)) q
  = map light_info (filter (fun l => TrafficLight.position l = q) (traffic_lights c))
    ++ map vehicle_info
         (filter (fun v => Vehicle.state v <> Vehicle.ARRIVED /\ Vehicle.position v = q)
                 (vehicles c))
    ++ map drone_info (filter (fun d => Drone.position d = q) (drones c)).
Proof.
  intros Hq. unfold _update_grid. cbn [grid].
  set (g0 := GridM.clear (grid c)).
  assert (Hg0 : grid_ok g0) by (apply empty_cells_ok; destruct Hq; lia).
  assert (Hq0 : in_grid g0 q) by exact Hq.
  assert (E0 : GridM.get_agents_at g0 q = []) by apply empty_cells_lookup.
  set (add_light := fun (g : GridM.Grid) (light : TrafficLight.TrafficLightAgent) =>
                      GridM.add_agent g (TrafficLight.agent_id light)
                        (TrafficLight.position light) "traffic_light"
                        (TrafficLight.value (TrafficLight.state light))).
  set (add_vehicle := fun (g : GridM.Grid) (vehicle : Vehicle.VehicleAgent) =>
                        if decide (Vehicle.state vehicle = Vehicle.ARRIVED) then g
                        else GridM.add_agent g (Vehicle.agent_id vehicle)
                               (Vehicle.position vehicle) "vehicle"
                               (Vehicle.state_name (Vehicle.state vehicle))).
  set (add_drone := fun (g : GridM.Grid) (drone : Drone.DroneAgent) =>
                      GridM.add_agent g (Drone.agent_id drone) (Drone.position drone)
                        "drone" (Drone.state_name (Drone.state drone))).
  destruct (fold_add_agents add_light
              (fun l => if decide (TrafficLight.position l = q) then [light_info l] else [])
              q (traffic_lights c)) with (g := g0) as (Hg1 & Hs1 & E1); try assumption.
  { intros g a Hg Hgq. subst add_light. cbv beta.
    split; [apply add_agent_ok, Hg|]. split; [apply add_agent_size|].
    apply get_agents_at_add_any; assumption. }
  set (g1 := fold_left add_light (traffic_lights c) g0) in *.
  assert (Hq1 : in_grid g1 q) by (unfold in_grid in *; rewrite Hs1; exact Hq0).
  destruct (fold_add_agents add_vehicle
              (fun v => if decide (Vehicle.state v <> Vehicle.ARRIVED /\ Vehicle.position v = q)
                        then [vehicle_info v] else [])
              q (vehicles c)) with (g := g1) as (Hg2 & Hs2 & E2); try assumption.
  { intros g a Hg Hgq. subst add_vehicle. cbv beta.
    destruct (decide (Vehicle.state a = Vehicle.ARRIVED)) as [Ea|Ea].
    - split; [exact Hg|]. split; [reflexivity|].
      rewrite decide_False by tauto. rewrite app_nil_r. reflexivity.
    - split; [apply add_agent_ok, Hg|]. split; [apply add_agent_size|].
      rewrite get_agents_at_add_any by assumption. f_equal.
      destruct (decide (Vehicle.position a = q)).
      + rewrite decide_True by tauto. reflexivity.
      + rewrite decide_False by tauto. reflexivity. }
  set (g2 := fold_left add_vehicle (vehicles c) g1) in *.
  assert (Hq2 : in_grid g2 q) by (unfold in_grid in *; rewrite Hs2; exact Hq1).
  destruct (fold_add_agents add_drone
              (fun d => if decide (Drone.position d = q) then [drone_info d] else [])
              q (drones c)) with (g := g2) as (_ & _ & E3); try assumption.
  { intros g a Hg Hgq. subst add_drone. cbv beta.
    split; [apply add_agent_ok, Hg|]. split; [apply add_agent_size|].
    apply get_agents_at_add_any; assumption. }
  rewrite E3, E2, E1, E0, !concat_map_filter. cbn [app].
  rewrite <- app_assoc. reflexivity.
Qed.
End ControllerGrid.

Lemma one_cell_grid_never_constructs_witness :
  1 <= 2
  /\ Controller.init (Callback := unit) 50 1 2 0 false [3%N; 1%N] = OutOfFuel.
Proof.
  assert (H : 1 <= 2) by lia.
  split; [exact H|].
  exact (one_cell_grid_never_constructs (Callback := unit) 50 2 0 false [3%N; 1%N] H).
Defined.

Lemma created_vehicle_in_grid_witness :
  exists v rng',
    Controller.create_vehicle 10 5 0 [0; 0; 0; 4]%N = Ok (v, rng')
    /\ Vehicle.destination v <> Vehicle.position v
    /\ on_grid v.
Proof.
  assert (H : Controller.create_vehicle 10 5 0 [0; 0; 0; 4]%N
              = Ok (Vehicle.mkVehicle "V-1" (0, 0) (0, 4) 5 Vehicle.MOVING
                      [(0, 1); (0, 2); (0, 3); (0, 4)] 0 0 0 0 1, []))
    by (vm_compute; reflexivity).
  eexists _, _. split; [exact H|].
  destruct (created_vehicle_in_grid 10 5 0 _ _ _ H) as (_ & _ & _ & Hne & _ & _ & _ & Hg).
  split; [exact Hne | exact Hg].
Defined.

Lemma step_statistics_witness :
  exists c0 rng0 c1 rng1 t1,
    Controller.init (Callback := unit) 5 2 1 1 false small_tape = Ok (c0, rng0)
    /\ Controller.step_traced c0 rng0 = Ok (c1, rng1, t1)
    /\ Controller.current_step c1 = Controller.current_step c0 + 1.
Proof.
  do 5 eexists. split; [vm_compute; reflexivity|].
  refine ((fun H => conj H (proj1 (step_statistics _ _ _ _ _ H))) _).
  vm_compute; reflexivity.
Defined.

Lemma step_updates_rosters_witness :
  exists c0 rng0 c1 rng1 t1,
    Controller.init (Callback := unit) 5 2 1 1 false small_tape = Ok (c0, rng0)
    /\ Controller.step_traced c0 rng0 = Ok (c1, rng1, t1)
    /\ Forall2 (drone_ticked (Controller.vehicles c1))
               (Controller.drones c0) (Controller.drones c1).
Proof.
  do 5 eexists. split; [vm_compute; reflexivity|].
  refine ((fun H => conj H (proj2 (proj2 (step_updates_rosters _ _ _ _ _ H)))) _).
  vm_compute; reflexivity.
Defined.

Lemma update_grid_cells_witness :
  let c := Controller.mkController (Callback := unit)
             (GridM.mkGrid 2 (GridM.empty_cells 2) ∅) (Comms.init 100) false 0 []
             [Vehicle.mkVehicle "V-1" (1, 0) (1, 1) 2 Vehicle.MOVING [(1, 0); (1, 1)]
                                1 0 1 0 1] []
             (Controller.mkStats 0 0 0 0 0) in
  in_grid (Controller.grid c) (1, 0)
  /\ GridM.get_agents_at (Controller.grid (Controller._update_grid c)) (1, 0)
     = [GridM.mkInfo "V-1" "vehicle" "MOVING"].
Proof.
  intros c.
  assert (H : in_grid (Controller.grid c) (1, 0)) by (unfold in_grid; cbn; lia).
  split; [exact H|].
  rewrite (update_grid_cells c (1, 0) H). reflexivity.
Defined.
